(** * A shallow embedding of the YouTube comment classifier notebook

    The notebook [Demo3.ipynb] is a linear pipeline of six Python functions
    over pandas tables; each function is a handful of calls into pandas and
    scikit-learn.  The embedding follows that shape: a small model of the
    table operations the notebook calls (with the same names), a store of
    table objects for the operations that work in place, and the notebook's
    functions written against that model, statement by statement. *)

From Stdlib Require Import String Ascii.
From Stdlib Require Import List Bool Arith ZArith QArith Qround.
From Stdlib Require Import Lia Permutation Sorted DecimalString OrderedTypeEx.
From Stdlib Require Import Field Qfield.
Import ListNotations.

#[local] Close Scope Q_scope.
#[local] Open Scope nat_scope.

Set Implicit Arguments.

(** ** Exceptions and results *)

Inductive exn : Type :=
| KeyError (labels : list string)   (* a column label that the table lacks *)
| TypeError                         (* values of one column cannot be ordered *)
| ValueError                        (* rejected by a validation step *)
| AttributeError                    (* a text operation on a non-text value *)
| NameError.                        (* a reference to no table object *)

Definition result (A : Type) : Type := (A + exn)%type.

Abbreviation ok := (@inl _ exn).
Abbreviation raise := (@inr _ exn).

Definition rbind {A B} (r : result A) (k : A -> result B) : result B :=
  match r with
  | inl a => k a
  | inr e => inr e
  end.

Fixpoint mapM {A B} (f : A -> result B) (l : list A) : result (list B) :=
  match l with
  | [] => ok []
  | x :: t => rbind (f x) (fun y => rbind (mapM f t) (fun ys => ok (y :: ys)))
  end.

(** ** Cells, series and tables *)

Inductive cell : Type :=
| NaN
| Str (s : string)
| Int (z : Z).

Definition cell_eqb (a b : cell) : bool :=
  match a, b with
  | NaN, NaN => true
  | Str s, Str t => String.eqb s t
  | Int x, Int y => Z.eqb x y
  | _, _ => false
  end.

Fixpoint row_eqb (r1 r2 : list cell) : bool :=
  match r1, r2 with
  | [], [] => true
  | a :: t1, b :: t2 => cell_eqb a b && row_eqb t1 t2
  | _, _ => false
  end.

Record Series : Type := mkSeries {
  s_index : list nat;
  s_values : list cell
}.

(** A table is stored row by row; [columns] names the positions of a row and
    [index] labels the rows. *)
Record DataFrame : Type := mkDataFrame {
  index : list nat;
  columns : list string;
  values : list (list cell)
}.

Definition nrows (df : DataFrame) : nat := length (values df).

(** Every row has one cell per column and one index label. *)
Definition well_formed (df : DataFrame) : Prop :=
  length (index df) = length (values df) /\
  Forall (fun r => length r = length (columns df)) (values df).

(** ** The pandas operations the notebook calls *)

Definition isnull (c : cell) : bool :=
  match c with
  | NaN => true
  | _ => false
  end.

(** [df.isnull().any(axis=1)]: one flag per row. *)
Definition isnull_any_axis1 (df : DataFrame) : list bool :=
  map (existsb isnull) (values df).

(** [mask.any()] *)
Definition any (mask : list bool) : bool := existsb (fun b => b) mask.

(** Selection by a boolean mask, [a[mask]]. *)
Fixpoint select {A} (mask : list bool) (l : list A) : list A :=
  match mask, l with
  | b :: m, x :: t => if b then x :: select m t else select m t
  | _, _ => []
  end.

(** [df[mask]]: the rows whose flag is set, with their labels. *)
Definition loc_mask (df : DataFrame) (mask : list bool) : DataFrame :=
  {| index := select mask (index df);
     columns := columns df;
     values := select mask (values df) |}.

(** [df.dropna()] *)
Definition dropna (df : DataFrame) : DataFrame :=
  loc_mask df (map negb (isnull_any_axis1 df)).

(** [df.duplicated()], keep='first': a row is flagged when an earlier row
    holds the same cells. *)
Fixpoint duplicated_from (seen rows : list (list cell)) : list bool :=
  match rows with
  | [] => []
  | r :: t => existsb (row_eqb r) seen :: duplicated_from (r :: seen) t
  end.

Definition duplicated (df : DataFrame) : list bool :=
  duplicated_from [] (values df).

(** [df.drop_duplicates()] *)
Definition drop_duplicates (df : DataFrame) : DataFrame :=
  loc_mask df (map negb (duplicated df)).

Fixpoint position (name : string) (cols : list string) : option nat :=
  match cols with
  | [] => None
  | c :: t => if String.eqb name c then Some 0
              else option_map S (position name t)
  end.

(** [df[name]] *)
Definition getitem (df : DataFrame) (name : string) : result Series :=
  match position name (columns df) with
  | None => raise (KeyError [name])
  | Some p => ok {| s_index := index df;
                    s_values := map (fun r => nth p r NaN) (values df) |}
  end.

Fixpoint replace_nth {A} (p : nat) (x : A) (l : list A) : list A :=
  match p, l with
  | _, [] => []
  | O, _ :: t => x :: t
  | S q, y :: t => y :: replace_nth q x t
  end.

(** [df[name] = array]: overwrites the column, or appends it when the table
    has no column of that name; the array must have one value per row. *)
Definition setitem (df : DataFrame) (name : string) (vals : list cell)
  : result DataFrame :=
  if negb (length vals =? nrows df) then raise ValueError
  else match position name (columns df) with
       | Some p =>
           ok {| index := index df;
                 columns := columns df;
                 values := map (fun vr => replace_nth p (fst vr) (snd vr))
                               (combine vals (values df)) |}
       | None =>
           ok {| index := index df;
                 columns := columns df ++ [name];
                 values := map (fun vr => snd vr ++ [fst vr])
                               (combine vals (values df)) |}
       end.

Definition mem_string (s : string) (l : list string) : bool :=
  existsb (String.eqb s) l.

(** [df.drop(labels, axis=1)]: every label must name a column. *)
Definition drop_columns (df : DataFrame) (labels : list string)
  : result DataFrame :=
  match filter (fun l => negb (mem_string l (columns df))) labels with
  | [] =>
      let keep := map (fun c => negb (mem_string c labels)) (columns df) in
      ok {| index := index df;
            columns := select keep (columns df);
            values := map (select keep) (values df) |}
  | missing => raise (KeyError missing)
  end.

(** [df.reset_index(drop=True)] *)
Definition reset_index (df : DataFrame) : DataFrame :=
  {| index := seq 0 (nrows df);
     columns := columns df;
     values := values df |}.

(** ** scikit-learn: [LabelEncoder]

    [fit] collects the distinct values of a column in ascending order
    ([sorted(set(values))] for text, [np.unique] for numbers, a missing value
    after everything else); [transform] replaces each value by its position
    in that list.  Text and numbers in one column cannot be ordered. *)

Definition cell_compare (a b : cell) : comparison :=
  match a, b with
  | Int x, Int y => Z.compare x y
  | Int _, _ => Lt
  | Str _, Int _ => Gt
  | Str s, Str t => String.compare s t
  | Str _, NaN => Lt
  | NaN, NaN => Eq
  | NaN, _ => Gt
  end.

Definition is_str (c : cell) : bool :=
  match c with
  | Str _ => true
  | _ => false
  end.

Definition is_int (c : cell) : bool :=
  match c with
  | Int _ => true
  | _ => false
  end.

Definition mixed (y : list cell) : bool := existsb is_str y && existsb is_int y.

(** Ascending list of the distinct values, for an order given by a
    three-way comparison. *)
Section Unique.
Variable A : Type.
Variable cmp : A -> A -> comparison.

Fixpoint insert_unique (v : A) (sorted : list A) : list A :=
  match sorted with
  | [] => [v]
  | c :: t =>
      match cmp v c with
      | Lt => v :: sorted
      | Eq => sorted
      | Gt => c :: insert_unique v t
      end
  end.

Definition unique (y : list A) : list A := fold_right insert_unique [] y.
End Unique.

Fixpoint index_of (v : cell) (classes : list cell) : option nat :=
  match classes with
  | [] => None
  | c :: t => if cell_eqb v c then Some 0 else option_map S (index_of v t)
  end.

Record LabelEncoder : Type := mkLabelEncoder {
  classes_ : option (list cell)
}.

Definition LabelEncoder_new : LabelEncoder := {| classes_ := None |}.

Definition fit (le : LabelEncoder) (y : list cell) : result LabelEncoder :=
  if mixed y then raise TypeError
  else ok {| classes_ := Some (unique cell_compare y) |}.

Definition transform (le : LabelEncoder) (y : list cell) : result (list cell) :=
  match classes_ le with
  | None => raise ValueError
  | Some classes =>
      mapM (fun v => match index_of v classes with
                     | Some i => ok (Int (Z.of_nat i))
                     | None => raise ValueError
                     end) y
  end.

(** The encoder is refitted from scratch: what it had learnt before is
    overwritten. *)
Definition fit_transform (le : LabelEncoder) (y : list cell)
  : result (list cell * LabelEncoder) :=
  rbind (fit le y) (fun le' =>
  rbind (transform le' y) (fun codes => ok (codes, le'))).

(** ** The store of table objects

    pandas tables are mutable objects handed around by reference.  A program
    state holds the table objects, addressed by position, and the lines
    printed so far.  A computation returns a result or an exception together
    with the state it leaves behind, so that what was changed in place before
    an exception stays changed. *)

Definition loc : Type := nat.

Record world : Type := mkWorld {
  heap : list DataFrame;
  stdout : list string
}.

Definition M (A : Type) : Type := world -> result A * world.

Definition ret {A} (a : A) : M A := fun w => (ok a, w).

Definition bind {A B} (m : M A) (k : A -> M B) : M B :=
  fun w => match m w with
           | (inl a, w') => k a w'
           | (inr e, w') => (inr e, w')
           end.

Definition lift {A} (r : result A) : M A := fun w => (r, w).

Declare Scope store_scope.
Delimit Scope store_scope with store.
Notation "x <- c ;; k" := (bind c (fun x => k))
  (at level 61, c at next level, right associativity) : store_scope.
Notation "c ;; k" := (bind c (fun _ => k))
  (at level 61, right associativity) : store_scope.
#[local] Open Scope store_scope.

Definition deref (l : loc) : M DataFrame :=
  fun w => match nth_error (heap w) l with
           | Some df => (ok df, w)
           | None => (raise NameError, w)
           end.

Definition assign (l : loc) (df : DataFrame) : M unit :=
  fun w => (ok tt, {| heap := replace_nth l df (heap w); stdout := stdout w |}).

Definition alloc (df : DataFrame) : M loc :=
  fun w => (ok (length (heap w)),
            {| heap := heap w ++ [df]; stdout := stdout w |}).

Definition print (line : string) : M unit :=
  fun w => (ok tt, {| heap := heap w; stdout := stdout w ++ [line] |}).

(** The [inplace=True] forms: the object behind the reference is replaced by
    the operation's result. *)
Definition dropna_inplace (l : loc) : M unit :=
  df <- deref l ;; assign l (dropna df).

Definition drop_duplicates_inplace (l : loc) : M unit :=
  df <- deref l ;; assign l (drop_duplicates df).

Definition drop_columns_inplace (l : loc) (labels : list string) : M unit :=
  df <- deref l ;; df' <- lift (drop_columns df labels) ;; assign l df'.

Definition reset_index_inplace (l : loc) : M unit :=
  df <- deref l ;; assign l (reset_index df).

Definition getitem_at (l : loc) (name : string) : M Series :=
  df <- deref l ;; lift (getitem df name).

Definition setitem_at (l : loc) (name : string) (vals : list cell) : M unit :=
  df <- deref l ;; df' <- lift (setitem df name vals) ;; assign l df'.

Definition str_of_nat (n : nat) : string :=
  NilEmpty.string_of_uint (Nat.to_uint n).

(** ** The notebook: cleaning and encoding *)

(** The function's body is a sequence of five commented blocks; each block is
    named after its comment. *)

(* Handling missing/null values *)
Definition handle_missing_values (data : loc) : M unit :=
  df <- deref data ;;
  if any (isnull_any_axis1 df) then
    let null_rows := loc_mask df (isnull_any_axis1 df) in
    print ("Found " ++ str_of_nat (nrows null_rows)
           ++ " rows with null values.. Removing them...")%string ;;
    dropna_inplace data
  else ret tt.

(* Handling duplicates *)
Definition handle_duplicates (data : loc) : M unit :=
  df <- deref data ;;
  if any (duplicated df) then
    let dup_rows := loc_mask df (duplicated df) in
    print ("Found " ++ str_of_nat (nrows dup_rows)
           ++ " duplicate rows.. Removing them...")%string ;;
    drop_duplicates_inplace data
  else ret tt.

(* Encoding String columns *)
Definition encode_string_columns (data : loc) : M unit :=
  let le := LabelEncoder_new in
  author <- getitem_at data "AUTHOR" ;;
  enc <- lift (fit_transform le (s_values author)) ;;
  setitem_at data "AUTHOR" (fst enc) ;;
  let le := snd enc in
  video_name <- getitem_at data "VIDEO_NAME" ;;
  enc <- lift (fit_transform le (s_values video_name)) ;;
  setitem_at data "VIDEO_NAME" (fst enc).

(* Removing unnecessary features *)
Definition remove_unnecessary_features (data : loc) : M unit :=
  drop_columns_inplace data ["DATE"%string] ;;
  drop_columns_inplace data ["COMMENT_ID"%string].

Definition data_cleaning_encoding (data : loc) : M loc :=
  handle_missing_values data ;;
  handle_duplicates data ;;
  encode_string_columns data ;;
  remove_unnecessary_features data ;;
  (* Reset index after cleaning *)
  reset_index_inplace data ;;
  ret data.

(** ** scikit-learn: [CountVectorizer]

    The analyzer (lower-casing followed by the token pattern, words of two
    or more word characters) turns a document into its tokens.  The fitted
    vocabulary is the ascending list of the distinct tokens of all documents,
    which is also what [get_feature_names_out] returns; the matrix holds, per
    document and term, the number of occurrences of the term among the
    document's tokens. *)

Section CountVectorizer.
Variable analyzer : string -> list string.

Definition decode (c : cell) : result string :=
  match c with
  | Str s => ok s
  | NaN => raise ValueError
  | Int _ => raise AttributeError
  end.

Definition vocabulary (docs : list string) : list string :=
  unique String.compare (flat_map analyzer docs).

Definition count_row (vocab : list string) (doc : string) : list cell :=
  map (fun t => Int (Z.of_nat (count_occ string_dec (analyzer doc) t))) vocab.

(** Returns the dense count matrix and the feature names; an empty
    vocabulary is rejected. *)
Definition CountVectorizer_fit_transform (raw_documents : list cell)
  : result (list (list cell) * list string) :=
  rbind (mapM decode raw_documents) (fun docs =>
  match vocabulary docs with
  | [] => raise ValueError
  | vocab => ok (map (count_row vocab) docs, vocab)
  end).
End CountVectorizer.

(** The default analyzer on ASCII text: lower-case the document, then take
    the maximal runs of word characters (letters, digits, underscore) that
    are at least two characters long. *)
Definition is_word_char (c : ascii) : bool :=
  let n := nat_of_ascii c in
  ((48 <=? n) && (n <=? 57)) || ((65 <=? n) && (n <=? 90))
  || (n =? 95) || ((97 <=? n) && (n <=? 122)).

Definition lower_char (c : ascii) : ascii :=
  let n := nat_of_ascii c in
  if (65 <=? n) && (n <=? 90) then ascii_of_nat (n + 32) else c.

Fixpoint lower (s : string) : string :=
  match s with
  | EmptyString => EmptyString
  | String c t => String (lower_char c) (lower t)
  end.

Fixpoint split_words (cur : string) (s : string) : list string :=
  match s with
  | EmptyString => [cur]
  | String c t =>
      if is_word_char c then split_words (cur ++ String c EmptyString)%string t
      else cur :: split_words EmptyString t
  end.

Definition ascii_analyzer (doc : string) : list string :=
  filter (fun w => 2 <=? String.length w) (split_words EmptyString (lower doc)).

(** ** pandas: building and joining tables *)

(** [pd.DataFrame(array, columns=names)] *)
Definition DataFrame_new (rows : list (list cell)) (names : list string)
  : DataFrame :=
  {| index := seq 0 (length rows); columns := names; values := rows |}.

Fixpoint loc_label (labels : list nat) (rows : list (list cell)) (l : nat)
  : option (list cell) :=
  match labels, rows with
  | k :: ks, r :: rs => if k =? l then Some r else loc_label ks rs l
  | _, _ => None
  end.

Definition row_or_nan (df : DataFrame) (l : nat) : list cell :=
  match loc_label (index df) (values df) l with
  | Some r => r
  | None => repeat NaN (length (columns df))
  end.

(** [pd.concat([a, b], axis=1)]: rows are matched by index label, a label
    missing on one side is filled with missing values there.  Labels are
    those of [a] followed by those only [b] has. *)
Definition concat_axis1 (a b : DataFrame) : DataFrame :=
  let labels :=
    index a ++ filter (fun l => negb (existsb (Nat.eqb l) (index a))) (index b) in
  {| index := labels;
     columns := columns a ++ columns b;
     values := map (fun l => row_or_nan a l ++ row_or_nan b l) labels |}.

(** ** The notebook: vectorizing *)

Section Vectorizing.
Variable analyzer : string -> list string.

Definition vectorizing (cleaned_data : loc) : M loc :=
  feature_to_vectorize <- getitem_at cleaned_data "CONTENT" ;;
  fitted <- lift (CountVectorizer_fit_transform analyzer
                    (s_values feature_to_vectorize)) ;;
  let vectorized_feature_array := fst fitted in
  let vectorized_df :=
    DataFrame_new vectorized_feature_array (snd fitted) in
  (* Reset indices to ensure alignment *)
  let vectorized_df := reset_index vectorized_df in
  reset_index_inplace cleaned_data ;;
  (* Concatenate the two dataframes *)
  df <- deref cleaned_data ;;
  alloc (concat_axis1 df vectorized_df).
End Vectorizing.

(** ** scikit-learn: [train_test_split]

    The held-out size is a fraction (a Python float, taken here as a
    rational, with exact products) or a row count. *)

Inductive size : Type :=
| Fraction (f : Q)
| Count (n : Z).

(** [_validate_shuffle_split] with [train_size=None]: the number of training
    and of test rows. *)
Definition validate_shuffle_split (n_samples : nat) (test_size : size)
  : result (nat * nat) :=
  let n := Z.of_nat n_samples in
  let out_of_range :=
    match test_size with
    | Count k => (n <=? k)%Z || (k <=? 0)%Z
    | Fraction f => Qle_bool f 0 || Qle_bool 1 f
    end in
  if out_of_range then raise ValueError
  else
    let n_test :=
      match test_size with
      | Fraction f => Qceiling (f * inject_Z n)
      | Count k => k
      end in
    let n_train := (n - n_test)%Z in
    if (n <? n_train + n_test)%Z then raise ValueError
    else if (n_train =? 0)%Z then raise ValueError
    else ok (Z.to_nat n_train, Z.to_nat n_test).

(** [df.iloc[positions]] and [series.iloc[positions]]: rows by position, with
    their labels. *)
Definition iloc (df : DataFrame) (positions : list nat) : DataFrame :=
  {| index := map (fun i => nth i (index df) 0) positions;
     columns := columns df;
     values := map (fun i => nth i (values df) []) positions |}.

Definition iloc_series (s : Series) (positions : list nat) : Series :=
  {| s_index := map (fun i => nth i (s_index s) 0) positions;
     s_values := map (fun i => nth i (s_values s) NaN) positions |}.

Section TrainTestSplit.
(** A pseudorandom generator: built from a seed, it yields a permutation of
    [0 .. n-1] and moves on.  The process also has one shared generator,
    which is what an operation draws from when it is given no seed. *)
Variable RandomState : Type.
Variable RandomState_seed : Z -> RandomState.
Variable RandomState_permutation : RandomState -> nat -> list nat * RandomState.

(** [ShuffleSplit(...).split]: the first [n_test] entries of the
    permutation are the test positions, the next [n_train] the training
    positions.  Returns (train, test) and the shared generator. *)
Definition ShuffleSplit_indices (n_samples n_train n_test : nat)
    (random_state : option Z) (np_random : RandomState)
  : (list nat * list nat) * RandomState :=
  let split (permutation : list nat) :=
    (firstn n_train (skipn n_test permutation), firstn n_test permutation) in
  match random_state with
  | Some seed =>
      let rng := RandomState_seed seed in
      (split (fst (RandomState_permutation rng n_samples)), np_random)
  | None =>
      let drawn := RandomState_permutation np_random n_samples in
      (split (fst drawn), snd drawn)
  end.

Definition train_test_split (x : DataFrame) (y : Series) (test_size : size)
    (random_state : option Z) (np_random : RandomState)
  : result (DataFrame * DataFrame * Series * Series) * RandomState :=
  if negb (nrows x =? length (s_values y)) then (raise ValueError, np_random)
  else
    match validate_shuffle_split (nrows x) test_size with
    | inr e => (inr e, np_random)
    | inl (n_train, n_test) =>
        let '((train, test), np_random') :=
          ShuffleSplit_indices (nrows x) n_train n_test random_state np_random in
        (ok (iloc x train, iloc x test, iloc_series y train, iloc_series y test),
         np_random')
    end.

(** ** The notebook: splitting

    The function only reads its argument ([data.drop] without [inplace] and
    [data[...]] build new objects), so it is given the table itself. *)

Definition default_test_size : size := Fraction (3 # 10).

Definition train_test_splitting (data : DataFrame) (test_size : size)
    (np_random : RandomState)
  : result (DataFrame * DataFrame * Series * Series) * RandomState :=
  match drop_columns data ["CLASS"; "CONTENT"]%string with
  | inr e => (inr e, np_random)
  | inl x =>
      match getitem data "CLASS" with
      | inr e => (inr e, np_random)
      | inl y => train_test_split x y test_size (Some 42%Z) np_random
      end
  end.
End TrainTestSplit.

(** ** scikit-learn: [RandomForestClassifier]

    [fit] checks the hyperparameters and the training data before any tree is
    grown.  Growing the trees is left to a parameter. *)

Inductive max_features_spec : Type :=
| MF_sqrt
| MF_log2
| MF_None
| MF_int (k : Z)
| MF_float (q : Q).

Record hyperparameters : Type := mkHyper {
  criterion : string;
  random_state : Z;
  n_estimators : Z;
  max_depth : option Z;
  max_features : max_features_spec
}.

Definition valid_hyperparameters (p : hyperparameters) (n_features : nat) : bool :=
  (1 <=? n_estimators p)%Z
  && match max_depth p with
     | None => true
     | Some d => (1 <=? d)%Z
     end
  && match max_features p with
     | MF_int k => (1 <=? k)%Z && (k <=? Z.of_nat n_features)%Z
     | MF_float q => negb (Qle_bool q 0) && Qle_bool q 1
     | _ => true
     end.

Definition numeric (c : cell) : result Z :=
  match c with
  | Int z => ok z
  | _ => raise ValueError
  end.

Section RandomForest.
Variable forest : Type.
Variable grow : hyperparameters -> list (list Z) -> list cell -> forest.

Record RandomForestClassifier : Type := mkForest {
  rf_params : hyperparameters;
  rf_classes_ : list cell;
  rf_n_features_in_ : nat;
  rf_estimators_ : forest
}.

Definition RandomForestClassifier_fit (p : hyperparameters)
    (x : DataFrame) (y : Series) : result RandomForestClassifier :=
  let n_features := length (columns x) in
  if negb (valid_hyperparameters p n_features) then raise ValueError
  else
    rbind (mapM (mapM numeric) (values x)) (fun rows =>
    if nrows x =? 0 then raise ValueError
    else if n_features =? 0 then raise ValueError
    else if existsb isnull (s_values y) then raise ValueError
    else if mixed (s_values y) then raise ValueError
    else if negb (nrows x =? length (s_values y)) then raise ValueError
    else ok {| rf_params := p;
               rf_classes_ := unique cell_compare (s_values y);
               rf_n_features_in_ := n_features;
               rf_estimators_ := grow p rows (s_values y) |}).

(** ** The notebook: training *)

Definition model_training_random_forest (x_train : DataFrame)
    (y_train : Series) (n_estimators : Z) (max_depth : option Z)
    (max_features : max_features_spec) : result RandomForestClassifier :=
  let model := {| criterion := "entropy"; random_state := 42%Z;
                  n_estimators := n_estimators; max_depth := max_depth;
                  max_features := max_features |} in
  RandomForestClassifier_fit model x_train y_train.
End RandomForest.

(** ** scikit-learn: metrics

    A score is a Python float; it is taken here as the exact quotient of the
    counts it is computed from, or [nan]. *)

Inductive float : Type :=
| nan
| finite (q : Q).

(** Validation shared by the metrics; returns the labels that occur, in
    ascending order ([unique_labels]). *)
Definition check_targets (y_true y_pred : list cell) : result (list cell) :=
  if negb (length y_true =? length y_pred) then raise ValueError
  else if existsb isnull (y_true ++ y_pred) then raise ValueError
  else if mixed y_true || mixed y_pred then raise ValueError
  else if mixed (y_true ++ y_pred) then raise TypeError
  else ok (unique cell_compare (y_true ++ y_pred)).

Definition count_pairs (p : cell * cell -> bool) (y_true y_pred : list cell) : nat :=
  length (filter p (combine y_true y_pred)).

Definition accuracy_score (y_true y_pred : list cell) : result float :=
  rbind (check_targets y_true y_pred) (fun _ =>
  match length y_true with
  | O => ok nan
  | S n' =>
      ok (finite (Z.of_nat (count_pairs (fun tp => cell_eqb (fst tp) (snd tp))
                              y_true y_pred)
                  # Pos.of_succ_nat n'))
  end).

(** A quotient of counts; a zero denominator gives 0 (with a warning). *)
Definition prf_divide (numerator denominator : nat) : Q :=
  match denominator with
  | O => 0%Q
  | S d => (Z.of_nat numerator # Pos.of_succ_nat d)%Q
  end.

Definition tp_sum (label : cell) (y_true y_pred : list cell) : nat :=
  count_pairs (fun tp => cell_eqb (fst tp) label && cell_eqb (snd tp) label)
              y_true y_pred.

Definition pred_sum (label : cell) (y_pred : list cell) : nat :=
  length (filter (fun c => cell_eqb c label) y_pred).

Definition true_sum (label : cell) (y_true : list cell) : nat :=
  length (filter (fun c => cell_eqb c label) y_true).

Definition precision_for (label : cell) (y_true y_pred : list cell) : Q :=
  prf_divide (tp_sum label y_true y_pred) (pred_sum label y_pred).

Definition recall_for (label : cell) (y_true y_pred : list cell) : Q :=
  prf_divide (tp_sum label y_true y_pred) (true_sum label y_true).

Definition f1_for (label : cell) (y_true y_pred : list cell) : Q :=
  prf_divide (2 * tp_sum label y_true y_pred)
             (true_sum label y_true + pred_sum label y_pred).

(** [average='binary'], the default: at most two labels may occur, and the
    positive label must be one of them when two do. *)
Definition check_binary (pos_label : cell) (y_true y_pred : list cell)
  : result unit :=
  rbind (check_targets y_true y_pred) (fun present_labels =>
  if 2 <? length present_labels then raise ValueError
  else if negb (existsb (cell_eqb pos_label) present_labels)
          && (2 <=? length present_labels) then raise ValueError
  else ok tt).

(** The default positive label of [precision_score], [recall_score] and
    [f1_score]. *)
Definition pos_label : cell := Int 1.

Definition precision_score (y_true y_pred : list cell) : result float :=
  rbind (check_binary pos_label y_true y_pred) (fun _ =>
  ok (finite (precision_for pos_label y_true y_pred))).

Definition recall_score (y_true y_pred : list cell) : result float :=
  rbind (check_binary pos_label y_true y_pred) (fun _ =>
  ok (finite (recall_for pos_label y_true y_pred))).

Definition f1_score (y_true y_pred : list cell) : result float :=
  rbind (check_binary pos_label y_true y_pred) (fun _ =>
  ok (finite (f1_for pos_label y_true y_pred))).

(** [confusion_matrix(y_true, y_pred)] with no [labels] argument: one row and
    one column per label that occurs. *)
Definition c_m (y_true y_pred : list cell) : result (list (list nat)) :=
  rbind (check_targets y_true y_pred) (fun labels =>
  ok (map (fun t =>
        map (fun p =>
          count_pairs (fun tp => cell_eqb (fst tp) t && cell_eqb (snd tp) p)
                      y_true y_pred) labels) labels)).

Record ConfusionMatrixDisplay : Type := mkDisplay {
  cm_values : list (list nat);
  display_labels : list string
}.

Record report_line : Type := mkLine {
  target_name : string;
  line_precision : Q;
  line_recall : Q;
  line_f1 : Q;
  line_support : nat
}.

(** The per-class lines of [classification_report]; without a [labels]
    argument, the names must be as many as the labels that occur. *)
Definition classification_report (y_true y_pred : list cell)
    (target_names : list string) : result (list report_line) :=
  rbind (check_targets y_true y_pred) (fun labels =>
  if negb (length labels =? length target_names) then raise ValueError
  else ok (map (fun ln =>
             {| target_name := snd ln;
                line_precision := precision_for (fst ln) y_true y_pred;
                line_recall := recall_for (fst ln) y_true y_pred;
                line_f1 := f1_for (fst ln) y_true y_pred;
                line_support := true_sum (fst ln) y_true |})
           (combine labels target_names))).

(** ** The notebook: evaluation *)

Definition model_evaluation_scores (y_pred : list cell) (y_test : Series)
  : result (float * float * float * float) :=
  rbind (accuracy_score (s_values y_test) y_pred) (fun accuracy =>
  rbind (precision_score (s_values y_test) y_pred) (fun precision =>
  rbind (recall_score (s_values y_test) y_pred) (fun recall =>
  rbind (f1_score (s_values y_test) y_pred) (fun f1 =>
  ok (accuracy, precision, recall, f1))))).

(** The matrix that is plotted, with the labels it is plotted under. *)
Definition confusion_matrix (y_pred : list cell) (y_test : Series)
  : result ConfusionMatrixDisplay :=
  rbind (c_m (s_values y_test) y_pred) (fun cm =>
  ok {| cm_values := cm; display_labels := ["SPAM"; "NON-SPAM"]%string |}).

(** The lines that are printed. *)
Definition classification_rep (y_pred : list cell) (y_test : Series)
  : result (list report_line) :=
  classification_report (s_values y_test) y_pred ["SPAM"; "NON-SPAM"]%string.

(** ** Descriptions used in the statements

    The table that the two removal steps of [data_cleaning_encoding] leave,
    and the table the whole function leaves behind its argument, as functions
    of the table found there.  They are related to the function itself in
    [data_cleaning_encoding_run]. *)

Definition without_nulls (df : DataFrame) : DataFrame :=
  if any (isnull_any_axis1 df) then dropna df else df.

Definition without_duplicates (df : DataFrame) : DataFrame :=
  if any (duplicated df) then drop_duplicates df else df.

Definition retained (df : DataFrame) : DataFrame :=
  without_duplicates (without_nulls df).

Definition encoded (d : DataFrame) : result DataFrame :=
  rbind (getitem d "AUTHOR") (fun author =>
  rbind (fit_transform LabelEncoder_new (s_values author)) (fun enc =>
  rbind (setitem d "AUTHOR" (fst enc)) (fun d1 =>
  rbind (getitem d1 "VIDEO_NAME") (fun video_name =>
  rbind (fit_transform (snd enc) (s_values video_name)) (fun enc' =>
  setitem d1 "VIDEO_NAME" (fst enc')))))).

Definition cleaned (df : DataFrame) : result DataFrame :=
  rbind (encoded (retained df)) (fun d2 =>
  rbind (drop_columns d2 ["DATE"%string]) (fun d3 =>
  rbind (drop_columns d3 ["COMMENT_ID"%string]) (fun d4 =>
  ok (reset_index d4)))).

Definition cell_eq_dec (a b : cell) : {a = b} + {a <> b}.
Proof.
  decide equality; [apply string_dec | apply Z.eq_dec].
Defined.

Definition cell_ltb (a b : cell) : bool :=
  match cell_compare a b with
  | Lt => true
  | _ => false
  end.

(** The number of distinct values of a column that are smaller than [v]. *)
Definition rank (v : cell) (column : list cell) : nat :=
  length (nodup cell_eq_dec (filter (fun c => cell_ltb c v) column)).

(** The number of distinct values of a column. *)
Definition distinct (column : list cell) : nat :=
  length (nodup cell_eq_dec column).

(** The values of a column, or nothing when the table has no such column. *)
Definition column_values (df : DataFrame) (name : string) : list cell :=
  match getitem df name with
  | inl s => s_values s
  | inr _ => []
  end.

(** The row that the encoding steps make of a retained row: the cells at the
    positions of AUTHOR and VIDEO_NAME replaced by their ranks in the two
    columns. *)
Definition encode_row (pA pV : nat) (authors videos : list cell)
    (r : list cell) : list cell :=
  replace_nth pV (Int (Z.of_nat (rank (nth pV r NaN) videos)))
    (replace_nth pA (Int (Z.of_nat (rank (nth pA r NaN) authors))) r).

(** The mask of the columns that [drop_columns] keeps. *)
Definition keep_but (labels : list string) (cols : list string) : list bool :=
  map (fun c => negb (mem_string c labels)) cols.

(** The table [cleaned] returns, written out, for a table that holds
    AUTHOR at position [pA] and VIDEO_NAME at position [pV]. *)
Definition cleaned_form (df : DataFrame) (pA pV : nat) : DataFrame :=
  let d := retained df in
  let authors := map (fun r => nth pA r NaN) (values d) in
  let videos := map (fun r => nth pV r NaN) (values d) in
  let k1 := keep_but ["DATE"%string] (columns df) in
  let k2 := keep_but ["COMMENT_ID"%string] (select k1 (columns df)) in
  {| index := seq 0 (nrows d);
     columns := select k2 (select k1 (columns df));
     values := map (fun r => select k2 (select k1
                              (encode_row pA pV authors videos r)))
                   (values d) |}.

(** The columns of the raw data set. *)
Definition expected_columns (df : DataFrame) : Prop :=
  incl ["COMMENT_ID"; "AUTHOR"; "DATE"; "CONTENT"; "VIDEO_NAME"; "CLASS"]%string
       (columns df).

(** No cell of the table is missing. *)
Definition no_missing (df : DataFrame) : Prop :=
  Forall (fun r => Forall (fun c => c <> NaN) r) (values df).

(** The cells of a column are text or missing, as in a column read from a
    file of comments. *)
Definition text_column (df : DataFrame) (name : string) : Prop :=
  Forall (fun c => is_int c = false) (column_values df name).

(** The lines the two removal steps print. *)
Definition missing_values_lines (df : DataFrame) : list string :=
  if any (isnull_any_axis1 df) then
    [("Found " ++ str_of_nat (nrows (loc_mask df (isnull_any_axis1 df)))
      ++ " rows with null values.. Removing them...")%string]
  else [].

Definition duplicates_lines (df : DataFrame) : list string :=
  if any (duplicated df) then
    [("Found " ++ str_of_nat (nrows (loc_mask df (duplicated df)))
      ++ " duplicate rows.. Removing them...")%string]
  else [].

Definition cleaning_lines (df : DataFrame) : list string :=
  missing_values_lines df ++ duplicates_lines (without_nulls df).

(** A store in which the object at [l] holds [x]. *)
Definition at_loc (l : loc) (h : list DataFrame) (x : DataFrame)
    (o : list string) : world :=
  {| heap := replace_nth l x h; stdout := o |}.

(** The columns that the removal of DATE and COMMENT_ID leaves. *)
Definition kept_column (c : string) : bool :=
  negb (mem_string c ["DATE"%string]) && negb (mem_string c ["COMMENT_ID"%string]).

(** The encoding by order of first appearance: the first distinct value of
    the column gets 0, the next new one 1, and so on. *)
Fixpoint first_seen_codes (seen column : list cell) : list cell :=
  match column with
  | [] => []
  | v :: t =>
      match index_of v seen with
      | Some i => Int (Z.of_nat i) :: first_seen_codes seen t
      | None => Int (Z.of_nat (length seen)) :: first_seen_codes (seen ++ [v]) t
      end
  end.



(** Labels over the two classes. *)
Definition binary_labels (y : list cell) : Prop :=
  Forall (fun c => c = Int 0 \/ c = Int 1) y.

(** The number of rows with true label [t] and predicted label [p]. *)
Definition count_both (t p : cell) (y_true y_pred : list cell) : nat :=
  count_pairs (fun tp => cell_eqb (fst tp) t && cell_eqb (snd tp) p)
              y_true y_pred.

(** The number of rows whose prediction is the true label. *)
Definition count_matching (y_true y_pred : list cell) : nat :=
  count_pairs (fun tp => cell_eqb (fst tp) (snd tp)) y_true y_pred.

(** The flags of the rows that are complete and not seen before. *)
Fixpoint first_complete (seen rows : list (list cell)) : list bool :=
  match rows with
  | [] => []
  | r :: t =>
      (negb (existsb isnull r) && negb (existsb (row_eqb r) seen))
      :: first_complete (r :: seen) t
  end.

(** The sum of the numbers in a list of cells. *)
Definition cell_total (r : list cell) : Z :=
  fold_right (fun c acc => match c with
                           | Int z => (z + acc)%Z
                           | _ => acc
                           end) 0%Z r.

(** Every character of a string passes a test. *)
Fixpoint all_chars (f : ascii -> bool) (s : string) : bool :=
  match s with
  | EmptyString => true
  | String c t => f c && all_chars f t
  end.

(** The cells on the diagonal of a square matrix. *)
Definition diagonal (m : list (list nat)) : list nat :=
  map (fun i => nth i (nth i m []) 0) (seq 0 (length m)).

(** ** Sample data *)

Definition raw_columns : list string :=
  ["COMMENT_ID"; "AUTHOR"; "DATE"; "CONTENT"; "VIDEO_NAME"; "CLASS"]%string.

(** Four raw rows: one has no date, one is an exact copy of another. *)
Definition raw_toy : DataFrame :=
  {| index := [0; 1; 2; 3];
     columns := raw_columns;
     values :=
       [ [Str "c1"; Str "bob"; Str "d1"; Str "Buy cheap followers now";
          Str "v1"; Int 1];
         [Str "c2"; Str "alice"; NaN; Str "great video thanks";
          Str "v1"; Int 0];
         [Str "c1"; Str "bob"; Str "d1"; Str "Buy cheap followers now";
          Str "v1"; Int 1];
         [Str "c3"; Str "alice"; Str "d2"; Str "great video thanks";
          Str "v2"; Int 0] ] |}.

(** The same author posts the same comment under the same video twice. *)
Definition raw_reposted : DataFrame :=
  {| index := [0; 1];
     columns := raw_columns;
     values :=
       [ [Str "z12"; Str "bob"; Str "2015-05-01"; Str "check my channel";
          Str "v1"; Int 1];
         [Str "z13"; Str "bob"; Str "2015-05-02"; Str "check my channel";
          Str "v1"; Int 1] ] |}.

(** The author seen first is not the first in alphabetical order. *)
Definition raw_two_authors : DataFrame :=
  {| index := [0; 1];
     columns := raw_columns;
     values :=
       [ [Str "c1"; Str "bob"; Str "d1"; Str "buy cheap followers now";
          Str "v1"; Int 1];
         [Str "c2"; Str "alice"; Str "d2"; Str "great video thanks";
          Str "v1"; Int 0] ] |}.

(** Six comments, three of each class, complete and pairwise distinct. *)
Definition six_comments : DataFrame :=
  {| index := seq 0 6;
     columns := raw_columns;
     values :=
       [ [Str "c1"; Str "u1"; Str "d1"; Str "buy cheap followers now";
          Str "v1"; Int 0];
         [Str "c2"; Str "u2"; Str "d2"; Str "click this link for free prize";
          Str "v1"; Int 0];
         [Str "c3"; Str "u3"; Str "d3"; Str "subscribe and win money";
          Str "v2"; Int 0];
         [Str "c4"; Str "u4"; Str "d4"; Str "great video thanks";
          Str "v1"; Int 1];
         [Str "c5"; Str "u5"; Str "d5"; Str "nice explanation loved it";
          Str "v2"; Int 1];
         [Str "c6"; Str "u6"; Str "d6"; Str "can you make a follow up";
          Str "v2"; Int 1] ] |}.

(** What cleaning makes of [raw_toy]. *)
Definition cleaned_toy : DataFrame :=
  {| index := [0; 1];
     columns := ["AUTHOR"; "CONTENT"; "VIDEO_NAME"; "CLASS"]%string;
     values :=
       [ [Int 1; Str "Buy cheap followers now"; Int 0; Int 1];
         [Int 0; Str "great video thanks"; Int 1; Int 0] ] |}.

(** A store with one table object and nothing printed. *)
Definition store_of (df : DataFrame) : world :=
  {| heap := [df]; stdout := [] |}.

(** Ten vectorized rows, labels 0 to 9. *)
Definition vectorized_ten : DataFrame :=
  {| index := seq 0 10;
     columns := ["AUTHOR"; "CONTENT"; "VIDEO_NAME"; "CLASS"; "buy"]%string;
     values := map (fun i => [Int (Z.of_nat i); Str "buy"; Int 0;
                              Int (Z.of_nat (i mod 2)); Int 1])
                   (seq 0 10) |}.

(** A small generator for examples: its state is a counter, and it permutes
    by rotating [0 .. n-1] by the counter. *)
Definition toy_seed (seed : Z) : nat := Z.to_nat seed.

Definition toy_permutation (g n : nat) : list nat * nat :=
  let k := g mod n in
  (skipn k (seq 0 n) ++ firstn k (seq 0 n), S g).




(** A series with a fresh index. *)
Definition series_of (l : list cell) : Series :=
  {| s_index := seq 0 (length l); s_values := l |}.

(** A raw table without the COMMENT_ID column; one row has no date. *)
Definition raw_without_comment_id : DataFrame :=
  {| index := [0; 1; 2];
     columns := ["AUTHOR"; "DATE"; "CONTENT"; "VIDEO_NAME"; "CLASS"]%string;
     values :=
       [ [Str "bob"; Str "d1"; Str "buy cheap followers now"; Str "v1"; Int 1];
         [Str "alice"; NaN; Str "great video thanks"; Str "v1"; Int 0];
         [Str "carol"; Str "d3"; Str "nice one"; Str "v2"; Int 0] ] |}.

(** A raw table in which one author is a number. *)
Definition raw_numbered_author : DataFrame :=
  {| index := [0; 1];
     columns := raw_columns;
     values :=
       [ [Str "c1"; Str "bob"; Str "d1"; Str "buy cheap followers now";
          Str "v1"; Int 1];
         [Str "c2"; Int 7; Str "d2"; Str "great video thanks";
          Str "v1"; Int 0] ] |}.

(** A raw table in which one video name is a number. *)
Definition raw_numbered_video : DataFrame :=
  {| index := [0; 1];
     columns := raw_columns;
     values :=
       [ [Str "c1"; Str "bob"; Str "d1"; Str "buy cheap followers now";
          Str "v1"; Int 1];
         [Str "c2"; Str "alice"; Str "d2"; Str "great video thanks";
          Int 2; Int 0] ] |}.

(** A cleaned table without rows. *)
Definition cleaned_empty : DataFrame :=
  {| index := [];
     columns := ["AUTHOR"; "CONTENT"; "VIDEO_NAME"; "CLASS"]%string;
     values := [] |}.




(** A raw table in which every row lacks a value, and one with a single
    complete row. *)
Definition raw_all_incomplete : DataFrame :=
  {| index := [0; 1];
     columns := raw_columns;
     values :=
       [ [Str "c1"; Str "bob"; NaN; Str "buy cheap followers now";
          Str "v1"; Int 1];
         [Str "c2"; NaN; Str "d2"; Str "great video thanks";
          Str "v1"; Int 0] ] |}.

Definition raw_one_complete : DataFrame :=
  {| index := [0; 1];
     columns := raw_columns;
     values :=
       [ [Str "c1"; Str "bob"; Str "d1"; Str "buy cheap followers now";
          Str "v1"; Int 1];
         [Str "c2"; NaN; Str "d2"; Str "great video thanks";
          Str "v1"; Int 0] ] |}.

(** * Properties *)

(** A table given by its rows is well formed; labels given one by one are
    over the two classes. *)
Ltac literal_table := split; [reflexivity | repeat constructor].

Ltac literal_labels :=
  unfold binary_labels; repeat (apply Forall_cons; [auto|]); constructor.

(** ** Equality and order of cells *)

Lemma cell_eqb_eq (a b : cell) : cell_eqb a b = true <-> a = b.
Proof.
  destruct a, b; simpl; try (split; congruence).
  - rewrite String.eqb_eq. split; congruence.
  - rewrite Z.eqb_eq. split; congruence.
Qed.

Lemma cell_eqb_refl (a : cell) : cell_eqb a a = true.
Proof. now apply cell_eqb_eq. Qed.

Lemma cell_eqb_neq (a b : cell) : cell_eqb a b = false <-> a <> b.
Proof.
  rewrite <- cell_eqb_eq. destruct (cell_eqb a b); split; congruence.
Qed.

Lemma row_eqb_eq (r1 r2 : list cell) : row_eqb r1 r2 = true <-> r1 = r2.
Proof.
  revert r2. induction r1 as [|a t IH]; intros [|b u]; simpl;
    try (split; congruence).
  rewrite andb_true_iff, cell_eqb_eq, IH. split.
  - intros [-> ->]. reflexivity.
  - intros H. inversion H. auto.
Qed.

Lemma string_compare_eq (s t : string) : String.compare s t = Eq <-> s = t.
Proof. exact (String_as_OT.cmp_eq s t). Qed.

Lemma string_compare_antisym (s t : string) :
  String.compare s t = CompOpp (String.compare t s).
Proof. exact (String_as_OT.cmp_antisym s t). Qed.

Lemma string_compare_trans (s t u : string) :
  String.compare s t = Lt -> String.compare t u = Lt -> String.compare s u = Lt.
Proof.
  intros H1 H2. apply String_as_OT.cmp_lt.
  apply String_as_OT.cmp_lt in H1. apply String_as_OT.cmp_lt in H2.
  exact (String_as_OT.lt_trans _ _ _ H1 H2).
Qed.

Lemma cell_compare_eq (a b : cell) : cell_compare a b = Eq <-> a = b.
Proof.
  destruct a, b; simpl; try (split; congruence).
  - rewrite string_compare_eq. split; congruence.
  - rewrite Z.compare_eq_iff. split; congruence.
Qed.

Lemma cell_compare_antisym (a b : cell) :
  cell_compare a b = CompOpp (cell_compare b a).
Proof.
  destruct a, b; simpl; try reflexivity.
  - apply string_compare_antisym.
  - apply Z.compare_antisym.
Qed.

Lemma cell_compare_trans (a b c : cell) :
  cell_compare a b = Lt -> cell_compare b c = Lt -> cell_compare a c = Lt.
Proof.
  destruct a, b, c; simpl; try congruence.
  - apply string_compare_trans.
  - rewrite !Z.compare_lt_iff. lia.
Qed.

(** ** The ascending list of distinct values *)

Section UniqueFacts.
Variable A : Type.
Variable cmp : A -> A -> comparison.
Hypothesis cmp_eq : forall a b, cmp a b = Eq <-> a = b.
Hypothesis cmp_antisym : forall a b, cmp a b = CompOpp (cmp b a).
Hypothesis cmp_trans :
  forall a b c, cmp a b = Lt -> cmp b c = Lt -> cmp a c = Lt.

#[local] Abbreviation below := (fun a b => cmp a b = Lt).

Lemma cmp_irrefl (a : A) : cmp a a <> Lt.
Proof.
  assert (H : cmp a a = Eq) by now apply cmp_eq.
  congruence.
Qed.

Lemma cmp_gt_lt (a b : A) : cmp a b = Gt -> cmp b a = Lt.
Proof.
  intros H. rewrite cmp_antisym, H. reflexivity.
Qed.

Lemma insert_unique_In (v : A) (l : list A) (x : A) :
  In x (insert_unique cmp v l) <-> x = v \/ In x l.
Proof.
  induction l as [|c t IH]; simpl.
  - intuition.
  - destruct (cmp v c) eqn:E; simpl.
    + apply cmp_eq in E. subst. intuition.
    + intuition.
    + rewrite IH. intuition.
Qed.

Lemma unique_In (l : list A) (x : A) : In x (unique cmp l) <-> In x l.
Proof.
  induction l as [|a t IH]; simpl.
  - tauto.
  - rewrite insert_unique_In, IH. intuition.
Qed.

Lemma insert_unique_sorted (v : A) (l : list A) :
  StronglySorted below l -> StronglySorted below (insert_unique cmp v l).
Proof.
  induction 1 as [|c t Hs IH Hc]; simpl.
  - repeat constructor.
  - destruct (cmp v c) eqn:E.
    + now constructor.
    + constructor; [now constructor|].
      constructor; [exact E|].
      rewrite Forall_forall in *. intros x Hx.
      apply (cmp_trans E). now apply Hc.
    + constructor; [exact IH|].
      rewrite Forall_forall in *. intros x Hx.
      apply insert_unique_In in Hx. destruct Hx as [->|Hx].
      * now apply cmp_gt_lt.
      * now apply Hc.
Qed.

Lemma unique_sorted (l : list A) : StronglySorted below (unique cmp l).
Proof.
  induction l as [|a t IH]; simpl.
  - constructor.
  - now apply insert_unique_sorted.
Qed.

Lemma sorted_NoDup (l : list A) : StronglySorted below l -> NoDup l.
Proof.
  induction 1 as [|c t Hs IH Hc]; constructor; [|exact IH].
  intros Hin. rewrite Forall_forall in Hc.
  exact (cmp_irrefl (Hc _ Hin)).
Qed.

Lemma sorted_ext (l1 l2 : list A) :
  StronglySorted below l1 -> StronglySorted below l2 ->
  (forall x, In x l1 <-> In x l2) -> l1 = l2.
Proof.
  intros H1. revert l2.
  induction H1 as [|a t Hs IH Ha]; intros l2 H2 Hext.
  - destruct l2 as [|b u]; [reflexivity|].
    destruct (proj2 (Hext b)). now left.
  - destruct H2 as [|b u Hu Hb].
    + destruct (proj1 (Hext a)). now left.
    + rewrite Forall_forall in Ha, Hb.
      assert (Hab : a = b).
      { destruct (proj1 (Hext a) (or_introl eq_refl)) as [E|Hin]; [now symmetry|].
        destruct (proj2 (Hext b) (or_introl eq_refl)) as [E|Hin']; [exact E|].
        exfalso. apply (@cmp_irrefl a).
        apply (cmp_trans (Ha _ Hin') (Hb _ Hin)). }
      subst b. f_equal. apply IH; [exact Hu|].
      intros x. split; intros Hx.
      * destruct (proj1 (Hext x) (or_intror Hx)) as [E|Hin]; [|exact Hin].
        subst x. destruct (cmp_irrefl (Ha _ Hx)).
      * destruct (proj2 (Hext x) (or_intror Hx)) as [E|Hin]; [|exact Hin].
        subst x. destruct (cmp_irrefl (Hb _ Hx)).
Qed.

Lemma unique_NoDup (l : list A) : NoDup (unique cmp l).
Proof. apply sorted_NoDup, unique_sorted. Qed.

End UniqueFacts.

Lemma unique_cells_In (l : list cell) (x : cell) :
  In x (unique cell_compare l) <-> In x l.
Proof. apply unique_In, cell_compare_eq. Qed.

Lemma unique_cells_sorted (l : list cell) :
  StronglySorted (fun a b => cell_compare a b = Lt) (unique cell_compare l).
Proof.
  apply unique_sorted;
    [apply cell_compare_eq|apply cell_compare_antisym|apply cell_compare_trans].
Qed.

Lemma unique_cells_NoDup (l : list cell) : NoDup (unique cell_compare l).
Proof.
  apply unique_NoDup;
    [apply cell_compare_eq|apply cell_compare_antisym|apply cell_compare_trans].
Qed.

(** ** [LabelEncoder]: a value's code is its rank *)

Lemma mapM_ok_map {A B} (f : A -> result B) (g : A -> B) (l : list A) :
  (forall x, In x l -> f x = ok (g x)) -> mapM f l = ok (map g l).
Proof.
  induction l as [|a t IH]; intros H; simpl.
  - reflexivity.
  - rewrite (H a (or_introl eq_refl)). simpl.
    rewrite IH by (intros x Hx; apply H; now right). reflexivity.
Qed.

Lemma filter_nil_of_Forall {A} (f : A -> bool) (l : list A) :
  Forall (fun x => f x = false) l -> filter f l = [].
Proof.
  induction 1 as [|x t Hx _ IH]; simpl; [reflexivity|].
  now rewrite Hx.
Qed.

Lemma cell_ltb_lt (a b : cell) : cell_ltb a b = true <-> cell_compare a b = Lt.
Proof.
  unfold cell_ltb. destruct (cell_compare a b); split; congruence.
Qed.

Lemma cell_ltb_irrefl (a : cell) : cell_ltb a a = false.
Proof.
  unfold cell_ltb. now rewrite (proj2 (cell_compare_eq a a) eq_refl).
Qed.

Lemma cell_ltb_asym (a b : cell) : cell_ltb a b = true -> cell_ltb b a = false.
Proof.
  unfold cell_ltb. rewrite (cell_compare_antisym b a).
  destruct (cell_compare a b); simpl; congruence.
Qed.

(** In an ascending list a member sits at the position that counts the
    members below it. *)
Lemma index_of_sorted (v : cell) (l : list cell) :
  StronglySorted (fun a b => cell_compare a b = Lt) l -> In v l ->
  index_of v l = Some (length (filter (fun c => cell_ltb c v) l)).
Proof.
  induction 1 as [|c t Hs IH Hc]; intros Hin; [destruct Hin|].
  simpl. destruct (cell_eqb v c) eqn:E.
  - apply cell_eqb_eq in E. subst c. rewrite cell_ltb_irrefl.
    rewrite filter_nil_of_Forall; [reflexivity|].
    eapply Forall_impl; [|exact Hc]. simpl. intros x Hx.
    apply cell_ltb_asym. now apply cell_ltb_lt.
  - apply cell_eqb_neq in E.
    destruct Hin as [->|Hin]; [congruence|].
    rewrite Forall_forall in Hc.
    rewrite (proj2 (cell_ltb_lt c v) (Hc _ Hin)). simpl.
    rewrite (IH Hin). reflexivity.
Qed.

Lemma rank_unique (v : cell) (l : list cell) :
  length (filter (fun c => cell_ltb c v) (unique cell_compare l)) = rank v l.
Proof.
  unfold rank. apply Permutation_length, NoDup_Permutation.
  - apply NoDup_filter, unique_cells_NoDup.
  - apply NoDup_nodup.
  - intros x. rewrite nodup_In, !filter_In, unique_cells_In. tauto.
Qed.

Lemma index_of_unique (v : cell) (l : list cell) :
  In v l -> index_of v (unique cell_compare l) = Some (rank v l).
Proof.
  intros Hin. rewrite index_of_sorted.
  - now rewrite rank_unique.
  - apply unique_cells_sorted.
  - now apply unique_cells_In.
Qed.

(** What [fit_transform] returns: every value replaced by its rank among the
    distinct values of the column, whatever the encoder held before. *)
Lemma fit_transform_rank (le : LabelEncoder) (y : list cell) :
  mixed y = false ->
  fit_transform le y =
  ok (map (fun v => Int (Z.of_nat (rank v y))) y,
      {| classes_ := Some (unique cell_compare y) |}).
Proof.
  intros Hm. unfold fit_transform, fit. rewrite Hm. simpl.
  unfold transform. simpl.
  rewrite (@mapM_ok_map _ _ _ (fun v => Int (Z.of_nat (rank v y)))).
  - reflexivity.
  - intros x Hx. now rewrite index_of_unique.
Qed.

Lemma fit_transform_mixed (le : LabelEncoder) (y : list cell) :
  mixed y = true -> fit_transform le y = raise TypeError.
Proof.
  intros Hm. unfold fit_transform, fit. now rewrite Hm.
Qed.

Lemma fit_transform_inv (le le' : LabelEncoder) (y codes : list cell) :
  fit_transform le y = ok (codes, le') ->
  mixed y = false /\ codes = map (fun v => Int (Z.of_nat (rank v y))) y.
Proof.
  destruct (mixed y) eqn:Hm.
  - rewrite fit_transform_mixed by exact Hm. discriminate.
  - rewrite fit_transform_rank by exact Hm. intros H. inversion H. auto.
Qed.

(** Ranks are below the number of distinct values, and every number below
    that is the rank of some value: the codes are dense. *)
Lemma rank_lt_distinct (v : cell) (l : list cell) :
  In v l -> rank v l < distinct l.
Proof.
  intros Hin. unfold rank, distinct.
  assert (Hincl : incl (v :: nodup cell_eq_dec (filter (fun c => cell_ltb c v) l))
                       (nodup cell_eq_dec l)).
  { intros x [<-|Hx].
    - now apply nodup_In.
    - apply nodup_In in Hx. apply filter_In in Hx. now apply nodup_In. }
  apply NoDup_incl_length in Hincl; [simpl in Hincl; lia|].
  constructor; [|apply NoDup_nodup].
  rewrite nodup_In, filter_In, cell_ltb_irrefl. intros [_ H]. discriminate.
Qed.

Lemma distinct_unique (l : list cell) :
  length (unique cell_compare l) = distinct l.
Proof.
  unfold distinct. apply Permutation_length, NoDup_Permutation.
  - apply unique_cells_NoDup.
  - apply NoDup_nodup.
  - intros x. now rewrite nodup_In, unique_cells_In.
Qed.

Lemma index_of_nth (l : list cell) (j : nat) :
  NoDup l -> j < length l -> index_of (nth j l NaN) l = Some j.
Proof.
  revert j. induction l as [|c t IH]; intros j Hnd Hj; [simpl in Hj; lia|].
  inversion Hnd as [|? ? Hnotin Hnd']; subst.
  destruct j as [|j]; simpl.
  - now rewrite cell_eqb_refl.
  - simpl in Hj. destruct (cell_eqb (nth j t NaN) c) eqn:E.
    + apply cell_eqb_eq in E. subst c. destruct Hnotin. apply nth_In. lia.
    + rewrite IH by (auto; lia). reflexivity.
Qed.

Lemma rank_dense (l : list cell) (j : nat) :
  j < distinct l -> exists v, In v l /\ rank v l = j.
Proof.
  intros Hj. rewrite <- distinct_unique in Hj.
  exists (nth j (unique cell_compare l) NaN).
  assert (Hin : In (nth j (unique cell_compare l) NaN) l).
  { apply unique_cells_In, nth_In, Hj. }
  split; [exact Hin|].
  pose proof (index_of_unique _ _ Hin) as H.
  rewrite index_of_nth in H by (auto using unique_cells_NoDup).
  congruence.
Qed.

(** ** Masks, positions and cells of a row *)

Lemma select_map_filter {A} (f : A -> bool) (l : list A) :
  select (map f l) l = filter f l.
Proof.
  induction l as [|a t IH]; simpl; [reflexivity|].
  destruct (f a); now rewrite IH.
Qed.

Lemma select_length_le {A} (m : list bool) (l : list A) :
  length (select m l) <= length l.
Proof.
  revert l. induction m as [|b m IH]; intros [|x t]; simpl; try lia.
  destruct b; simpl; specialize (IH t); lia.
Qed.

Lemma select_In {A} (m : list bool) (l : list A) (x : A) :
  In x (select m l) -> In x l.
Proof.
  revert l. induction m as [|b m IH]; intros [|y t]; simpl; try tauto.
  destruct b; simpl; intros H.
  - destruct H as [H|H]; [now left|right; now apply IH].
  - right. now apply IH.
Qed.

Lemma select_same_length {A B} (m : list bool) (l1 : list A) (l2 : list B) :
  length l1 = length l2 -> length (select m l1) = length (select m l2).
Proof.
  revert l1 l2. induction m as [|b m IH]; intros [|x t] [|y u] H; simpl in *;
    try reflexivity; try discriminate.
  destruct b; simpl; rewrite (IH t u) by lia; reflexivity.
Qed.

Lemma select_all {A} (m : list bool) (l : list A) :
  existsb (fun b => b) m = false -> length l <= length m ->
  select (map negb m) l = l.
Proof.
  revert l. induction m as [|b m IH]; intros [|x t]; simpl; try reflexivity.
  - lia.
  - destruct b; simpl; [discriminate|].
    intros H Hl. rewrite IH by (auto; lia). reflexivity.
Qed.

Lemma any_map {A} (f : A -> bool) (l : list A) :
  any (map f l) = existsb f l.
Proof.
  unfold any. induction l as [|a t IH]; simpl; [reflexivity|].
  now rewrite IH.
Qed.

Lemma existsb_false_Forall {A} (f : A -> bool) (l : list A) :
  existsb f l = false <-> Forall (fun x => f x = false) l.
Proof.
  induction l as [|a t IH]; simpl.
  - split; [constructor|reflexivity].
  - rewrite orb_false_iff, IH. split.
    + intros [H1 H2]. now constructor.
    + intros H. inversion H. auto.
Qed.

Lemma replace_nth_length {A} (p : nat) (x : A) (l : list A) :
  length (replace_nth p x l) = length l.
Proof.
  revert p. induction l as [|a t IH]; intros [|p]; simpl; try reflexivity.
  now rewrite IH.
Qed.

Lemma nth_replace_nth_eq {A} (p : nat) (x d : A) (l : list A) :
  p < length l -> nth p (replace_nth p x l) d = x.
Proof.
  revert p. induction l as [|a t IH]; intros [|p] H; simpl in *; try lia.
  - reflexivity.
  - apply IH. lia.
Qed.

Lemma nth_replace_nth_neq {A} (p q : nat) (x d : A) (l : list A) :
  p <> q -> nth q (replace_nth p x l) d = nth q l d.
Proof.
  revert p q. induction l as [|a t IH]; intros [|p] [|q] H; simpl; try reflexivity.
  - congruence.
  - apply IH. congruence.
Qed.

Lemma replace_nth_same {A} (p : nat) (d : A) (l : list A) :
  replace_nth p (nth p l d) l = l.
Proof.
  revert p. induction l as [|a t IH]; intros [|p]; simpl; try reflexivity.
  now rewrite IH.
Qed.

Lemma replace_nth_In {A} (p : nat) (x : A) (l : list A) (y : A) :
  In y (replace_nth p x l) -> y = x \/ In y l.
Proof.
  revert p. induction l as [|a t IH]; intros [|p]; simpl; try tauto.
  - intuition.
  - intros [H|H]; [now right; left|].
    destruct (IH _ H); auto.
Qed.

Lemma nth_error_replace_nth_eq {A} (p : nat) (x : A) (l : list A) :
  p < length l -> nth_error (replace_nth p x l) p = Some x.
Proof.
  revert p. induction l as [|a t IH]; intros [|p] H; simpl in *; try lia.
  - reflexivity.
  - apply IH. lia.
Qed.

Lemma nth_error_replace_nth_neq {A} (p q : nat) (x : A) (l : list A) :
  p <> q -> nth_error (replace_nth p x l) q = nth_error l q.
Proof.
  revert p q. induction l as [|a t IH]; intros [|p] [|q] H; simpl; try reflexivity.
  - congruence.
  - apply IH. congruence.
Qed.

Lemma replace_nth_twice {A} (p : nat) (x y : A) (l : list A) :
  replace_nth p y (replace_nth p x l) = replace_nth p y l.
Proof.
  revert p. induction l as [|a t IH]; intros [|p]; simpl; try reflexivity.
  now rewrite IH.
Qed.

Lemma replace_nth_found {A} (p : nat) (x : A) (l : list A) :
  nth_error l p = Some x -> replace_nth p x l = l.
Proof.
  revert p. induction l as [|a t IH]; intros [|p]; simpl; try reflexivity.
  - intros H. congruence.
  - intros H. now rewrite IH.
Qed.

Lemma mem_string_In (s : string) (l : list string) :
  mem_string s l = true <-> In s l.
Proof.
  unfold mem_string. rewrite existsb_exists. split.
  - intros [x [Hx E]]. apply String.eqb_eq in E. now subst.
  - intros H. exists s. split; [exact H|apply String.eqb_refl].
Qed.

Lemma mem_string_not_In (s : string) (l : list string) :
  mem_string s l = false <-> ~ In s l.
Proof.
  rewrite <- mem_string_In. destruct (mem_string s l); split; congruence.
Qed.

Lemma position_Some (name : string) (cols : list string) (p : nat) :
  position name cols = Some p ->
  p < length cols /\ nth p cols EmptyString = name.
Proof.
  revert p. induction cols as [|c t IH]; intros p; simpl; [discriminate|].
  destruct (String.eqb name c) eqn:E.
  - intros H. inversion H. apply String.eqb_eq in E. split; [lia|now subst].
  - destruct (position name t) as [q|]; simpl; [|discriminate].
    intros H. inversion H. destruct (IH q eq_refl). split; [lia|assumption].
Qed.

Lemma position_In (name : string) (cols : list string) :
  In name cols -> exists p, position name cols = Some p.
Proof.
  induction cols as [|c t IH]; intros H; [destruct H|]. simpl.
  destruct (String.eqb name c) eqn:E; [now exists 0|].
  destruct H as [H|H].
  - subst. rewrite String.eqb_refl in E. discriminate.
  - destruct (IH H) as [p Hp]. exists (S p). now rewrite Hp.
Qed.

Lemma position_inj (n1 n2 : string) (cols : list string) (p : nat) :
  position n1 cols = Some p -> position n2 cols = Some p -> n1 = n2.
Proof.
  intros H1 H2. apply position_Some in H1, H2.
  destruct H1 as [_ <-], H2 as [_ <-]. reflexivity.
Qed.

(** Removing other columns moves a column to a position that holds the same
    cell in every row. *)
Lemma position_select (name : string) (f : string -> bool)
    (cols : list string) (p : nat) :
  position name cols = Some p -> f name = true ->
  exists q, position name (select (map f cols) cols) = Some q /\
    forall r : list cell, length r = length cols ->
      nth q (select (map f cols) r) NaN = nth p r NaN.
Proof.
  revert p. induction cols as [|c t IH]; intros p; simpl; [discriminate|].
  destruct (String.eqb name c) eqn:E.
  - intros H Hf. inversion H. subst p. apply String.eqb_eq in E. subst c.
    rewrite Hf. simpl. rewrite String.eqb_refl. exists 0. split; [reflexivity|].
    intros [|x r] Hr; [discriminate|reflexivity].
  - destruct (position name t) as [q|] eqn:Hq; simpl; [|discriminate].
    intros H Hf. inversion H. subst p.
    destruct (IH q eq_refl Hf) as [q' [Hq' Hnth]].
    destruct (f c); simpl.
    + rewrite E, Hq'. simpl. exists (S q'). split; [reflexivity|].
      intros [|x r] Hr; [discriminate|]. simpl. apply Hnth.
      simpl in Hr. lia.
    + exists q'. split; [exact Hq'|].
      intros [|x r] Hr; [discriminate|]. simpl. apply Hnth.
      simpl in Hr. lia.
Qed.

(** ** The two removal steps *)

Lemma well_formed_loc_mask (df : DataFrame) (m : list bool) :
  well_formed df -> well_formed (loc_mask df m).
Proof.
  intros [Hi Hr]. split; simpl.
  - now apply select_same_length.
  - rewrite Forall_forall in *. intros r Hin. apply Hr.
    eapply select_In, Hin.
Qed.

Lemma well_formed_retained (df : DataFrame) :
  well_formed df -> well_formed (retained df).
Proof.
  intros H. unfold retained, without_duplicates, without_nulls.
  destruct (any (isnull_any_axis1 df));
    destruct (any (duplicated _)); unfold drop_duplicates, dropna;
    auto using well_formed_loc_mask.
Qed.

Lemma retained_columns (df : DataFrame) : columns (retained df) = columns df.
Proof.
  unfold retained, without_duplicates, without_nulls.
  destruct (any (isnull_any_axis1 df)); destruct (any (duplicated _)); reflexivity.
Qed.

Lemma without_nulls_incl (df : DataFrame) (r : list cell) :
  In r (values (without_nulls df)) -> In r (values df).
Proof.
  unfold without_nulls. destruct (any (isnull_any_axis1 df)); [|auto].
  simpl. apply select_In.
Qed.

Lemma without_duplicates_incl (df : DataFrame) (r : list cell) :
  In r (values (without_duplicates df)) -> In r (values df).
Proof.
  unfold without_duplicates. destruct (any (duplicated df)); [|auto].
  simpl. apply select_In.
Qed.

Lemma retained_incl (df : DataFrame) (r : list cell) :
  In r (values (retained df)) -> In r (values df).
Proof.
  intros H. now apply without_nulls_incl, without_duplicates_incl.
Qed.

Lemma without_nulls_nrows (df : DataFrame) :
  nrows (without_nulls df) <= nrows df.
Proof.
  unfold without_nulls, nrows. destruct (any (isnull_any_axis1 df)); [|lia].
  simpl. apply select_length_le.
Qed.

Lemma without_duplicates_nrows (df : DataFrame) :
  nrows (without_duplicates df) <= nrows df.
Proof.
  unfold without_duplicates, nrows. destruct (any (duplicated df)); [|lia].
  simpl. apply select_length_le.
Qed.

Lemma retained_nrows (df : DataFrame) : nrows (retained df) <= nrows df.
Proof.
  unfold retained.
  pose proof (without_duplicates_nrows (without_nulls df)).
  pose proof (without_nulls_nrows df). lia.
Qed.

Lemma without_nulls_complete (df : DataFrame) :
  Forall (fun r => existsb isnull r = false) (values (without_nulls df)).
Proof.
  unfold without_nulls. destruct (any (isnull_any_axis1 df)) eqn:E.
  - simpl. unfold isnull_any_axis1. rewrite map_map, select_map_filter.
    apply Forall_forall. intros r Hr. apply filter_In in Hr.
    destruct Hr as [_ Hr]. now apply negb_true_iff.
  - unfold isnull_any_axis1 in E. rewrite any_map in E.
    now apply existsb_false_Forall.
Qed.

Lemma retained_complete (df : DataFrame) :
  Forall (fun r => existsb isnull r = false) (values (retained df)).
Proof.
  apply Forall_forall. intros r Hr. unfold retained in Hr.
  apply without_duplicates_incl in Hr.
  pose proof (without_nulls_complete df) as H.
  rewrite Forall_forall in H. now apply H.
Qed.

Lemma duplicated_from_length (seen rows : list (list cell)) :
  length (duplicated_from seen rows) = length rows.
Proof.
  revert seen. induction rows as [|r t IH]; intros seen; simpl; [reflexivity|].
  now rewrite IH.
Qed.

Lemma existsb_row_eqb (r : list cell) (seen : list (list cell)) :
  existsb (row_eqb r) seen = true <-> In r seen.
Proof.
  rewrite existsb_exists. split.
  - intros [x [Hx E]]. apply row_eqb_eq in E. now subst.
  - intros H. exists r. split; [exact H|now apply row_eqb_eq].
Qed.

(** The rows that are not flagged are pairwise distinct, and none of them
    was seen before. *)
Lemma drop_flagged_NoDup (seen rows : list (list cell)) :
  NoDup (select (map negb (duplicated_from seen rows)) rows) /\
  forall r, In r (select (map negb (duplicated_from seen rows)) rows) ->
            ~ In r seen.
Proof.
  revert seen. induction rows as [|r t IH]; intros seen; simpl.
  - split; [constructor|tauto].
  - destruct (IH (r :: seen)) as [Hnd Hseen].
    destruct (existsb (row_eqb r) seen) eqn:E; simpl.
    + split; [exact Hnd|]. intros x Hx Hin.
      apply (Hseen x Hx). now right.
    + split.
      * constructor; [|exact Hnd]. intros Hin.
        apply (Hseen r Hin). now left.
      * intros x [<-|Hx] Hin.
        -- apply existsb_row_eqb in Hin. congruence.
        -- apply (Hseen x Hx). now right.
Qed.

Lemma without_duplicates_NoDup (df : DataFrame) :
  NoDup (values (without_duplicates df)).
Proof.
  unfold without_duplicates. destruct (any (duplicated df)) eqn:E.
  - simpl. apply drop_flagged_NoDup.
  - pose proof (proj1 (drop_flagged_NoDup [] (values df))) as H.
    unfold any, duplicated in E. rewrite select_all in H; auto.
    rewrite duplicated_from_length. lia.
Qed.

Lemma retained_NoDup (df : DataFrame) : NoDup (values (retained df)).
Proof. apply without_duplicates_NoDup. Qed.

(** Rows that are pairwise distinct are not flagged. *)
Lemma duplicated_from_NoDup (seen rows : list (list cell)) :
  NoDup rows -> (forall r, In r rows -> ~ In r seen) ->
  existsb (fun b => b) (duplicated_from seen rows) = false.
Proof.
  revert seen. induction rows as [|r t IH]; intros seen Hnd Hseen; simpl.
  - reflexivity.
  - inversion Hnd as [|? ? Hnotin Hnd']; subst.
    destruct (existsb (row_eqb r) seen) eqn:E; simpl.
    + apply existsb_row_eqb in E. destruct (Hseen r); simpl; auto.
    + apply IH; [exact Hnd'|].
      intros x Hx [<-|Hin]; [contradiction|].
      apply (Hseen x); simpl; auto.
Qed.

Lemma duplicated_NoDup (df : DataFrame) :
  NoDup (values df) -> any (duplicated df) = false.
Proof.
  intros H. apply duplicated_from_NoDup; auto.
Qed.


Lemma select_complement_length {A} (m : list bool) (l : list A) :
  length m = length l ->
  length (select m l) + length (select (map negb m) l) = length l.
Proof.
  revert l. induction m as [|b m IH]; intros [|x t] H; simpl in *;
    try reflexivity; try discriminate.
  destruct b; simpl; specialize (IH t); lia.
Qed.

(** The two lines that may be printed report the numbers of rows that the
    two steps remove. *)
Lemma missing_values_lines_count (df : DataFrame) :
  missing_values_lines df = [] \/
  missing_values_lines df =
    [("Found " ++ str_of_nat (nrows df - nrows (without_nulls df))
      ++ " rows with null values.. Removing them...")%string].
Proof.
  unfold missing_values_lines, without_nulls.
  destruct (any (isnull_any_axis1 df)); [right|now left].
  repeat f_equal. unfold nrows, dropna, loc_mask. simpl.
  pose proof (select_complement_length (isnull_any_axis1 df) (values df)) as H.
  unfold isnull_any_axis1 in H at 1. rewrite length_map in H.
  specialize (H eq_refl). lia.
Qed.

Lemma duplicates_lines_count (df : DataFrame) :
  duplicates_lines df = [] \/
  duplicates_lines df =
    [("Found " ++ str_of_nat (nrows df - nrows (without_duplicates df))
      ++ " duplicate rows.. Removing them...")%string].
Proof.
  unfold duplicates_lines, without_duplicates.
  destruct (any (duplicated df)); [right|now left].
  repeat f_equal. unfold nrows, drop_duplicates, loc_mask. simpl.
  pose proof (select_complement_length (duplicated df) (values df)) as H.
  unfold duplicated in H at 1. rewrite duplicated_from_length in H.
  specialize (H eq_refl). lia.
Qed.

(** ** The table that cleaning leaves, written out *)

Lemma combine_map_self {A B} (g : A -> B) (l : list A) :
  combine (map g l) l = map (fun x => (g x, x)) l.
Proof. induction l; simpl; congruence. Qed.

Lemma setitem_present (df : DataFrame) (name : string) (p : nat)
    (g : list cell -> cell) :
  position name (columns df) = Some p ->
  setitem df name (map g (values df)) =
  ok {| index := index df; columns := columns df;
        values := map (fun r => replace_nth p (g r) r) (values df) |}.
Proof.
  intros H. unfold setitem, nrows. rewrite length_map, Nat.eqb_refl, H. simpl.
  rewrite combine_map_self, map_map. reflexivity.
Qed.

Lemma drop_columns_present (df : DataFrame) (name : string) :
  In name (columns df) ->
  drop_columns df [name] =
  ok {| index := index df;
        columns := select (keep_but [name] (columns df)) (columns df);
        values := map (select (keep_but [name] (columns df))) (values df) |}.
Proof.
  intros H. unfold drop_columns. simpl.
  rewrite (proj2 (mem_string_In _ _) H). reflexivity.
Qed.

Lemma drop_columns_absent (df : DataFrame) (name : string) :
  ~ In name (columns df) -> drop_columns df [name] = raise (KeyError [name]).
Proof.
  intros H. unfold drop_columns. simpl.
  rewrite (proj2 (mem_string_not_In _ _) H). reflexivity.
Qed.

Lemma keep_but_In (labels cols : list string) (c : string) :
  In c (select (keep_but labels cols) cols) <-> In c cols /\ ~ In c labels.
Proof.
  unfold keep_but. rewrite select_map_filter, filter_In, negb_true_iff.
  now rewrite mem_string_not_In.
Qed.

Lemma combine_map_map {A B C} (g : A -> B) (h : A -> C) (l : list A) :
  combine (map g l) (map h l) = map (fun x => (g x, h x)) l.
Proof. induction l; simpl; congruence. Qed.

Lemma setitem_map {X} (idx : list nat) (cols : list string) (name : string)
    (p : nat) (rows : list X) (h : X -> list cell) (g : X -> cell) :
  position name cols = Some p ->
  setitem {| index := idx; columns := cols; values := map h rows |} name
          (map g rows) =
  ok {| index := idx; columns := cols;
        values := map (fun r => replace_nth p (g r) (h r)) rows |}.
Proof.
  intros H. unfold setitem, nrows. simpl.
  rewrite !length_map, Nat.eqb_refl, H. simpl.
  rewrite combine_map_map, map_map. reflexivity.
Qed.

(** The two encoding steps on a table that holds AUTHOR at [pA] and
    VIDEO_NAME at [pV]. *)
Lemma encoded_unfold (d : DataFrame) :
  encoded d =
  match position "AUTHOR" (columns d) with
  | None => raise (KeyError ["AUTHOR"%string])
  | Some pA =>
      if mixed (map (fun r => nth pA r NaN) (values d))
      then raise TypeError
      else
        match position "VIDEO_NAME" (columns d) with
        | None => raise (KeyError ["VIDEO_NAME"%string])
        | Some pV =>
            if mixed (map (fun r => nth pV r NaN) (values d))
            then raise TypeError
            else ok {| index := index d;
                       columns := columns d;
                       values :=
                         map (encode_row pA pV
                                (map (fun r => nth pA r NaN) (values d))
                                (map (fun r => nth pV r NaN) (values d)))
                             (values d) |}
        end
  end.
Proof.
  unfold encoded, getitem.
  destruct (position "AUTHOR" (columns d)) as [pA|] eqn:HA; [|reflexivity].
  simpl.
  destruct (mixed (map (fun r => nth pA r NaN) (values d))) eqn:HmA.
  { now rewrite fit_transform_mixed. }
  rewrite fit_transform_rank by exact HmA. simpl. rewrite map_map.
  rewrite (@setitem_present _ _ pA) by exact HA. simpl.
  destruct (position "VIDEO_NAME" (columns d)) as [pV|] eqn:HV; [|reflexivity].
  simpl. rewrite map_map.
  assert (Hne : pA <> pV).
  { intros ->. pose proof (position_inj _ _ _ HA HV). discriminate. }
  erewrite (map_ext (fun r => nth pV (replace_nth pA _ r) NaN))
    by (intros r; apply nth_replace_nth_neq, Hne).
  destruct (mixed (map (fun r => nth pV r NaN) (values d))) eqn:HmV.
  { now rewrite fit_transform_mixed. }
  rewrite fit_transform_rank by exact HmV. simpl. rewrite map_map.
  rewrite (@setitem_map _ _ _ _ pV) by exact HV. reflexivity.
Qed.

Lemma cleaned_unfold (df : DataFrame) :
  cleaned df =
  match position "AUTHOR" (columns df) with
  | None => raise (KeyError ["AUTHOR"%string])
  | Some pA =>
      if mixed (map (fun r => nth pA r NaN) (values (retained df)))
      then raise TypeError
      else
        match position "VIDEO_NAME" (columns df) with
        | None => raise (KeyError ["VIDEO_NAME"%string])
        | Some pV =>
            if mixed (map (fun r => nth pV r NaN) (values (retained df)))
            then raise TypeError
            else if negb (mem_string "DATE" (columns df))
            then raise (KeyError ["DATE"%string])
            else if negb (mem_string "COMMENT_ID" (columns df))
            then raise (KeyError ["COMMENT_ID"%string])
            else ok (cleaned_form df pA pV)
        end
  end.
Proof.
  unfold cleaned. rewrite encoded_unfold, retained_columns.
  destruct (position "AUTHOR" (columns df)) as [pA|] eqn:HA; [|reflexivity].
  destruct (mixed (map (fun r => nth pA r NaN) (values (retained df))));
    [reflexivity|].
  destruct (position "VIDEO_NAME" (columns df)) as [pV|] eqn:HV; [|reflexivity].
  destruct (mixed (map (fun r => nth pV r NaN) (values (retained df))));
    [reflexivity|].
  simpl.
  destruct (mem_string "DATE" (columns df)) eqn:HD; simpl.
  2:{ apply mem_string_not_In in HD.
      now rewrite drop_columns_absent by exact HD. }
  apply mem_string_In in HD.
  rewrite drop_columns_present by exact HD. simpl.
  destruct (mem_string "COMMENT_ID" (columns df)) eqn:HC; simpl.
  2:{ apply mem_string_not_In in HC.
      rewrite drop_columns_absent; [reflexivity|].
      simpl. rewrite keep_but_In. tauto. }
  apply mem_string_In in HC.
  rewrite drop_columns_present
    by (simpl; apply keep_but_In; split; [exact HC|simpl; intuition discriminate]).
  simpl. unfold cleaned_form, reset_index, nrows. simpl.
  rewrite !map_map, length_map. reflexivity.
Qed.

Lemma cleaned_inv (df out : DataFrame) :
  cleaned df = ok out ->
  exists pA pV,
    position "AUTHOR" (columns df) = Some pA /\
    position "VIDEO_NAME" (columns df) = Some pV /\
    mixed (map (fun r => nth pA r NaN) (values (retained df))) = false /\
    mixed (map (fun r => nth pV r NaN) (values (retained df))) = false /\
    In "DATE"%string (columns df) /\ In "COMMENT_ID"%string (columns df) /\
    out = cleaned_form df pA pV.
Proof.
  rewrite cleaned_unfold.
  destruct (position "AUTHOR" (columns df)) as [pA|]; [|discriminate].
  destruct (mixed _) eqn:HmA; [discriminate|].
  destruct (position "VIDEO_NAME" (columns df)) as [pV|]; [|discriminate].
  destruct (mixed (map (fun r => nth pV r NaN) _)) eqn:HmV; [discriminate|].
  destruct (mem_string "DATE" (columns df)) eqn:HD; [|discriminate].
  destruct (mem_string "COMMENT_ID" (columns df)) eqn:HC; [|discriminate].
  simpl. intros H. inversion H.
  exists pA, pV. rewrite <- !mem_string_In. auto 10.
Qed.


(** ** Running the in-place operations

    Every step is stated for a store in which the object at [l] holds [x]. *)

Lemma bind_bind {A B C} (m : M A) (f : A -> M B) (g : B -> M C) (w : world) :
  bind (bind m f) g w = bind m (fun a => bind (f a) g) w.
Proof.
  unfold bind. destruct (m w) as [[a|e] w']; reflexivity.
Qed.

Lemma bind_ret {A B} (a : A) (k : A -> M B) (w : world) :
  bind (ret a) k w = k a w.
Proof. reflexivity. Qed.

Lemma bind_lift {A B} (r : result A) (k : A -> M B) (w : world) :
  bind (lift r) k w =
  match r with
  | inl a => k a w
  | inr e => (inr e, w)
  end.
Proof. unfold bind, lift. destruct r; reflexivity. Qed.

Section Steps.
Variable l : loc.
Variable h : list DataFrame.
Hypothesis l_bound : l < length h.

Lemma bind_print {B} (line : string) (k : unit -> M B) (x : DataFrame)
    (o : list string) :
  bind (print line) k (at_loc l h x o) = k tt (at_loc l h x (o ++ [line])).
Proof. reflexivity. Qed.

Lemma bind_deref {B} (k : DataFrame -> M B) (x : DataFrame) (o : list string) :
  bind (deref l) k (at_loc l h x o) = k x (at_loc l h x o).
Proof.
  unfold bind, deref, at_loc. simpl.
  now rewrite nth_error_replace_nth_eq by exact l_bound.
Qed.

Lemma bind_assign {B} (k : unit -> M B) (x y : DataFrame) (o : list string) :
  bind (assign l y) k (at_loc l h x o) = k tt (at_loc l h y o).
Proof.
  unfold bind, assign, at_loc. simpl. now rewrite replace_nth_twice.
Qed.

Lemma bind_dropna_inplace {B} (k : unit -> M B) (x : DataFrame) (o : list string) :
  bind (dropna_inplace l) k (at_loc l h x o) = k tt (at_loc l h (dropna x) o).
Proof.
  unfold dropna_inplace. now rewrite bind_bind, bind_deref, bind_assign.
Qed.

Lemma bind_drop_duplicates_inplace {B} (k : unit -> M B) (x : DataFrame)
    (o : list string) :
  bind (drop_duplicates_inplace l) k (at_loc l h x o) =
  k tt (at_loc l h (drop_duplicates x) o).
Proof.
  unfold drop_duplicates_inplace. now rewrite bind_bind, bind_deref, bind_assign.
Qed.

Lemma bind_reset_index_inplace {B} (k : unit -> M B) (x : DataFrame)
    (o : list string) :
  bind (reset_index_inplace l) k (at_loc l h x o) =
  k tt (at_loc l h (reset_index x) o).
Proof.
  unfold reset_index_inplace. now rewrite bind_bind, bind_deref, bind_assign.
Qed.

Lemma bind_getitem_at {B} (name : string) (k : Series -> M B) (x : DataFrame)
    (o : list string) :
  bind (getitem_at l name) k (at_loc l h x o) =
  match getitem x name with
  | inl s => k s (at_loc l h x o)
  | inr e => (inr e, at_loc l h x o)
  end.
Proof.
  unfold getitem_at. now rewrite bind_bind, bind_deref, bind_lift.
Qed.

Lemma bind_setitem_at {B} (name : string) (vals : list cell) (k : unit -> M B)
    (x : DataFrame) (o : list string) :
  bind (setitem_at l name vals) k (at_loc l h x o) =
  match setitem x name vals with
  | inl x' => k tt (at_loc l h x' o)
  | inr e => (inr e, at_loc l h x o)
  end.
Proof.
  unfold setitem_at. rewrite bind_bind, bind_deref, bind_bind, bind_lift.
  destruct (setitem x name vals); [now rewrite bind_assign|reflexivity].
Qed.

Lemma bind_drop_columns_inplace {B} (labels : list string) (k : unit -> M B)
    (x : DataFrame) (o : list string) :
  bind (drop_columns_inplace l labels) k (at_loc l h x o) =
  match drop_columns x labels with
  | inl x' => k tt (at_loc l h x' o)
  | inr e => (inr e, at_loc l h x o)
  end.
Proof.
  unfold drop_columns_inplace. rewrite bind_bind, bind_deref, bind_bind, bind_lift.
  destruct (drop_columns x labels); [now rewrite bind_assign|reflexivity].
Qed.

(** *** The blocks of [data_cleaning_encoding] *)

Lemma bind_handle_missing_values {B} (k : unit -> M B) (x : DataFrame)
    (o : list string) :
  bind (handle_missing_values l) k (at_loc l h x o) =
  k tt (at_loc l h (without_nulls x) (o ++ missing_values_lines x)).
Proof.
  unfold handle_missing_values, without_nulls, missing_values_lines.
  rewrite bind_bind, bind_deref.
  destruct (any (isnull_any_axis1 x)).
  - now rewrite bind_bind, bind_print, bind_dropna_inplace.
  - now rewrite bind_ret, app_nil_r.
Qed.

Lemma bind_handle_duplicates {B} (k : unit -> M B) (x : DataFrame)
    (o : list string) :
  bind (handle_duplicates l) k (at_loc l h x o) =
  k tt (at_loc l h (without_duplicates x) (o ++ duplicates_lines x)).
Proof.
  unfold handle_duplicates, without_duplicates, duplicates_lines.
  rewrite bind_bind, bind_deref.
  destruct (any (duplicated x)).
  - now rewrite bind_bind, bind_print, bind_drop_duplicates_inplace.
  - now rewrite bind_ret, app_nil_r.
Qed.

Lemma bind_encode_string_columns {B} (k : unit -> M B) (x : DataFrame)
    (o : list string) :
  match encoded x with
  | inl x' =>
      bind (encode_string_columns l) k (at_loc l h x o) = k tt (at_loc l h x' o)
  | inr e =>
      exists y, bind (encode_string_columns l) k (at_loc l h x o) =
                (inr e, at_loc l h y o)
  end.
Proof.
  unfold encode_string_columns, encoded.
  rewrite bind_bind, bind_getitem_at.
  destruct (getitem x "AUTHOR") as [author|e]; simpl; [|eexists; reflexivity].
  rewrite bind_bind, bind_lift.
  destruct (fit_transform LabelEncoder_new (s_values author)) as [enc|e]; simpl;
    [|eexists; reflexivity].
  rewrite bind_bind, bind_setitem_at.
  destruct (setitem x "AUTHOR" (fst enc)) as [d1|e]; simpl;
    [|eexists; reflexivity].
  rewrite bind_bind, bind_getitem_at.
  destruct (getitem d1 "VIDEO_NAME") as [video_name|e]; simpl;
    [|eexists; reflexivity].
  rewrite bind_bind, bind_lift.
  destruct (fit_transform (snd enc) (s_values video_name)) as [enc'|e]; simpl;
    [|eexists; reflexivity].
  rewrite bind_setitem_at.
  destruct (setitem d1 "VIDEO_NAME" (fst enc')) as [d2|e]; simpl;
    [reflexivity|eexists; reflexivity].
Qed.

(** What a run of [data_cleaning_encoding] does to the store: the reference
    it was given comes back, and the object behind it holds [cleaned x]. *)
Lemma data_cleaning_encoding_run (x : DataFrame) (o : list string) :
  match cleaned x with
  | inl out =>
      data_cleaning_encoding l (at_loc l h x o) =
      (ok l, at_loc l h out (o ++ cleaning_lines x))
  | inr e =>
      exists y, data_cleaning_encoding l (at_loc l h x o) =
                (inr e, at_loc l h y (o ++ cleaning_lines x))
  end.
Proof.
  unfold data_cleaning_encoding, cleaned, cleaning_lines.
  rewrite bind_handle_missing_values, bind_handle_duplicates.
  fold (retained x). rewrite <- app_assoc.
  pose proof (bind_encode_string_columns
                (fun _ => remove_unnecessary_features l ;;
                          reset_index_inplace l ;; ret l)
                (retained x)
                (o ++ missing_values_lines x
                   ++ duplicates_lines (without_nulls x))) as He.
  destruct (encoded (retained x)) as [d2|e]; simpl; [|exact He].
  rewrite He. unfold remove_unnecessary_features.
  rewrite bind_bind, bind_drop_columns_inplace.
  destruct (drop_columns d2 ["DATE"%string]) as [d3|e]; simpl;
    [|eexists; reflexivity].
  rewrite bind_drop_columns_inplace.
  destruct (drop_columns d3 ["COMMENT_ID"%string]) as [d4|e]; simpl;
    [|eexists; reflexivity].
  rewrite bind_reset_index_inplace. reflexivity.
Qed.
End Steps.

(** ** The cleaned table *)

Lemma at_loc_found {w : world} {l : loc} {x : DataFrame} :
  nth_error (heap w) l = Some x -> w = at_loc l (heap w) x (stdout w).
Proof.
  intros H. unfold at_loc. rewrite (replace_nth_found _ _ H). now destruct w.
Qed.

Lemma nth_error_bound {A} {l : list A} {n : nat} {x : A} :
  nth_error l n = Some x -> n < length l.
Proof. intros H. apply nth_error_Some. congruence. Qed.

Lemma data_cleaning_encoding_ok_inv (l l' : loc) (w w' : world) (df : DataFrame) :
  nth_error (heap w) l = Some df ->
  data_cleaning_encoding l w = (ok l', w') ->
  l' = l /\ exists out, cleaned df = ok out /\
    w' = at_loc l (heap w) out (stdout w ++ cleaning_lines df).
Proof.
  intros Hl Hrun. rewrite (at_loc_found Hl) in Hrun.
  pose proof (@data_cleaning_encoding_run l (heap w) (nth_error_bound Hl) df (stdout w)) as H.
  destruct (cleaned df) as [out|e].
  - rewrite H in Hrun. inversion Hrun. split; [reflexivity|].
    exists out. auto.
  - destruct H as [y H]. rewrite H in Hrun. discriminate.
Qed.

Lemma data_cleaning_encoding_ok (l : loc) (w : world) (df out : DataFrame) :
  nth_error (heap w) l = Some df -> cleaned df = ok out ->
  data_cleaning_encoding l w =
  (ok l, at_loc l (heap w) out (stdout w ++ cleaning_lines df)).
Proof.
  intros Hl Hc. rewrite (at_loc_found Hl) at 1.
  pose proof (@data_cleaning_encoding_run l (heap w) (nth_error_bound Hl) df (stdout w)) as H.
  now rewrite Hc in H.
Qed.

Lemma at_loc_lookup (l : loc) (h : list DataFrame) (x : DataFrame)
    (o : list string) :
  l < length h -> nth_error (heap (at_loc l h x o)) l = Some x.
Proof. intros H. simpl. now apply nth_error_replace_nth_eq. Qed.

Lemma cleaned_form_nrows (df : DataFrame) (pA pV : nat) :
  nrows (cleaned_form df pA pV) = nrows (retained df).
Proof. unfold cleaned_form, nrows. simpl. now rewrite length_map. Qed.

Lemma isnull_false (c : cell) : isnull c = false <-> c <> NaN.
Proof. destruct c; simpl; split; congruence. Qed.

Lemma encode_row_In (pA pV : nat) (A V r : list cell) (c : cell) :
  In c (encode_row pA pV A V r) -> (exists z, c = Int z) \/ In c r.
Proof.
  unfold encode_row. intros H.
  apply replace_nth_In in H. destruct H as [->|H]; [left; eauto|].
  apply replace_nth_In in H. destruct H as [->|H]; [left; eauto|now right].
Qed.

Lemma cleaned_form_no_missing (df : DataFrame) (pA pV : nat) :
  no_missing (cleaned_form df pA pV).
Proof.
  unfold no_missing, cleaned_form. simpl.
  apply Forall_forall. intros r' Hr'. apply in_map_iff in Hr'.
  destruct Hr' as [r [<- Hr]].
  apply Forall_forall. intros c Hc.
  apply select_In, select_In, encode_row_In in Hc.
  destruct Hc as [[z ->]|Hc]; [discriminate|].
  pose proof (retained_complete df) as H. rewrite Forall_forall in H.
  specialize (H r Hr). rewrite existsb_false_Forall, Forall_forall in H.
  now apply isnull_false, H.
Qed.

Lemma select_select {A} (f g : string -> bool) (cols : list string) (r : list A) :
  length r = length cols ->
  select (map g (select (map f cols) cols)) (select (map f cols) r) =
  select (map (fun c => f c && g c) cols) r.
Proof.
  revert r. induction cols as [|c t IH]; intros [|x r] H; simpl in *;
    try reflexivity; try discriminate.
  destruct (f c); simpl.
  - destruct (g c); rewrite IH by lia; reflexivity.
  - apply IH. lia.
Qed.

Lemma select_agree {A} (f : string -> bool) (cols : list string)
    (r1 r2 : list A) (d : A) :
  length r1 = length cols -> length r2 = length cols ->
  select (map f cols) r1 = select (map f cols) r2 ->
  forall p, p < length cols -> f (nth p cols EmptyString) = true ->
            nth p r1 d = nth p r2 d.
Proof.
  revert r1 r2.
  induction cols as [|c t IH]; intros [|x1 r1] [|x2 r2] H1 H2 Hs p Hp Hf;
    simpl in *; try lia; try discriminate.
  destruct p as [|p].
  - rewrite Hf in Hs. now inversion Hs.
  - apply IH; try lia; [|exact Hf].
    destruct (f c); [now inversion Hs|exact Hs].
Qed.

Lemma kept_column_true (c : string) :
  c <> "DATE"%string -> c <> "COMMENT_ID"%string -> kept_column c = true.
Proof.
  intros H1 H2. unfold kept_column, mem_string. simpl.
  apply String.eqb_neq in H1, H2. now rewrite H1, H2.
Qed.

Lemma kept_column_false (c : string) :
  kept_column c = false -> c = "DATE"%string \/ c = "COMMENT_ID"%string.
Proof.
  unfold kept_column, mem_string. simpl.
  destruct (String.eqb c "DATE") eqn:E1; [apply String.eqb_eq in E1; auto|].
  destruct (String.eqb c "COMMENT_ID") eqn:E2; [apply String.eqb_eq in E2; auto|].
  discriminate.
Qed.

Lemma encode_row_length (pA pV : nat) (A V r : list cell) :
  length (encode_row pA pV A V r) = length r.
Proof. unfold encode_row. now rewrite !replace_nth_length. Qed.

(** The columns and rows of the cleaned table with a single mask. *)
Lemma cleaned_form_columns (df : DataFrame) (pA pV : nat) :
  columns (cleaned_form df pA pV) = select (map kept_column (columns df)) (columns df).
Proof.
  unfold cleaned_form, keep_but. simpl.
  now rewrite (select_select _ _ (columns df) (columns df) eq_refl).
Qed.

Lemma cleaned_form_values (df : DataFrame) (pA pV : nat) :
  well_formed df ->
  values (cleaned_form df pA pV) =
  map (fun r => select (map kept_column (columns df))
                  (encode_row pA pV
                     (map (fun r => nth pA r NaN) (values (retained df)))
                     (map (fun r => nth pV r NaN) (values (retained df))) r))
      (values (retained df)).
Proof.
  intros Hwf. apply well_formed_retained in Hwf. destruct Hwf as [_ Hr].
  rewrite retained_columns, Forall_forall in Hr.
  unfold cleaned_form, keep_but. simpl.
  apply map_ext_in. intros r Hin.
  apply select_select. rewrite encode_row_length. now apply Hr.
Qed.

Lemma column_values_position (df : DataFrame) (name : string) (p : nat) :
  position name (columns df) = Some p ->
  column_values df name = map (fun r => nth p r NaN) (values df).
Proof.
  intros H. unfold column_values, getitem. now rewrite H.
Qed.

Lemma cleaned_form_column (df : DataFrame) (pA pV p : nat) (name : string) :
  well_formed df -> position name (columns df) = Some p ->
  name <> "DATE"%string -> name <> "COMMENT_ID"%string ->
  column_values (cleaned_form df pA pV) name =
  map (fun r => nth p (encode_row pA pV
                         (map (fun r => nth pA r NaN) (values (retained df)))
                         (map (fun r => nth pV r NaN) (values (retained df))) r)
                 NaN)
      (values (retained df)).
Proof.
  intros Hwf Hp Hd Hc.
  destruct (position_select name kept_column _ Hp (kept_column_true Hd Hc))
    as [q [Hq Hnth]].
  rewrite (@column_values_position _ _ q)
    by (now rewrite cleaned_form_columns).
  rewrite cleaned_form_values by exact Hwf. rewrite map_map.
  apply well_formed_retained in Hwf. destruct Hwf as [_ Hr].
  rewrite retained_columns, Forall_forall in Hr.
  apply map_ext_in. intros r Hin. apply Hnth.
  rewrite encode_row_length. now apply Hr.
Qed.

Lemma encode_row_author (pA pV : nat) (A V r : list cell) :
  pA <> pV -> pA < length r ->
  nth pA (encode_row pA pV A V r) NaN = Int (Z.of_nat (rank (nth pA r NaN) A)).
Proof.
  intros Hne Hlt. unfold encode_row.
  rewrite nth_replace_nth_neq by congruence.
  now apply nth_replace_nth_eq.
Qed.

Lemma encode_row_video (pA pV : nat) (A V r : list cell) :
  pV < length r ->
  nth pV (encode_row pA pV A V r) NaN = Int (Z.of_nat (rank (nth pV r NaN) V)).
Proof.
  intros Hlt. unfold encode_row.
  apply nth_replace_nth_eq. now rewrite replace_nth_length.
Qed.

Lemma encode_row_other (pA pV p : nat) (A V r : list cell) :
  p <> pA -> p <> pV -> nth p (encode_row pA pV A V r) NaN = nth p r NaN.
Proof.
  intros H1 H2. unfold encode_row.
  rewrite !nth_replace_nth_neq by congruence. reflexivity.
Qed.

(** The encoded columns of the cleaned table hold the ranks. *)
Lemma cleaned_form_author (df : DataFrame) (pA pV : nat) :
  well_formed df ->
  position "AUTHOR" (columns df) = Some pA ->
  position "VIDEO_NAME" (columns df) = Some pV ->
  column_values (cleaned_form df pA pV) "AUTHOR" =
  map (fun v => Int (Z.of_nat (rank v (column_values (retained df) "AUTHOR"))))
      (column_values (retained df) "AUTHOR").
Proof.
  intros Hwf HA HV.
  assert (Hne : pA <> pV).
  { intros ->. pose proof (position_inj _ _ _ HA HV). discriminate. }
  rewrite (@cleaned_form_column _ _ _ pA) by (auto; discriminate).
  rewrite (@column_values_position (retained df) _ pA)
    by (now rewrite retained_columns).
  rewrite map_map.
  pose proof (well_formed_retained Hwf) as [_ Hr].
  rewrite retained_columns, Forall_forall in Hr.
  apply map_ext_in. intros r Hin. apply encode_row_author; [exact Hne|].
  rewrite (Hr r Hin). now apply position_Some in HA.
Qed.

Lemma cleaned_form_video (df : DataFrame) (pA pV : nat) :
  well_formed df ->
  position "AUTHOR" (columns df) = Some pA ->
  position "VIDEO_NAME" (columns df) = Some pV ->
  column_values (cleaned_form df pA pV) "VIDEO_NAME" =
  map (fun v => Int (Z.of_nat (rank v (column_values (retained df) "VIDEO_NAME"))))
      (column_values (retained df) "VIDEO_NAME").
Proof.
  intros Hwf HA HV.
  rewrite (@cleaned_form_column _ _ _ pV) by (auto; discriminate).
  rewrite (@column_values_position (retained df) _ pV)
    by (now rewrite retained_columns).
  rewrite map_map.
  pose proof (well_formed_retained Hwf) as [_ Hr].
  rewrite retained_columns, Forall_forall in Hr.
  apply map_ext_in. intros r Hin. apply encode_row_video.
  rewrite (Hr r Hin). now apply position_Some in HV.
Qed.

Lemma index_of_Some_nth (v : cell) (l : list cell) (k : nat) :
  index_of v l = Some k -> nth k l NaN = v.
Proof.
  revert k. induction l as [|c t IH]; intros k; simpl; [discriminate|].
  destruct (cell_eqb v c) eqn:E.
  - intros H. inversion H. apply cell_eqb_eq in E. now subst.
  - destruct (index_of v t) as [q|]; simpl; [|discriminate].
    intros H. inversion H. now apply IH.
Qed.

(** Distinct values of a column get distinct codes. *)
Lemma rank_inj (a b : cell) (l : list cell) :
  In a l -> In b l -> rank a l = rank b l -> a = b.
Proof.
  intros Ha Hb E.
  pose proof (index_of_unique _ _ Ha) as H1.
  pose proof (index_of_unique _ _ Hb) as H2.
  rewrite E in H1. apply index_of_Some_nth in H1, H2. congruence.
Qed.

Lemma position_unique (name : string) (cols : list string) (p q : nat) :
  NoDup cols -> position name cols = Some p ->
  q < length cols -> nth q cols EmptyString = name -> q = p.
Proof.
  intros Hnd Hp Hq Hn. apply position_Some in Hp. destruct Hp as [Hp Hn'].
  rewrite NoDup_nth in Hnd. apply Hnd; auto. now rewrite Hn, Hn'.
Qed.

(** Two retained rows that become the same row of the cleaned table and
    agree on DATE and COMMENT_ID are the same row. *)
Lemma cleaned_rows_source (cols : list string) (pA pV pD pC : nat)
    (A V r1 r2 : list cell) :
  NoDup cols ->
  position "AUTHOR" cols = Some pA -> position "VIDEO_NAME" cols = Some pV ->
  position "DATE" cols = Some pD -> position "COMMENT_ID" cols = Some pC ->
  length r1 = length cols -> length r2 = length cols ->
  In (nth pA r1 NaN) A -> In (nth pA r2 NaN) A ->
  In (nth pV r1 NaN) V -> In (nth pV r2 NaN) V ->
  select (map kept_column cols) (encode_row pA pV A V r1) =
  select (map kept_column cols) (encode_row pA pV A V r2) ->
  nth pD r1 NaN = nth pD r2 NaN -> nth pC r1 NaN = nth pC r2 NaN ->
  r1 = r2.
Proof.
  intros Hnd HA HV HD HC H1 H2 HA1 HA2 HV1 HV2 Hsel HeD HeC.
  assert (Hne : pA <> pV).
  { intros ->. pose proof (position_inj _ _ _ HA HV). discriminate. }
  apply (nth_ext _ _ NaN NaN); [congruence|].
  intros p Hp. rewrite H1 in Hp.
  destruct (kept_column (nth p cols EmptyString)) eqn:Hk.
  - pose proof (select_agree kept_column cols
                  (encode_row pA pV A V r1) (encode_row pA pV A V r2) NaN) as Hag.
    rewrite !encode_row_length in Hag. specialize (Hag H1 H2 Hsel p Hp Hk).
    destruct (Nat.eq_dec p pA) as [->|HpA].
    + rewrite !encode_row_author in Hag by (auto; lia).
      inversion Hag as [Hz]. apply Nat2Z.inj in Hz.
      eapply rank_inj; eassumption.
    + destruct (Nat.eq_dec p pV) as [->|HpV].
      * rewrite !encode_row_video in Hag by lia.
        inversion Hag as [Hz]. apply Nat2Z.inj in Hz.
        eapply rank_inj; eassumption.
      * now rewrite !encode_row_other in Hag by assumption.
  - apply kept_column_false in Hk. destruct Hk as [Hk|Hk].
    + rewrite (position_unique Hnd HD Hp Hk). exact HeD.
    + rewrite (position_unique Hnd HC Hp Hk). exact HeC.
Qed.

Lemma nth_column (rows : list (list cell)) (p i : nat) :
  nth i (map (fun r => nth p r NaN) rows) NaN = nth p (nth i rows []) NaN.
Proof.
  rewrite <- (map_nth (fun r => nth p r NaN) rows [] i).
  destruct p; reflexivity.
Qed.

Lemma cleaned_form_same_rows (df : DataFrame) (pA pV i j : nat) :
  well_formed df -> NoDup (columns df) ->
  position "AUTHOR" (columns df) = Some pA ->
  position "VIDEO_NAME" (columns df) = Some pV ->
  In "DATE"%string (columns df) -> In "COMMENT_ID"%string (columns df) ->
  i < j < nrows (retained df) ->
  nth i (values (cleaned_form df pA pV)) [] =
  nth j (values (cleaned_form df pA pV)) [] ->
  nth i (column_values (retained df) "COMMENT_ID") NaN <>
  nth j (column_values (retained df) "COMMENT_ID") NaN \/
  nth i (column_values (retained df) "DATE") NaN <>
  nth j (column_values (retained df) "DATE") NaN.
Proof.
  intros Hwf Hnd HA HV HD HC Hij Hrows.
  destruct (position_In _ _ HD) as [pD HpD].
  destruct (position_In _ _ HC) as [pC HpC].
  rewrite (@column_values_position (retained df) _ pC)
    by (now rewrite retained_columns).
  rewrite (@column_values_position (retained df) _ pD)
    by (now rewrite retained_columns).
  rewrite !nth_column.
  set (rows := values (retained df)) in *.
  destruct (cell_eq_dec (nth pC (nth i rows []) NaN) (nth pC (nth j rows []) NaN))
    as [EC|NC]; [|now left].
  destruct (cell_eq_dec (nth pD (nth i rows []) NaN) (nth pD (nth j rows []) NaN))
    as [ED|ND]; [|now right].
  exfalso.
  rewrite cleaned_form_values in Hrows by exact Hwf. fold rows in Hrows.
  set (f := fun r => select _ _) in Hrows.
  unfold nrows in Hij. fold rows in Hij.
  rewrite (@nth_indep _ (map f rows) i [] (f [])) in Hrows
    by (rewrite length_map; lia).
  rewrite (@nth_indep _ (map f rows) j [] (f [])) in Hrows
    by (rewrite length_map; lia).
  rewrite !map_nth in Hrows. unfold f in Hrows.
  pose proof (well_formed_retained Hwf) as [_ Hr].
  rewrite retained_columns, Forall_forall in Hr. fold rows in Hr.
  assert (Hi : In (nth i rows []) rows) by (apply nth_In; lia).
  assert (Hj : In (nth j rows []) rows) by (apply nth_In; lia).
  assert (E : nth i rows [] = nth j rows []).
  { eapply cleaned_rows_source;
      [exact Hnd|exact HA|exact HV|exact HpD|exact HpC|now apply Hr|now apply Hr
      | | | | |exact Hrows|exact ED|exact EC];
      apply in_map_iff; eauto. }
  pose proof (retained_NoDup df) as Hnodup. fold rows in Hnodup.
  pose proof (proj1 (NoDup_nth rows []) Hnodup i j) as Heq.
  assert (i = j) by (apply Heq; [lia|lia|exact E]). lia.
Qed.

(** ** Cleaning: what the returned table satisfies *)

Lemma retained_column_incl (df : DataFrame) (p : nat) (c : cell) :
  In c (map (fun r => nth p r NaN) (values (retained df))) ->
  In c (map (fun r => nth p r NaN) (values df)).
Proof.
  rewrite !in_map_iff. intros [r [E Hr]]. exists r. split; [exact E|].
  now apply retained_incl.
Qed.

Lemma text_column_not_mixed (df : DataFrame) (name : string) (p : nat) :
  position name (columns df) = Some p -> text_column df name ->
  mixed (map (fun r => nth p r NaN) (values (retained df))) = false.
Proof.
  intros Hp Ht. unfold text_column in Ht.
  rewrite (column_values_position _ _ Hp), Forall_forall in Ht.
  unfold mixed. apply andb_false_iff. right.
  apply existsb_false_Forall, Forall_forall. intros c Hc.
  now apply Ht, retained_column_incl.
Qed.

Lemma cleaned_total (df : DataFrame) :
  expected_columns df -> text_column df "AUTHOR" -> text_column df "VIDEO_NAME" ->
  exists out, cleaned df = ok out.
Proof.
  intros He HtA HtV. rewrite cleaned_unfold.
  destruct (@position_In "AUTHOR" (columns df)) as [pA HA];
    [apply He; simpl; tauto|].
  destruct (@position_In "VIDEO_NAME" (columns df)) as [pV HV];
    [apply He; simpl; tauto|].
  rewrite HA, HV.
  rewrite (text_column_not_mixed HA HtA), (text_column_not_mixed HV HtV).
  rewrite (proj2 (mem_string_In "DATE" (columns df)))
    by (apply He; simpl; tauto).
  rewrite (proj2 (mem_string_In "COMMENT_ID" (columns df)))
    by (apply He; simpl; tauto).
  simpl. eauto.
Qed.

(** C1 (as amended).  For a table with the expected columns,
    [data_cleaning_encoding] returns (whenever the AUTHOR and VIDEO_NAME
    cells are text) and the table it returns has at most as many rows as the
    input and no missing value.  It has one row for each row that is left of
    the input once rows with a missing value and repeated rows are removed;
    those rows are pairwise distinct, so two rows of the returned table can
    be identical only where their rows in the input differed in COMMENT_ID or
    in DATE. *)
Theorem data_cleaning_encoding_output (l : loc) (w : world) (df : DataFrame) :
  nth_error (heap w) l = Some df ->
  well_formed df -> NoDup (columns df) -> expected_columns df ->
  (text_column df "AUTHOR" -> text_column df "VIDEO_NAME" ->
   exists w', data_cleaning_encoding l w = (ok l, w')) /\
  forall l' w', data_cleaning_encoding l w = (ok l', w') ->
    exists out,
      nth_error (heap w') l' = Some out /\
      nrows out <= nrows df /\
      no_missing out /\
      nrows out = nrows (retained df) /\
      NoDup (values (retained df)) /\
      (forall r, In r (values (retained df)) -> In r (values df)) /\
      forall i j, i < j < nrows out ->
        nth i (values out) [] = nth j (values out) [] ->
        nth i (column_values (retained df) "COMMENT_ID") NaN <>
        nth j (column_values (retained df) "COMMENT_ID") NaN \/
        nth i (column_values (retained df) "DATE") NaN <>
        nth j (column_values (retained df) "DATE") NaN.
Proof.
  intros Hl Hwf Hnd He. split.
  - intros HtA HtV. destruct (cleaned_total He HtA HtV) as [out Hout].
    eexists. apply (@data_cleaning_encoding_ok l w df out Hl Hout).
  - intros l' w' Hrun.
    destruct (@data_cleaning_encoding_ok_inv l l' w w' df Hl Hrun) as [-> [out [Hout ->]]].
    exists out. split; [apply at_loc_lookup, (nth_error_bound Hl)|].
    destruct (@cleaned_inv df out Hout) as (pA & pV & HA & HV & _ & _ & HD & HC & ->).
    rewrite cleaned_form_nrows.
    repeat split.
    + apply retained_nrows.
    + apply cleaned_form_no_missing.
    + apply retained_NoDup.
    + apply retained_incl.
    + intros i j Hij. now apply cleaned_form_same_rows.
Qed.

Lemma data_cleaning_encoding_output_witness :
  well_formed raw_toy /\ NoDup (columns raw_toy) /\ expected_columns raw_toy /\
  exists out w',
    data_cleaning_encoding 0 (store_of raw_toy) = (ok 0, w') /\
    nth_error (heap w') 0 = Some out /\
    nrows out <= 4 /\ no_missing out.
Proof.
  assert (Hwf : well_formed raw_toy) by literal_table.
  assert (Hnd : NoDup (columns raw_toy)).
  { unfold raw_toy, raw_columns; simpl.
    repeat (constructor; [simpl; intuition discriminate|]). constructor. }
  assert (He : expected_columns raw_toy) by apply incl_refl.
  repeat (split; [assumption|]).
  destruct (@data_cleaning_encoding_output 0 (store_of raw_toy) raw_toy
              eq_refl Hwf Hnd He) as [_ Hpost].
  destruct (Hpost 0 _ eq_refl) as (out & Hout & Hrows & Hmiss & _).
  exists out. eexists. repeat split; [exact Hout|exact Hrows|exact Hmiss].
Defined.

(** C1, as stated, fails: a comment posted twice gives two identical rows
    in the returned table. *)
Lemma data_cleaning_encoding_keeps_reposts :
  well_formed raw_reposted /\ expected_columns raw_reposted /\
  exists out w',
    data_cleaning_encoding 0 (store_of raw_reposted) = (ok 0, w') /\
    nth_error (heap w') 0 = Some out /\
    ~ NoDup (values out).
Proof.
  split; [literal_table|].
  split; [apply incl_refl|].
  eexists. eexists. split; [vm_compute; reflexivity|].
  split; [reflexivity|].
  intros H. inversion H as [|? ? Hnotin _]. apply Hnotin. now left.
Qed.

(** ** Cleaning: the codes of the two encoded columns *)

(** A smaller value gets a smaller code. *)
Lemma rank_mono (a b : cell) (l : list cell) :
  In a l -> cell_compare a b = Lt -> rank a l < rank b l.
Proof.
  intros Ha Hab. unfold rank.
  assert (Hincl : incl (a :: nodup cell_eq_dec (filter (fun c => cell_ltb c a) l))
                       (nodup cell_eq_dec (filter (fun c => cell_ltb c b) l))).
  { intros x [<-|Hx]; apply nodup_In, filter_In.
    - split; [exact Ha|now apply cell_ltb_lt].
    - apply nodup_In, filter_In in Hx. destruct Hx as [Hx Hlt].
      split; [exact Hx|].
      apply cell_ltb_lt. apply cell_ltb_lt in Hlt.
      exact (cell_compare_trans _ _ _ Hlt Hab). }
  apply NoDup_incl_length in Hincl; [simpl in Hincl; lia|].
  constructor; [|apply NoDup_nodup].
  rewrite nodup_In, filter_In, cell_ltb_irrefl. intros [_ H]. discriminate.
Qed.

(** C3 (as amended).  The codes that [data_cleaning_encoding] writes into
    AUTHOR and VIDEO_NAME are dense codes assigned by ascending order of the
    distinct values, not by order of first appearance: each cell is replaced
    by the number of distinct values of its own column (among the rows that
    are kept) that are smaller than it.  So the smallest value gets 0, a
    smaller value a smaller code, every code is below the number of distinct
    values and every number below that is used; the codes of one column do
    not depend on the other column. *)
Theorem label_codes_by_rank (l : loc) (w : world) (df : DataFrame) :
  nth_error (heap w) l = Some df -> well_formed df ->
  forall l' w', data_cleaning_encoding l w = (ok l', w') ->
    exists out,
      nth_error (heap w') l' = Some out /\
      forall name, name = "AUTHOR"%string \/ name = "VIDEO_NAME"%string ->
        let column := column_values (retained df) name in
        column_values out name =
          map (fun v => Int (Z.of_nat (rank v column))) column /\
        (forall a b, In a column -> cell_compare a b = Lt ->
                     rank a column < rank b column) /\
        (forall v, In v column -> rank v column < distinct column) /\
        (forall k, k < distinct column ->
                   exists v, In v column /\ rank v column = k).
Proof.
  intros Hl Hwf l' w' Hrun.
  destruct (@data_cleaning_encoding_ok_inv l l' w w' df Hl Hrun)
    as [-> [out [Hout ->]]].
  exists out. split; [apply at_loc_lookup, (nth_error_bound Hl)|].
  destruct (@cleaned_inv df out Hout) as (pA & pV & HA & HV & _ & _ & _ & _ & ->).
  intros name Hname column. split; [|split; [|split]].
  - destruct Hname as [-> | ->].
    + now apply cleaned_form_author.
    + now apply cleaned_form_video.
  - intros a b. apply rank_mono.
  - intros v. apply rank_lt_distinct.
  - intros k. apply rank_dense.
Qed.

Lemma label_codes_by_rank_witness :
  well_formed raw_two_authors /\
  exists out w',
    data_cleaning_encoding 0 (store_of raw_two_authors) = (ok 0, w') /\
    nth_error (heap w') 0 = Some out /\
    column_values out "AUTHOR" = [Int 1; Int 0].
Proof.
  assert (Hwf : well_formed raw_two_authors) by literal_table.
  split; [exact Hwf|].
  destruct (@label_codes_by_rank 0 (store_of raw_two_authors) raw_two_authors
              eq_refl Hwf 0 _ eq_refl) as (out & Hout & Hcodes).
  exists out. eexists. split; [reflexivity|]. split; [exact Hout|].
  destruct (Hcodes "AUTHOR"%string (or_introl eq_refl)) as [-> _].
  reflexivity.
Defined.

(** C3, as stated, fails: the author met first gets code 1, because its name
    comes second in ascending order. *)
Lemma label_codes_not_first_seen :
  exists out w',
    data_cleaning_encoding 0 (store_of raw_two_authors) = (ok 0, w') /\
    nth_error (heap w') 0 = Some out /\
    column_values raw_two_authors "AUTHOR" = [Str "bob"; Str "alice"] /\
    column_values out "AUTHOR" = [Int 1; Int 0] /\
    first_seen_codes [] (column_values raw_two_authors "AUTHOR") = [Int 0; Int 1] /\
    column_values out "AUTHOR" <>
      first_seen_codes [] (column_values raw_two_authors "AUTHOR").
Proof.
  eexists. eexists. split; [vm_compute; reflexivity|].
  split; [reflexivity|]. repeat split. discriminate.
Qed.

(** ** Vectorizing *)

Lemma loc_label_seq (rows : list (list cell)) (s i : nat) :
  i < length rows ->
  loc_label (seq s (length rows)) rows (s + i) = Some (nth i rows []).
Proof.
  revert s i. induction rows as [|r t IH]; intros s i Hi; simpl in *; [lia|].
  destruct i as [|i].
  - now rewrite Nat.add_0_r, Nat.eqb_refl.
  - destruct (Nat.eqb_spec s (s + S i)) as [E|_]; [lia|].
    replace (s + S i) with (S s + i) by lia. apply IH. lia.
Qed.

Lemma row_or_nan_reset_index (df : DataFrame) (i : nat) :
  i < nrows df -> row_or_nan (reset_index df) i = nth i (values df) [].
Proof.
  intros Hi. unfold row_or_nan, reset_index, nrows in *. simpl.
  pose proof (loc_label_seq (values df) 0 Hi) as H. simpl in H.
  now rewrite H.
Qed.

Lemma filter_not_member (labels : list nat) :
  filter (fun l => negb (existsb (Nat.eqb l) labels)) labels = [].
Proof.
  apply filter_nil_of_Forall, Forall_forall. intros x Hx.
  apply negb_false_iff, existsb_exists. exists x.
  split; [exact Hx|apply Nat.eqb_refl].
Qed.

(** Two tables of as many rows, both with a fresh index, are joined row by
    row. *)
Lemma concat_axis1_reset (a b : DataFrame) :
  nrows a = nrows b ->
  concat_axis1 (reset_index a) (reset_index b) =
  {| index := seq 0 (nrows a);
     columns := columns a ++ columns b;
     values := map (fun i => nth i (values a) [] ++ nth i (values b) [])
                   (seq 0 (nrows a)) |}.
Proof.
  intros Hn. unfold concat_axis1. simpl index. simpl columns.
  rewrite <- Hn, filter_not_member, app_nil_r. f_equal.
  apply map_ext_in. intros i Hi. apply in_seq in Hi.
  rewrite row_or_nan_reset_index by lia.
  rewrite row_or_nan_reset_index by lia. reflexivity.
Qed.

Lemma vocabulary_sorted (analyzer : string -> list string) (docs : list string) :
  StronglySorted (fun a b => String.compare a b = Lt) (vocabulary analyzer docs).
Proof.
  apply unique_sorted;
    [apply string_compare_eq|apply string_compare_antisym
    |apply string_compare_trans].
Qed.

Lemma vocabulary_In (analyzer : string -> list string) (docs : list string)
    (t : string) :
  In t (vocabulary analyzer docs) <->
  exists doc, In doc docs /\ In t (analyzer doc).
Proof.
  unfold vocabulary. rewrite unique_In by apply string_compare_eq.
  apply in_flat_map.
Qed.

Lemma decode_ok (c : cell) (s : string) : decode c = ok s <-> c = Str s.
Proof.
  destruct c; simpl; split; intros H; try discriminate;
    inversion H; reflexivity.
Qed.

Lemma mapM_decode_inv (raw : list cell) (docs : list string) :
  mapM decode raw = ok docs -> raw = map Str docs.
Proof.
  revert docs. induction raw as [|c t IH]; intros docs; simpl.
  - intros H. inversion H. reflexivity.
  - destruct (decode c) as [s|e] eqn:E; simpl; [|discriminate].
    destruct (mapM decode t) as [ss|e]; simpl; [|discriminate].
    intros H. inversion H. simpl. apply decode_ok in E. subst c.
    now rewrite (IH ss eq_refl).
Qed.

Lemma mapM_decode_text (docs : list string) : mapM decode (map Str docs) = ok docs.
Proof.
  induction docs as [|d t IH]; simpl; [reflexivity|]. now rewrite IH.
Qed.

Section VectorizingRun.
Variable analyzer : string -> list string.
Variable l : loc.
Variable h : list DataFrame.
Hypothesis l_bound : l < length h.

Lemma alloc_at_loc (x y : DataFrame) (o : list string) :
  alloc y (at_loc l h x o) =
  (ok (length h), {| heap := replace_nth l x h ++ [y]; stdout := o |}).
Proof.
  unfold alloc, at_loc. simpl. now rewrite replace_nth_length.
Qed.

(** What a run of [vectorizing] does to the store: the argument gets a fresh
    index, and a new object holds the joined table. *)
Lemma vectorizing_run (x : DataFrame) (o : list string) :
  vectorizing analyzer l (at_loc l h x o) =
  match getitem x "CONTENT" with
  | inr e => (inr e, at_loc l h x o)
  | inl content =>
      match CountVectorizer_fit_transform analyzer (s_values content) with
      | inr e => (inr e, at_loc l h x o)
      | inl fitted =>
          (ok (length h),
           {| heap := replace_nth l (reset_index x) h
                      ++ [concat_axis1 (reset_index x)
                            (reset_index (DataFrame_new (fst fitted) (snd fitted)))];
              stdout := o |})
      end
  end.
Proof.
  unfold vectorizing.
  rewrite bind_getitem_at by exact l_bound.
  destruct (getitem x "CONTENT") as [content|e]; [|reflexivity].
  rewrite bind_lift.
  destruct (CountVectorizer_fit_transform analyzer (s_values content))
    as [fitted|e]; [|reflexivity].
  rewrite bind_reset_index_inplace, bind_deref by exact l_bound.
  apply alloc_at_loc.
Qed.
End VectorizingRun.

Lemma fit_transform_counts_inv (analyzer : string -> list string)
    (raw : list cell) (m : list (list cell)) (names : list string) :
  CountVectorizer_fit_transform analyzer raw = ok (m, names) ->
  exists docs, raw = map Str docs /\
    names = vocabulary analyzer docs /\ names <> [] /\
    m = map (count_row analyzer names) docs.
Proof.
  unfold CountVectorizer_fit_transform.
  destruct (mapM decode raw) as [docs|e] eqn:E; simpl; [|discriminate].
  destruct (vocabulary analyzer docs) as [|t v] eqn:Ev; [discriminate|].
  intros H. inversion H. subst. exists docs.
  split; [now apply mapM_decode_inv|].
  split; [now symmetry|]. split; [discriminate|reflexivity].
Qed.

Lemma getitem_column_values (df : DataFrame) (name : string) (s : Series) :
  getitem df name = ok s -> s_values s = column_values df name.
Proof.
  intros H. unfold column_values. now rewrite H.
Qed.

Lemma getitem_present (df : DataFrame) (name : string) :
  In name (columns df) ->
  exists s, getitem df name = ok s /\ s_values s = column_values df name.
Proof.
  intros H. destruct (position_In _ _ H) as [p Hp].
  unfold column_values, getitem. rewrite Hp. eauto.
Qed.

Lemma column_values_length (df : DataFrame) (name : string) :
  In name (columns df) -> length (column_values df name) = nrows df.
Proof.
  intros H. destruct (position_In _ _ H) as [p Hp].
  rewrite (column_values_position _ _ Hp). apply length_map.
Qed.

Lemma getitem_ok_In (df : DataFrame) (name : string) (s : Series) :
  getitem df name = ok s -> In name (columns df).
Proof.
  unfold getitem. destruct (position name (columns df)) as [p|] eqn:Hp;
    [|discriminate].
  intros _. apply position_Some in Hp. destruct Hp as [Hp <-].
  now apply nth_In.
Qed.

Lemma nth_map_seq {A} (f : nat -> A) (n i : nat) (d : A) :
  i < n -> nth i (map f (seq 0 n)) d = f i.
Proof.
  intros Hi. rewrite (@nth_indep _ _ i d (f 0))
    by (now rewrite length_map, length_seq).
  now rewrite map_nth, seq_nth.
Qed.

Lemma nth_map_default {A B} (f : A -> B) (l : list A) (i : nat) (d : A) (e : B) :
  i < length l -> nth i (map f l) e = f (nth i l d).
Proof.
  intros Hi. rewrite (@nth_indep _ _ i e (f d)) by (now rewrite length_map).
  apply map_nth.
Qed.

(** C5.  When [vectorizing] returns, the table it returns has exactly the
    rows of its argument, in order, each extended by one cell per vocabulary
    term; its columns are the argument's columns followed by the vocabulary,
    which is the set of terms that occur in the CONTENT column, without
    repetition, in ascending order; each added cell is the number of times
    the term occurs among the tokens of the row's text, a non-negative
    integer.  It does return when CONTENT holds text and some text has a
    token. *)
Theorem vectorizing_output (analyzer : string -> list string)
    (l : loc) (w : world) (df : DataFrame) :
  nth_error (heap w) l = Some df ->
  (forall docs,
     In "CONTENT"%string (columns df) ->
     column_values df "CONTENT" = map Str docs ->
     (exists doc t, In doc docs /\ In t (analyzer doc)) ->
     exists l' w', vectorizing analyzer l w = (ok l', w')) /\
  forall l' w', vectorizing analyzer l w = (ok l', w') ->
    exists out docs vocab,
      nth_error (heap w') l' = Some out /\
      column_values df "CONTENT" = map Str docs /\
      nrows out = nrows df /\
      columns out = columns df ++ vocab /\
      StronglySorted (fun a b => String.compare a b = Lt) vocab /\
      NoDup vocab /\
      (forall t, In t vocab <-> exists doc, In doc docs /\ In t (analyzer doc)) /\
      forall i, i < nrows df ->
        exists counts,
          nth i (values out) [] = nth i (values df) [] ++ counts /\
          counts = map (fun t => Int (Z.of_nat
                     (count_occ string_dec (analyzer (nth i docs EmptyString)) t)))
                       vocab /\
          Forall (fun c => exists z, c = Int z /\ (0 <= z)%Z) counts.
Proof.
  intros Hl. pose proof (nth_error_bound Hl) as Hb.
  rewrite (at_loc_found Hl), (@vectorizing_run analyzer l (heap w) Hb). split.
  - intros docs Hin Hdocs (doc & t & Hdoc & Ht).
    destruct (@getitem_present df "CONTENT" Hin) as [s [Hg Hs]]. rewrite Hg.
    unfold CountVectorizer_fit_transform.
    rewrite Hs, Hdocs, mapM_decode_text. simpl rbind.
    destruct (vocabulary analyzer docs) as [|t0 v] eqn:Ev.
    + assert (Hv : In t (vocabulary analyzer docs)) by (apply vocabulary_In; eauto).
      rewrite Ev in Hv. destruct Hv.
    + eauto.
  - intros l' w'.
    destruct (getitem df "CONTENT") as [content|e] eqn:Hg; [|discriminate].
    destruct (CountVectorizer_fit_transform analyzer (s_values content))
      as [[m names]|e] eqn:Hf; [|discriminate].
    intros H. inversion H. subst l' w'. clear H. simpl fst. simpl snd.
    destruct (@fit_transform_counts_inv analyzer _ _ _ Hf) as (docs & Hraw & Hnames & _ & Hm).
    rewrite (@getitem_column_values df "CONTENT" content Hg) in Hraw.
    assert (Hlen : length docs = nrows df).
    { rewrite <- (column_values_length df "CONTENT") by (eapply getitem_ok_In, Hg).
      now rewrite Hraw, length_map. }
    assert (Hn : nrows df = nrows (DataFrame_new m names)).
    { unfold nrows at 2. simpl. subst m. now rewrite length_map. }
    rewrite (@concat_axis1_reset df (DataFrame_new m names) Hn).
    eexists. exists docs, names. split.
    { simpl. rewrite nth_error_app2 by (rewrite replace_nth_length; lia).
      rewrite replace_nth_length, Nat.sub_diag. reflexivity. }
    split; [exact Hraw|].
    split; [unfold nrows; simpl; now rewrite length_map, length_seq|].
    split; [reflexivity|].
    split; [subst names; apply vocabulary_sorted|].
    split.
    { subst names. apply unique_NoDup;
        [apply string_compare_eq|apply string_compare_antisym
        |apply string_compare_trans]. }
    split; [subst names; apply vocabulary_In|].
    intros i Hi. simpl values.
    rewrite nth_map_seq by exact Hi. subst m.
    rewrite (@nth_map_default _ _ _ docs i EmptyString) by lia.
    eexists. split; [reflexivity|]. split; [reflexivity|].
    apply Forall_forall. intros c Hc. unfold count_row in Hc.
    apply in_map_iff in Hc. destruct Hc as [t [<- _]].
    eexists. split; [reflexivity|lia].
Qed.

Lemma vectorizing_output_witness :
  exists out w',
    vectorizing ascii_analyzer 0 (store_of cleaned_toy) = (ok 1, w') /\
    nth_error (heap w') 1 = Some out /\
    nrows out = 2 /\
    columns out =
      ["AUTHOR"; "CONTENT"; "VIDEO_NAME"; "CLASS"]%string
      ++ ["buy"; "cheap"; "followers"; "great"; "now"; "thanks"; "video"]%string.
Proof.
  destruct (@vectorizing_output ascii_analyzer 0 (store_of cleaned_toy)
              cleaned_toy eq_refl) as [_ Hpost].
  pose (w' := snd (vectorizing ascii_analyzer 0 (store_of cleaned_toy))).
  assert (Hrun : vectorizing ascii_analyzer 0 (store_of cleaned_toy) = (ok 1, w'))
    by (vm_compute; reflexivity).
  destruct (Hpost 1 w' Hrun) as (out & docs & vocab & Hout & _ & Hrows & _).
  exists out, w'. split; [exact Hrun|]. split; [exact Hout|].
  split; [exact Hrows|].
  vm_compute in Hout. inversion Hout. reflexivity.
Defined.

(** ** In-place effects *)

Lemma cleaned_form_differs (df : DataFrame) (pA pV : nat) :
  In "DATE"%string (columns df) -> cleaned_form df pA pV <> df.
Proof.
  intros HD E.
  assert (H : In "DATE"%string (columns (cleaned_form df pA pV)))
    by now rewrite E.
  rewrite cleaned_form_columns, select_map_filter in H.
  apply filter_In in H. destruct H as [_ H]. discriminate.
Qed.

(** C9.  [data_cleaning_encoding] returns the reference it was given and
    creates no table object: after the call the object behind that reference
    holds the cleaned table (fewer or as many rows, no missing value, the
    two columns encoded, DATE and COMMENT_ID gone), which is not the table it
    held before, and every other object is untouched.  [vectorizing] returns a reference to a new object
    and leaves its argument with a fresh row index, all else unchanged. *)
Theorem in_place_effects (l : loc) (w : world) (df : DataFrame) :
  nth_error (heap w) l = Some df ->
  (forall l' w', data_cleaning_encoding l w = (ok l', w') ->
     l' = l /\
     length (heap w') = length (heap w) /\
     (forall k, k <> l -> nth_error (heap w') k = nth_error (heap w) k) /\
     exists out,
       nth_error (heap w') l = Some out /\
       cleaned df = ok out /\
       nrows out <= nrows df /\
       no_missing out /\
       columns out =
         filter (fun c => negb (String.eqb c "DATE")
                          && negb (String.eqb c "COMMENT_ID"))
                (columns df) /\
       out <> df) /\
  (forall analyzer l' w', vectorizing analyzer l w = (ok l', w') ->
     l' = length (heap w) /\
     length (heap w') = S (length (heap w)) /\
     nth_error (heap w') l = Some (reset_index df) /\
     (forall k, k <> l -> k < length (heap w) ->
                nth_error (heap w') k = nth_error (heap w) k)).
Proof.
  intros Hl. pose proof (nth_error_bound Hl) as Hb. split.
  - intros l' w' Hrun.
    destruct (@data_cleaning_encoding_ok_inv l l' w w' df Hl Hrun)
      as [-> [out [Hout ->]]].
    split; [reflexivity|].
    split; [simpl; apply replace_nth_length|].
    split; [intros k Hk; simpl; apply nth_error_replace_nth_neq; congruence|].
    exists out. split; [now apply at_loc_lookup|]. split; [exact Hout|].
    destruct (@cleaned_inv df out Hout) as (pA & pV & _ & _ & _ & _ & HD & _ & ->).
    split; [rewrite cleaned_form_nrows; apply retained_nrows|].
    split; [apply cleaned_form_no_missing|].
    split; [|now apply cleaned_form_differs].
    rewrite cleaned_form_columns, select_map_filter.
    apply filter_ext. intros c. unfold kept_column, mem_string. simpl.
    now rewrite !orb_false_r.
  - intros analyzer l' w' H.
    rewrite (at_loc_found Hl), (@vectorizing_run analyzer l (heap w) Hb) in H.
    destruct (getitem df "CONTENT") as [content|e]; [|discriminate].
    destruct (CountVectorizer_fit_transform analyzer (s_values content))
      as [fitted|e]; [|discriminate].
    inversion H. subst l' w'. clear H. simpl heap.
    split; [reflexivity|].
    split; [rewrite length_app, replace_nth_length; simpl; lia|].
    split.
    + rewrite nth_error_app1 by (now rewrite replace_nth_length).
      now apply nth_error_replace_nth_eq.
    + intros k Hk Hlt.
      rewrite nth_error_app1 by (now rewrite replace_nth_length).
      apply nth_error_replace_nth_neq. congruence.
Qed.

Lemma in_place_effects_witness :
  exists w',
    data_cleaning_encoding 0 (store_of raw_toy) = (ok 0, w') /\
    nth_error (heap w') 0 = Some cleaned_toy /\
    length (heap w') = 1.
Proof.
  destruct (@in_place_effects 0 (store_of raw_toy) raw_toy eq_refl)
    as [Hclean _].
  destruct (Hclean 0 _ eq_refl) as (_ & Hlen & _ & out & Hout & Hc & _).
  eexists. split; [reflexivity|]. split; [|exact Hlen].
  rewrite Hout. f_equal. vm_compute in Hc. now inversion Hc.
Defined.

(** ** Cleaning a cleaned table again *)

Lemma sorted_codes (s n : nat) :
  StronglySorted (fun a b => cell_compare a b = Lt)
                 (map (fun k => Int (Z.of_nat k)) (seq s n)).
Proof.
  revert s. induction n as [|n IH]; intros s; simpl; constructor.
  - apply IH.
  - apply Forall_forall. intros x Hx. apply in_map_iff in Hx.
    destruct Hx as [k [<- Hk]]. apply in_seq in Hk. simpl.
    apply Z.compare_lt_iff. lia.
Qed.

Lemma codes_unique (A : list cell) :
  unique cell_compare (map (fun v => Int (Z.of_nat (rank v A))) A) =
  map (fun k => Int (Z.of_nat k)) (seq 0 (distinct A)).
Proof.
  apply (sorted_ext cell_compare cell_compare_eq cell_compare_trans).
  - apply unique_cells_sorted.
  - apply sorted_codes.
  - intros x. rewrite unique_cells_In, !in_map_iff. split.
    + intros [v [<- Hv]]. exists (rank v A). split; [reflexivity|].
      apply in_seq. pose proof (rank_lt_distinct _ _ Hv). lia.
    + intros [k [<- Hk]]. apply in_seq in Hk.
      destruct (@rank_dense A k) as [v [Hv <-]]; [lia|]. eauto.
Qed.

(** Encoding a column of codes again gives the same codes. *)
Lemma rank_rank (A : list cell) (c : cell) :
  let C := map (fun v => Int (Z.of_nat (rank v A))) A in
  In c C -> Int (Z.of_nat (rank c C)) = c.
Proof.
  intros C Hc.
  pose proof (index_of_unique _ _ Hc) as H. fold C in H.
  unfold C in H at 1. rewrite codes_unique in H.
  apply in_map_iff in Hc. destruct Hc as [v [<- Hv]].
  pose proof (rank_lt_distinct _ _ Hv) as Hlt.
  set (L := map (fun k => Int (Z.of_nat k)) (seq 0 (distinct A))) in *.
  assert (Hn : nth (rank v A) L NaN = Int (Z.of_nat (rank v A))).
  { unfold L. now rewrite nth_map_seq. }
  rewrite <- Hn in H at 1. rewrite index_of_nth in H.
  - injection H as E. now rewrite <- E.
  - apply (sorted_NoDup cell_compare cell_compare_eq), sorted_codes.
  - unfold L. now rewrite length_map, length_seq.
Qed.

Lemma without_duplicates_columns (df : DataFrame) :
  columns (without_duplicates df) = columns df.
Proof.
  unfold without_duplicates. now destruct (any (duplicated df)).
Qed.

Lemma no_missing_any (df : DataFrame) :
  no_missing df -> any (isnull_any_axis1 df) = false.
Proof.
  intros H. unfold isnull_any_axis1. rewrite any_map.
  apply existsb_false_Forall. eapply Forall_impl; [|exact H].
  intros r Hr. apply existsb_false_Forall. eapply Forall_impl; [|exact Hr].
  intros c. apply isnull_false.
Qed.

Lemma all_int_not_mixed (y : list cell) :
  Forall (fun c => is_str c = false) y -> mixed y = false.
Proof.
  intros H. unfold mixed. apply existsb_false_Forall in H. now rewrite H.
Qed.

Section SecondRun.
Variable l : loc.
Variable h : list DataFrame.
Hypothesis l_bound : l < length h.

(** On a table without missing values and without a DATE column the
    function fails at the removal of DATE, after the encoding block. *)
Lemma data_cleaning_encoding_no_date (x x' : DataFrame) (o : list string) :
  no_missing x -> ~ In "DATE"%string (columns x') ->
  encoded (without_duplicates x) = ok x' ->
  data_cleaning_encoding l (at_loc l h x o) =
  (raise (KeyError ["DATE"%string]), at_loc l h x' (o ++ duplicates_lines x)).
Proof.
  intros Hm Hd He. unfold data_cleaning_encoding.
  rewrite bind_handle_missing_values by exact l_bound.
  unfold without_nulls, missing_values_lines.
  rewrite (no_missing_any Hm), app_nil_r.
  rewrite bind_handle_duplicates by exact l_bound.
  pose proof (@bind_encode_string_columns l h l_bound _
                (fun _ => remove_unnecessary_features l ;;
                          reset_index_inplace l ;; ret l)
                (without_duplicates x) (o ++ duplicates_lines x)) as H.
  rewrite He in H. rewrite H. unfold remove_unnecessary_features.
  rewrite bind_bind, bind_drop_columns_inplace by exact l_bound.
  now rewrite drop_columns_absent.
Qed.
End SecondRun.

Lemma cleaned_form_no_date (df : DataFrame) (pA pV : nat) :
  ~ In "DATE"%string (columns (cleaned_form df pA pV)).
Proof.
  rewrite cleaned_form_columns, select_map_filter. intros H.
  apply filter_In in H. destruct H as [_ H]. discriminate.
Qed.

Lemma cleaned_form_row (df : DataFrame) (pA pV : nat) (r : list cell) :
  well_formed df -> In r (values (cleaned_form df pA pV)) ->
  exists r0,
    In r0 (values (retained df)) /\ length r0 = length (columns df) /\
    r = select (map kept_column (columns df))
          (encode_row pA pV
             (map (fun r => nth pA r NaN) (values (retained df)))
             (map (fun r => nth pV r NaN) (values (retained df))) r0).
Proof.
  intros Hwf Hr. rewrite cleaned_form_values in Hr by exact Hwf.
  apply in_map_iff in Hr. destruct Hr as [r0 [<- Hr0]].
  exists r0. split; [exact Hr0|]. split; [|reflexivity].
  pose proof (well_formed_retained Hwf) as [_ H].
  rewrite retained_columns, Forall_forall in H. now apply H.
Qed.

(** Re-encoding the cleaned table: every row stays as it is. *)
Lemma encode_row_cleaned (df : DataFrame) (pA pV qA qV : nat) (r : list cell) :
  well_formed df ->
  position "AUTHOR" (columns df) = Some pA ->
  position "VIDEO_NAME" (columns df) = Some pV ->
  position "AUTHOR" (columns (cleaned_form df pA pV)) = Some qA ->
  position "VIDEO_NAME" (columns (cleaned_form df pA pV)) = Some qV ->
  In r (values (cleaned_form df pA pV)) ->
  encode_row qA qV
    (map (fun r => nth qA r NaN) (values (cleaned_form df pA pV)))
    (map (fun r => nth qV r NaN) (values (cleaned_form df pA pV))) r = r.
Proof.
  intros Hwf HA HV HqA HqV Hr. unfold encode_row.
  assert (HinA : In (nth qA r NaN)
                    (column_values (cleaned_form df pA pV) "AUTHOR")).
  { rewrite (column_values_position _ _ HqA). apply in_map_iff. eauto. }
  assert (HinV : In (nth qV r NaN)
                    (column_values (cleaned_form df pA pV) "VIDEO_NAME")).
  { rewrite (column_values_position _ _ HqV). apply in_map_iff. eauto. }
  rewrite <- (column_values_position _ _ HqA), <- (column_values_position _ _ HqV).
  rewrite cleaned_form_author in * by assumption.
  rewrite cleaned_form_video in * by assumption.
  rewrite (rank_rank _ _ HinA), replace_nth_same.
  rewrite (rank_rank _ _ HinV), replace_nth_same. reflexivity.
Qed.

Lemma cleaned_form_positions (df : DataFrame) (pA pV : nat) :
  position "AUTHOR" (columns df) = Some pA ->
  position "VIDEO_NAME" (columns df) = Some pV ->
  exists qA qV,
    position "AUTHOR" (columns (cleaned_form df pA pV)) = Some qA /\
    position "VIDEO_NAME" (columns (cleaned_form df pA pV)) = Some qV /\
    (forall r : list cell, length r = length (columns df) ->
       nth qA (select (map kept_column (columns df)) r) NaN = nth pA r NaN) /\
    (forall r : list cell, length r = length (columns df) ->
       nth qV (select (map kept_column (columns df)) r) NaN = nth pV r NaN).
Proof.
  intros HA HV. rewrite cleaned_form_columns.
  destruct (position_select "AUTHOR" kept_column _ HA eq_refl) as [qA [HqA HnA]].
  destruct (position_select "VIDEO_NAME" kept_column _ HV eq_refl) as [qV [HqV HnV]].
  exists qA, qV. auto.
Qed.

Lemma cleaned_form_encoded (df : DataFrame) (pA pV : nat) :
  let x := cleaned_form df pA pV in
  well_formed df ->
  position "AUTHOR" (columns df) = Some pA ->
  position "VIDEO_NAME" (columns df) = Some pV ->
  exists x',
    encoded (without_duplicates x) = ok x' /\
    columns x' = columns x /\
    nrows x' <= nrows x /\
    (NoDup (values x) -> without_duplicates x = x /\ x' = x).
Proof.
  intros x Hwf HA HV.
  assert (Hne : pA <> pV).
  { intros ->. pose proof (position_inj _ _ _ HA HV). discriminate. }
  destruct (cleaned_form_positions df HA HV) as (qA & qV & HqA & HqV & HnA & HnV).
  fold x in HqA, HqV.
  rewrite encoded_unfold, without_duplicates_columns, HqA, HqV.
  assert (Hint : forall q r, (q = qA \/ q = qV) ->
                   In r (values (without_duplicates x)) ->
                   is_str (nth q r NaN) = false).
  { intros q r Hq Hr. apply without_duplicates_incl in Hr.
    destruct (cleaned_form_row _ _ _ Hwf Hr) as (r0 & Hr0 & Hlen & ->).
    assert (HpA : pA < length r0)
      by (rewrite Hlen; now apply position_Some in HA).
    assert (HpV : pV < length r0)
      by (rewrite Hlen; now apply position_Some in HV).
    destruct Hq as [-> | ->].
    - rewrite HnA by (now rewrite encode_row_length).
      now rewrite encode_row_author.
    - rewrite HnV by (now rewrite encode_row_length).
      now rewrite encode_row_video. }
  rewrite !all_int_not_mixed
    by (apply Forall_forall; intros c Hc; apply in_map_iff in Hc;
        destruct Hc as [r [<- Hr]]; apply Hint; auto).
  eexists. split; [reflexivity|]. simpl.
  split; [reflexivity|].
  split; [unfold nrows; simpl; rewrite length_map;
          apply without_duplicates_nrows|].
  intros Hnd.
  assert (Hsame : without_duplicates x = x).
  { unfold without_duplicates. now rewrite duplicated_NoDup. }
  split; [exact Hsame|]. rewrite Hsame.
  rewrite (map_ext_in _ (fun r => r)), map_id.
  - reflexivity.
  - intros r Hr. eapply encode_row_cleaned; eassumption.
Qed.

(** C4 (as amended).  Applying [data_cleaning_encoding] to the table it has
    returned does not succeed: the call raises the missing-column error for
    DATE, which the first call removed.  What it leaves behind the reference
    has the same columns and no more rows; when the cleaned table has no two
    identical rows, the store is exactly as before the second call: no row
    removed, the same codes, the same order, nothing printed. *)
Theorem cleaning_again_fails (l l1 : loc) (w w1 : world) (df : DataFrame) :
  nth_error (heap w) l = Some df -> well_formed df ->
  data_cleaning_encoding l w = (ok l1, w1) ->
  exists out w2 left,
    nth_error (heap w1) l1 = Some out /\
    data_cleaning_encoding l1 w1 = (raise (KeyError ["DATE"%string]), w2) /\
    nth_error (heap w2) l1 = Some left /\
    columns left = columns out /\
    nrows left <= nrows out /\
    (NoDup (values out) -> w2 = w1).
Proof.
  intros Hl Hwf Hrun. pose proof (nth_error_bound Hl) as Hb.
  destruct (@data_cleaning_encoding_ok_inv l l1 w w1 df Hl Hrun)
    as [-> [out [Hout ->]]].
  destruct (@cleaned_inv df out Hout) as (pA & pV & HA & HV & _ & _ & _ & _ & ->).
  destruct (cleaned_form_encoded Hwf HA HV) as (x' & He & Hcols & Hrows & Hsame).
  exists (cleaned_form df pA pV). eexists. exists x'.
  split; [now apply at_loc_lookup|].
  split.
  { apply (@data_cleaning_encoding_no_date l (heap w) Hb _ x').
    - apply cleaned_form_no_missing.
    - rewrite Hcols. apply cleaned_form_no_date.
    - exact He. }
  split; [now apply at_loc_lookup|].
  split; [exact Hcols|]. split; [exact Hrows|].
  intros Hnd. destruct (Hsame Hnd) as [Hd ->].
  unfold duplicates_lines. rewrite (duplicated_NoDup _ Hnd).
  now rewrite app_nil_r.
Qed.

Lemma cleaning_again_fails_witness :
  well_formed raw_toy /\
  exists w1 w2,
    data_cleaning_encoding 0 (store_of raw_toy) = (ok 0, w1) /\
    data_cleaning_encoding 0 w1 = (raise (KeyError ["DATE"%string]), w2).
Proof.
  assert (Hwf : well_formed raw_toy) by literal_table.
  split; [exact Hwf|].
  pose (w1 := snd (data_cleaning_encoding 0 (store_of raw_toy))).
  assert (Hrun : data_cleaning_encoding 0 (store_of raw_toy) = (ok 0, w1))
    by (vm_compute; reflexivity).
  destruct (@cleaning_again_fails 0 0 (store_of raw_toy) w1 raw_toy
              eq_refl Hwf Hrun) as (out & w2 & left & _ & Hfail & _).
  exists w1, w2. split; [exact Hrun|exact Hfail].
Defined.

(** C4, as stated, fails: the second call on a cleaned table raises. *)
Lemma cleaning_twice_raises :
  exists w1 w2,
    data_cleaning_encoding 0 (store_of raw_toy) = (ok 0, w1) /\
    nth_error (heap w1) 0 = Some cleaned_toy /\
    data_cleaning_encoding 0 w1 = (raise (KeyError ["DATE"%string]), w2).
Proof.
  eexists. eexists. split; [vm_compute; reflexivity|].
  split; [reflexivity|]. vm_compute. reflexivity.
Qed.

(** ** Splitting *)

Lemma map_nth_seq {A} (l : list A) (d : A) :
  map (fun i => nth i l d) (seq 0 (length l)) = l.
Proof.
  apply (nth_ext _ _ d d).
  - now rewrite length_map, length_seq.
  - intros n Hn. rewrite length_map, length_seq in Hn.
    now rewrite nth_map_seq.
Qed.


(** The sizes that [_validate_shuffle_split] computes from a fraction. *)
Lemma validate_shuffle_split_fraction (n : nat) (f : Q) (n_train n_test : nat) :
  validate_shuffle_split n (Fraction f) = ok (n_train, n_test) ->
  (0 < f)%Q /\ (f < 1)%Q /\
  Z.of_nat n_test = Qceiling (f * inject_Z (Z.of_nat n)) /\
  n_train + n_test = n /\ 0 < n_train.
Proof.
  unfold validate_shuffle_split.
  destruct (Qle_bool f 0) eqn:E0; [discriminate|].
  destruct (Qle_bool 1 f) eqn:E1; [discriminate|]. simpl.
  set (c := Qceiling (f * inject_Z (Z.of_nat n))).
  destruct (Z.ltb_spec (Z.of_nat n) (Z.of_nat n - c + c)) as [Hlt|Hge];
    [discriminate|].
  destruct (Z.eqb_spec (Z.of_nat n - c) 0) as [Hz|Hnz]; [discriminate|].
  intros H. inversion H. subst n_train n_test. clear H.
  assert (H0 : (0 < f)%Q).
  { apply Qnot_le_lt. intros Hle. apply Qle_bool_iff in Hle. congruence. }
  assert (H1 : (f < 1)%Q).
  { apply Qnot_le_lt. intros Hle. apply Qle_bool_iff in Hle. congruence. }
  assert (Hc0 : (0 <= c)%Z).
  { apply (Qceiling_resp_le 0 (f * inject_Z (Z.of_nat n))).
    apply Qmult_le_0_compat; [now apply Qlt_le_weak|].
    change 0%Q with (inject_Z 0). rewrite <- Zle_Qle. lia. }
  assert (Hcn : (c <= Z.of_nat n)%Z).
  { rewrite <- (Qceiling_Z (Z.of_nat n)). unfold c.
    apply Qceiling_resp_le.
    rewrite <- (Qmult_1_l (inject_Z (Z.of_nat n))) at 2.
    apply Qmult_le_compat_r; [now apply Qlt_le_weak|].
    change 0%Q with (inject_Z 0). rewrite <- Zle_Qle. lia. }
  repeat split; auto; lia.
Qed.

Lemma split_permutation (permutation : list nat) (n n_train n_test : nat) :
  Permutation permutation (seq 0 n) -> n_train + n_test = n ->
  Permutation (firstn n_train (skipn n_test permutation)
               ++ firstn n_test permutation) (seq 0 n) /\
  length (firstn n_train (skipn n_test permutation)) = n_train /\
  length (firstn n_test permutation) = n_test.
Proof.
  intros Hp Hn.
  assert (Hlen : length permutation = n).
  { rewrite (Permutation_length Hp). apply length_seq. }
  rewrite (firstn_all2 (n := n_train)) by (rewrite length_skipn; lia).
  split; [|split].
  - rewrite Permutation_app_comm, firstn_skipn. exact Hp.
  - rewrite length_skipn. lia.
  - rewrite length_firstn. lia.
Qed.




Lemma Qceiling_le_iff (x : Q) (z : Z) :
  (Qceiling x <= z)%Z <-> (x <= inject_Z z)%Q.
Proof.
  split; intros H.
  - apply Qle_trans with (inject_Z (Qceiling x)); [apply Qle_ceiling|].
    now rewrite <- Zle_Qle.
  - rewrite <- (Qceiling_Z z). now apply Qceiling_resp_le.
Qed.

Lemma validate_shuffle_split_ok (n : nat) (f : Q) :
  (0 < f)%Q -> (f * inject_Z (Z.of_nat n) <= inject_Z (Z.of_nat n - 1))%Q ->
  exists n_train n_test,
    validate_shuffle_split n (Fraction f) = ok (n_train, n_test).
Proof.
  intros H0 Hf. unfold validate_shuffle_split.
  set (c := Qceiling (f * inject_Z (Z.of_nat n))).
  assert (Hc : (c <= Z.of_nat n - 1)%Z) by now apply Qceiling_le_iff.
  assert (Hn : (0 < Z.of_nat n)%Z).
  { destruct n; [|lia]. exfalso. simpl in Hf.
    rewrite Qmult_0_r in Hf. now apply (Qle_not_lt _ _ Hf). }
  assert (H1 : (f < 1)%Q).
  { apply Qnot_le_lt. intros Hle.
    assert (Hge : (inject_Z (Z.of_nat n) <= f * inject_Z (Z.of_nat n))%Q).
    { rewrite <- (Qmult_1_l (inject_Z (Z.of_nat n))) at 1.
      apply Qmult_le_compat_r; [exact Hle|].
      change 0%Q with (inject_Z 0). rewrite <- Zle_Qle. lia. }
    pose proof (Qle_trans _ _ _ Hge Hf) as H. rewrite <- Zle_Qle in H. lia. }
  destruct (Qle_bool f 0) eqn:E0.
  { apply Qle_bool_iff in E0. now destruct (Qle_not_lt _ _ E0). }
  destruct (Qle_bool 1 f) eqn:E1.
  { apply Qle_bool_iff in E1. now destruct (Qle_not_lt _ _ E1). }
  simpl. fold c.
  destruct (Z.ltb_spec (Z.of_nat n) (Z.of_nat n - c + c)) as [Hlt|Hge]; [lia|].
  destruct (Z.eqb_spec (Z.of_nat n - c) 0) as [Hz|Hnz]; [lia|].
  eauto.
Qed.



Section SplittingFacts.
Variable RandomState : Type.
Variable RandomState_seed : Z -> RandomState.
Variable RandomState_permutation : RandomState -> nat -> list nat * RandomState.

(** What is asked of a generator: it permutes. *)
Hypothesis permutation_spec :
  forall g n, Permutation (fst (RandomState_permutation g n)) (seq 0 n).

Lemma train_test_split_seeded (x : DataFrame) (y : Series) (test_size : size)
    (seed : Z) (g : RandomState) :
  train_test_split RandomState_seed RandomState_permutation x y test_size
                   (Some seed) g =
  if negb (nrows x =? length (s_values y)) then (raise ValueError, g)
  else
    match validate_shuffle_split (nrows x) test_size with
    | inr e => (inr e, g)
    | inl (n_train, n_test) =>
        let permutation :=
          fst (RandomState_permutation (RandomState_seed seed) (nrows x)) in
        let train := firstn n_train (skipn n_test permutation) in
        let test := firstn n_test permutation in
        (ok (iloc x train, iloc x test, iloc_series y train, iloc_series y test),
         g)
    end.
Proof.
  unfold train_test_split, ShuffleSplit_indices.
  destruct (negb (nrows x =? length (s_values y))); [reflexivity|].
  destruct (validate_shuffle_split (nrows x) test_size) as [[n_train n_test]|e];
    reflexivity.
Qed.


(** C6.  The partition does not depend on the state of the process's shared
    generator, which the call leaves as it was: the generator that shuffles
    is built from the seed 42 inside the call.  Any two runs on the same
    table with the same fraction return the same four collections. *)
Theorem train_test_splitting_deterministic (data : DataFrame)
    (test_size : size) (g1 g2 : RandomState) :
  fst (train_test_splitting RandomState_seed RandomState_permutation
         data test_size g1) =
  fst (train_test_splitting RandomState_seed RandomState_permutation
         data test_size g2) /\
  snd (train_test_splitting RandomState_seed RandomState_permutation
         data test_size g1) = g1.
Proof.
  unfold train_test_splitting.
  destruct (drop_columns data ["CLASS"; "CONTENT"]%string) as [x|e];
    [|split; reflexivity].
  destruct (getitem data "CLASS") as [y|e]; [|split; reflexivity].
  rewrite !train_test_split_seeded.
  destruct (negb (nrows x =? length (s_values y))); [split; reflexivity|].
  destruct (validate_shuffle_split (nrows x) test_size) as [[n_train n_test]|e];
    split; reflexivity.
Qed.
End SplittingFacts.

Lemma toy_permutation_spec (g n : nat) :
  Permutation (fst (toy_permutation g n)) (seq 0 n).
Proof.
  unfold toy_permutation. simpl.
  rewrite Permutation_app_comm, firstn_skipn. reflexivity.
Qed.


(** Without a seed the split is drawn from the shared generator, and two
    states of it give two partitions. *)
Example unseeded_split_depends_on_generator :
  let x := vectorized_ten in
  let y := {| s_index := index x; s_values := column_values x "CLASS" |} in
  fst (train_test_split toy_seed toy_permutation x y default_test_size None 0) <>
  fst (train_test_split toy_seed toy_permutation x y default_test_size None 1).
Proof. vm_compute. discriminate. Qed.

(** ** Training *)

Lemma mapM_numeric_ok (r : list cell) :
  Forall (fun c => is_int c = true) r -> exists zs, mapM numeric r = ok zs.
Proof.
  induction 1 as [|c t Hc _ [zs IH]]; simpl; [eauto|].
  destruct c; try discriminate. simpl. rewrite IH. simpl. eauto.
Qed.

Lemma mapM_rows_numeric_ok (rows : list (list cell)) :
  Forall (Forall (fun c => is_int c = true)) rows ->
  exists zss, mapM (mapM numeric) rows = ok zss.
Proof.
  induction 1 as [|r t Hr _ [zss IH]]; simpl; [eauto|].
  destruct (mapM_numeric_ok Hr) as [zs ->]. simpl. rewrite IH. simpl. eauto.
Qed.

Lemma int_cells_complete (y : list cell) :
  Forall (fun c => is_int c = true) y ->
  existsb isnull y = false /\ mixed y = false.
Proof.
  intros H. split.
  - apply existsb_false_Forall. eapply Forall_impl; [|exact H].
    intros c. now destruct c.
  - apply all_int_not_mixed. eapply Forall_impl; [|exact H].
    intros c. now destruct c.
Qed.

Section TrainingFacts.
Variable forest : Type.
Variable grow : hyperparameters -> list (list Z) -> list cell -> forest.

End TrainingFacts.



(** ** Evaluation: the confusion matrix *)

Lemma list_sum_map_add {X} (a b : X -> nat) (l : list X) :
  list_sum (map (fun x => a x + b x) l) = list_sum (map a l) + list_sum (map b l).
Proof.
  induction l as [|x t IH]; simpl; [reflexivity|]. rewrite IH. lia.
Qed.

Lemma list_sum_zero {X} (l : list X) : list_sum (map (fun _ => 0) l) = 0.
Proof. induction l; simpl; auto. Qed.

Lemma count_one (k : cell) (labels : list cell) :
  NoDup labels -> In k labels ->
  list_sum (map (fun p => if cell_eqb k p then 1 else 0) labels) = 1.
Proof.
  induction 1 as [|c t Hnotin Hnd IH]; intros Hin; [destruct Hin|].
  simpl. destruct (cell_eqb k c) eqn:E.
  - apply cell_eqb_eq in E. subst c.
    rewrite (map_ext_in _ (fun _ => 0)), list_sum_zero; [reflexivity|].
    intros p Hp. destruct (cell_eqb k p) eqn:E'; [|reflexivity].
    apply cell_eqb_eq in E'. subst p. contradiction.
  - apply cell_eqb_neq in E. destruct Hin as [->|Hin]; [congruence|].
    now rewrite IH.
Qed.

(** Counting by label and adding up counts every item once. *)
Lemma sum_over_labels {X} (labels : list cell) (items : list X)
    (f : X -> bool) (key : X -> cell) :
  NoDup labels -> (forall x, In x items -> In (key x) labels) ->
  list_sum (map (fun p => length (filter (fun x => f x && cell_eqb (key x) p)
                                         items)) labels) =
  length (filter f items).
Proof.
  intros Hnd. induction items as [|x t IH]; intros Hkey.
  - simpl. apply list_sum_zero.
  - rewrite (map_ext _ (fun p =>
               (if f x then (if cell_eqb (key x) p then 1 else 0) else 0)
               + length (filter (fun x => f x && cell_eqb (key x) p) t))).
    2:{ intros p. simpl.
        destruct (f x); destruct (cell_eqb (key x) p); reflexivity. }
    rewrite list_sum_map_add, IH by (intros y Hy; apply Hkey; now right).
    simpl. destruct (f x).
    + rewrite count_one; [reflexivity|exact Hnd|]. apply Hkey. now left.
    + now rewrite list_sum_zero.
Qed.

Lemma count_fst (t : cell) (y_true y_pred : list cell) :
  length y_true = length y_pred ->
  length (filter (fun tp => cell_eqb (fst tp) t) (combine y_true y_pred)) =
  true_sum t y_true.
Proof.
  unfold true_sum. revert y_pred.
  induction y_true as [|a u IH]; intros [|b v] H; simpl in *;
    try reflexivity; try discriminate.
  destruct (cell_eqb a t); simpl; rewrite IH by lia; reflexivity.
Qed.

Lemma count_snd (p : cell) (y_true y_pred : list cell) :
  length y_true = length y_pred ->
  length (filter (fun tp => cell_eqb (snd tp) p) (combine y_true y_pred)) =
  pred_sum p y_pred.
Proof.
  unfold pred_sum. revert y_pred.
  induction y_true as [|a u IH]; intros [|b v] H; simpl in *;
    try reflexivity; try discriminate.
  destruct (cell_eqb b p); simpl; rewrite IH by lia; reflexivity.
Qed.

Lemma check_targets_inv (y_true y_pred labels : list cell) :
  check_targets y_true y_pred = ok labels ->
  length y_true = length y_pred /\
  labels = unique cell_compare (y_true ++ y_pred).
Proof.
  unfold check_targets.
  destruct (Nat.eqb_spec (length y_true) (length y_pred)) as [E|N];
    [|discriminate]. simpl.
  destruct (existsb isnull (y_true ++ y_pred)); [discriminate|].
  destruct (mixed y_true || mixed y_pred); [discriminate|].
  destruct (mixed (y_true ++ y_pred)); [discriminate|].
  intros H. inversion H. auto.
Qed.

(** The sums of the matrix that [c_m] returns, whatever its size: a row adds
    up to the number of true instances of its label, a column to the number
    of predicted instances of its label, and all cells to the number of
    rows. *)
Lemma c_m_sums (y_true y_pred : list cell) (cm : list (list nat)) :
  c_m y_true y_pred = ok cm ->
  let labels := unique cell_compare (y_true ++ y_pred) in
  length cm = length labels /\
  Forall (fun row => length row = length labels) cm /\
  (forall i, i < length labels ->
     list_sum (nth i cm []) = true_sum (nth i labels NaN) y_true) /\
  (forall j, j < length labels ->
     list_sum (map (fun row => nth j row 0) cm) =
     pred_sum (nth j labels NaN) y_pred) /\
  list_sum (map list_sum cm) = length y_true.
Proof.
  intros H labels. unfold c_m in H.
  destruct (check_targets y_true y_pred) as [labels'|e] eqn:Hc;
    [|discriminate].
  destruct (check_targets_inv _ _ Hc) as [Hlen E]. subst labels'.
  simpl in H. fold labels in H. inversion H. clear H.
  assert (Hnd : NoDup labels) by apply unique_cells_NoDup.
  assert (Hfst : forall x, In x (combine y_true y_pred) -> In (fst x) labels).
  { intros [a b] Hx. apply unique_cells_In, in_or_app. left.
    eapply in_combine_l, Hx. }
  assert (Hsnd : forall x, In x (combine y_true y_pred) -> In (snd x) labels).
  { intros [a b] Hx. apply unique_cells_In, in_or_app. right.
    eapply in_combine_r, Hx. }
  assert (Hrow : forall t,
            list_sum (map (fun p => count_pairs
                        (fun tp => cell_eqb (fst tp) t && cell_eqb (snd tp) p)
                        y_true y_pred) labels) = true_sum t y_true).
  { intros t. unfold count_pairs.
    rewrite (@sum_over_labels _ labels _ (fun tp => cell_eqb (fst tp) t) snd Hnd Hsnd).
    now apply count_fst. }
  assert (Hcol : forall p,
            list_sum (map (fun t => count_pairs
                        (fun tp => cell_eqb (fst tp) t && cell_eqb (snd tp) p)
                        y_true y_pred) labels) = pred_sum p y_pred).
  { intros p. unfold count_pairs.
    rewrite (map_ext _ (fun t => length (filter
               (fun tp => cell_eqb (snd tp) p && cell_eqb (fst tp) t)
               (combine y_true y_pred))))
      by (intros t; f_equal; apply filter_ext; intros tp; apply andb_comm).
    rewrite (@sum_over_labels _ labels _ (fun tp => cell_eqb (snd tp) p) fst Hnd Hfst).
    now apply count_snd. }
  split; [apply length_map|].
  split.
  { apply Forall_forall. intros row Hr. apply in_map_iff in Hr.
    destruct Hr as [t [<- _]]. apply length_map. }
  split.
  { intros i Hi. rewrite (@nth_map_default _ _ _ labels i NaN) by exact Hi.
    apply Hrow. }
  split.
  { intros j Hj. rewrite map_map.
    rewrite (map_ext_in _ (fun t => count_pairs
               (fun tp => cell_eqb (fst tp) t && cell_eqb (snd tp) (nth j labels NaN))
               y_true y_pred)).
    - apply Hcol.
    - intros t _. now rewrite (@nth_map_default _ _ _ labels j NaN). }
  rewrite map_map. rewrite (map_ext _ (fun t => true_sum t y_true)) by exact Hrow.
  unfold true_sum.
  rewrite (map_ext _ (fun t => length (filter
             (fun c => true && cell_eqb c t) y_true)))
    by reflexivity.
  rewrite (@sum_over_labels _ labels y_true (fun _ => true) (fun c => c) Hnd).
  - clear. induction y_true; simpl; auto.
  - intros c Hc'. apply unique_cells_In, in_or_app. now left.
Qed.

Lemma binary_labels_ints (y : list cell) :
  binary_labels y -> Forall (fun c => is_int c = true) y.
Proof.
  intros H. eapply Forall_impl; [|exact H].
  intros c [-> | ->]; reflexivity.
Qed.

Lemma binary_labels_app (y1 y2 : list cell) :
  binary_labels y1 -> binary_labels y2 -> binary_labels (y1 ++ y2).
Proof. intros H1 H2. apply Forall_app. auto. Qed.

(** The labels that occur among labels over the two classes. *)
Lemma unique_binary (y : list cell) :
  binary_labels y ->
  unique cell_compare y =
  (if in_dec cell_eq_dec (Int 0) y then [Int 0] else [])
  ++ (if in_dec cell_eq_dec (Int 1) y then [Int 1] else []).
Proof.
  intros Hb. unfold binary_labels in Hb. rewrite Forall_forall in Hb.
  apply (sorted_ext cell_compare cell_compare_eq cell_compare_trans).
  - apply unique_cells_sorted.
  - destruct (in_dec cell_eq_dec (Int 0) y);
      destruct (in_dec cell_eq_dec (Int 1) y); simpl;
      repeat constructor.
  - intros x. rewrite unique_cells_In.
    destruct (in_dec cell_eq_dec (Int 0) y) as [H0|H0];
      destruct (in_dec cell_eq_dec (Int 1) y) as [H1|H1]; simpl; split;
      intros H;
      try (destruct (Hb x H) as [-> | ->]; tauto);
      intuition (subst; auto).
Qed.

Lemma check_targets_binary (y_true y_pred : list cell) :
  length y_true = length y_pred ->
  binary_labels y_true -> binary_labels y_pred ->
  check_targets y_true y_pred = ok (unique cell_compare (y_true ++ y_pred)).
Proof.
  intros Hlen Ht Hp. unfold check_targets.
  rewrite Hlen, Nat.eqb_refl. simpl.
  destruct (int_cells_complete (binary_labels_ints (binary_labels_app Ht Hp)))
    as [-> ->].
  destruct (int_cells_complete (binary_labels_ints Ht)) as [_ ->].
  destruct (int_cells_complete (binary_labels_ints Hp)) as [_ ->].
  reflexivity.
Qed.

Lemma check_binary_ok (y_true y_pred : list cell) :
  length y_true = length y_pred ->
  binary_labels y_true -> binary_labels y_pred ->
  check_binary pos_label y_true y_pred = ok tt.
Proof.
  intros Hlen Ht Hp. unfold check_binary.
  rewrite check_targets_binary by assumption. simpl.
  rewrite (unique_binary (binary_labels_app Ht Hp)).
  destruct (in_dec cell_eq_dec (Int 0) (y_true ++ y_pred));
    destruct (in_dec cell_eq_dec (Int 1) (y_true ++ y_pred)); reflexivity.
Qed.

(** With both classes present the matrix is 2 by 2, label 0 first. *)
Lemma c_m_two_classes (y_true y_pred : list cell) :
  length y_true = length y_pred ->
  binary_labels y_true -> binary_labels y_pred ->
  In (Int 0) (y_true ++ y_pred) -> In (Int 1) (y_true ++ y_pred) ->
  c_m y_true y_pred =
  ok [ [count_both (Int 0) (Int 0) y_true y_pred;
        count_both (Int 0) (Int 1) y_true y_pred];
       [count_both (Int 1) (Int 0) y_true y_pred;
        count_both (Int 1) (Int 1) y_true y_pred] ].
Proof.
  intros Hlen Ht Hp H0 H1. unfold c_m.
  rewrite check_targets_binary by assumption. simpl.
  rewrite (unique_binary (binary_labels_app Ht Hp)).
  destruct (in_dec cell_eq_dec (Int 0) (y_true ++ y_pred)); [|contradiction].
  destruct (in_dec cell_eq_dec (Int 1) (y_true ++ y_pred)); [|contradiction].
  reflexivity.
Qed.

Lemma unique_single_class (c : cell) (y : list cell) :
  y <> [] -> Forall (eq c) y -> unique cell_compare y = [c].
Proof.
  intros Hne Hc. rewrite Forall_forall in Hc.
  apply (sorted_ext cell_compare cell_compare_eq cell_compare_trans).
  - apply unique_cells_sorted.
  - repeat constructor.
  - intros x. rewrite unique_cells_In. split.
    + intros Hx. left. now apply Hc.
    + intros [<-|[]]. destruct y as [|a t]; [contradiction|].
      left. symmetry. apply Hc. now left.
Qed.

(** C8 where only one class occurs.  When every true label and every
    predicted label is the same class (all rows spam, or all rows non-spam),
    the matrix that [confusion_matrix] computes is not 2 by 2: it has the
    single cell that counts the rows, and it is put under the two display
    labels SPAM and NON-SPAM all the same. *)
Theorem confusion_matrix_single_class (c : cell) (y_pred : list cell)
    (y_test : Series) :
  c = Int 0 \/ c = Int 1 ->
  s_values y_test <> [] -> length y_pred = length (s_values y_test) ->
  Forall (eq c) (s_values y_test) -> Forall (eq c) y_pred ->
  confusion_matrix y_pred y_test =
  ok {| cm_values := [[length (s_values y_test)]];
        display_labels := ["SPAM"; "NON-SPAM"]%string |}.
Proof.
  intros Hc Hne Hlen Ht Hp. symmetry in Hlen.
  assert (Hbin : forall y, Forall (eq c) y -> binary_labels y).
  { intros y Hy. eapply Forall_impl; [|exact Hy].
    intros a <-. exact Hc. }
  assert (Hlabels : unique cell_compare (s_values y_test ++ y_pred) = [c]).
  { apply unique_single_class.
    - destruct (s_values y_test); [contradiction|discriminate].
    - apply Forall_app. auto. }
  unfold confusion_matrix.
  destruct (c_m (s_values y_test) y_pred) as [cm|e] eqn:Hcm.
  - destruct (c_m_sums _ _ Hcm) as (_ & _ & _ & _ & Htot).
    unfold c_m in Hcm.
    rewrite check_targets_binary, Hlabels in Hcm by auto.
    simpl in Hcm. inversion Hcm as [E]. rewrite <- E in Htot.
    simpl in Htot. simpl. repeat f_equal. lia.
  - unfold c_m in Hcm. rewrite check_targets_binary in Hcm by auto.
    discriminate.
Qed.

Lemma confusion_matrix_single_class_witness :
  confusion_matrix [Int 1; Int 1] (series_of [Int 1; Int 1]) =
  ok {| cm_values := [[2]]; display_labels := ["SPAM"; "NON-SPAM"]%string |}.
Proof.
  apply (@confusion_matrix_single_class (Int 1) [Int 1; Int 1]
           (series_of [Int 1; Int 1])).
  - now right.
  - discriminate.
  - reflexivity.
  - repeat constructor.
  - repeat constructor.
Defined.

(** X25.  Where both classes occur the matrix is 2 by 2, rows by true label and
    columns by predicted label, label 0 (shown as SPAM) before label 1, with
    the sums of [c_m_sums]. *)
Lemma confusion_matrix_two_classes (y_pred : list cell) (y_test : Series) :
  let y_true := s_values y_test in
  length y_true = length y_pred ->
  binary_labels y_true -> binary_labels y_pred ->
  In (Int 0) (y_true ++ y_pred) -> In (Int 1) (y_true ++ y_pred) ->
  exists n00 n01 n10 n11,
    confusion_matrix y_pred y_test =
    ok {| cm_values := [[n00; n01]; [n10; n11]];
          display_labels := ["SPAM"; "NON-SPAM"]%string |} /\
    n00 = count_both (Int 0) (Int 0) y_true y_pred /\
    n01 = count_both (Int 0) (Int 1) y_true y_pred /\
    n10 = count_both (Int 1) (Int 0) y_true y_pred /\
    n11 = count_both (Int 1) (Int 1) y_true y_pred /\
    n00 + n01 + n10 + n11 = length y_true /\
    n00 + n01 = true_sum (Int 0) y_true /\
    n10 + n11 = true_sum (Int 1) y_true /\
    n00 + n10 = pred_sum (Int 0) y_pred /\
    n01 + n11 = pred_sum (Int 1) y_pred.
Proof.
  intros y_true Hlen Ht Hp H0 H1.
  pose proof (c_m_two_classes Hlen Ht Hp H0 H1) as Hcm.
  unfold confusion_matrix. fold y_true. rewrite Hcm. simpl.
  do 4 eexists. split; [reflexivity|]. repeat (split; [reflexivity|]).
  destruct (c_m_sums _ _ Hcm) as (_ & _ & Hrow & Hcol & Htot).
  rewrite (unique_binary (binary_labels_app Ht Hp)) in Hrow, Hcol.
  destruct (in_dec cell_eq_dec (Int 0) (y_true ++ y_pred)); [|contradiction].
  destruct (in_dec cell_eq_dec (Int 1) (y_true ++ y_pred)); [|contradiction].
  pose proof (Hrow 0) as R0. pose proof (Hrow 1) as R1.
  pose proof (Hcol 0) as C0. pose proof (Hcol 1) as C1.
  simpl in R0, R1, C0, C1, Htot.
  repeat split; lia.
Qed.

(** ** Evaluation: the four scores *)

(** [prf_divide] is the quotient, and 0 where the denominator is 0. *)
Lemma prf_divide_spec (numerator denominator : nat) :
  (denominator = 0 -> prf_divide numerator denominator = 0%Q) /\
  (denominator <> 0 ->
   (prf_divide numerator denominator ==
    inject_Z (Z.of_nat numerator) / inject_Z (Z.of_nat denominator))%Q).
Proof.
  split.
  - intros ->. reflexivity.
  - intros H. destruct denominator as [|d]; [contradiction|].
    unfold prf_divide. rewrite Qmake_Qdiv.
    now rewrite Zpos_P_of_succ_nat, <- Nat2Z.inj_succ.
Qed.

(** F1 is the harmonic mean of precision and recall:
    F1 * (P + R) = 2 * P * R. *)
Lemma f1_harmonic_mean (tp fp fn : nat) :
  (prf_divide (2 * tp) (2 * tp + fp + fn)
   * (prf_divide tp (tp + fp) + prf_divide tp (tp + fn))
   == 2 * prf_divide tp (tp + fp) * prf_divide tp (tp + fn))%Q.
Proof.
  destruct tp as [|tp].
  - simpl. destruct (fp + fn); destruct fp; destruct fn; reflexivity.
  - rewrite (proj2 (prf_divide_spec (2 * S tp) (2 * S tp + fp + fn))) by lia.
    rewrite (proj2 (prf_divide_spec (S tp) (S tp + fp))) by lia.
    rewrite (proj2 (prf_divide_spec (S tp) (S tp + fn))) by lia.
    rewrite !Nat2Z.inj_add, !Nat2Z.inj_mul, !inject_Z_plus, !inject_Z_mult.
    change (inject_Z (Z.of_nat 2)) with 2%Q.
    set (a := inject_Z (Z.of_nat (S tp))).
    set (b := inject_Z (Z.of_nat fp)).
    set (c := inject_Z (Z.of_nat fn)).
    assert (Ha : (0 < a)%Q).
    { unfold a. change 0%Q with (inject_Z 0). rewrite <- Zlt_Qlt. lia. }
    assert (Hb : (0 <= b)%Q).
    { unfold b. change 0%Q with (inject_Z 0). rewrite <- Zle_Qle. lia. }
    assert (Hc : (0 <= c)%Q).
    { unfold c. change 0%Q with (inject_Z 0). rewrite <- Zle_Qle. lia. }
    assert (Hab : ~ (a + b == 0)%Q).
    { intros E. apply (Qlt_not_le _ _ Ha). rewrite <- E.
      rewrite <- (Qplus_0_r a) at 1. now apply Qplus_le_r. }
    assert (Hac : ~ (a + c == 0)%Q).
    { intros E. apply (Qlt_not_le _ _ Ha). rewrite <- E.
      rewrite <- (Qplus_0_r a) at 1. now apply Qplus_le_r. }
    assert (Habc : ~ (2 * a + b + c == 0)%Q).
    { intros E. apply (Qlt_not_le _ _ Ha). rewrite <- E.
      setoid_replace (2 * a + b + c)%Q with (a + (a + b + c))%Q by ring.
      rewrite <- (Qplus_0_r a) at 1. apply Qplus_le_r.
      apply Qle_trans with (a + 0 + 0)%Q.
      - rewrite !Qplus_0_r. now apply Qlt_le_weak.
      - apply Qplus_le_compat; [apply Qplus_le_compat|];
          auto using Qle_refl. }
    field. auto.
Qed.

Lemma NoDup_two_classes : NoDup [Int 0; Int 1].
Proof.
  constructor; [simpl; intuition discriminate|].
  constructor; [simpl; tauto|constructor].
Qed.

(** Over the two classes, the rows predicted 1 are the true positives and
    the false positives, the rows that are 1 the true positives and the
    false negatives. *)
Lemma pred_sum_binary (y_true y_pred : list cell) :
  length y_true = length y_pred -> binary_labels y_true ->
  pred_sum (Int 1) y_pred =
  count_both (Int 1) (Int 1) y_true y_pred
  + count_both (Int 0) (Int 1) y_true y_pred.
Proof.
  intros Hlen Ht. rewrite <- (count_snd _ _ _ Hlen).
  rewrite <- (@sum_over_labels _ [Int 0; Int 1] _
                (fun tp => cell_eqb (snd tp) (Int 1)) fst).
  - unfold count_both, count_pairs. simpl. rewrite Nat.add_0_r, Nat.add_comm.
    f_equal; f_equal; apply filter_ext; intros tp; apply andb_comm.
  - apply NoDup_two_classes.
  - intros [a b] Hx. apply in_combine_l in Hx.
    unfold binary_labels in Ht. rewrite Forall_forall in Ht.
    destruct (Ht a Hx) as [-> | ->]; simpl; auto.
Qed.

Lemma true_sum_binary (y_true y_pred : list cell) :
  length y_true = length y_pred -> binary_labels y_pred ->
  true_sum (Int 1) y_true =
  count_both (Int 1) (Int 1) y_true y_pred
  + count_both (Int 1) (Int 0) y_true y_pred.
Proof.
  intros Hlen Hp. rewrite <- (count_fst _ _ _ Hlen).
  rewrite <- (@sum_over_labels _ [Int 0; Int 1] _
                (fun tp => cell_eqb (fst tp) (Int 1)) snd).
  - unfold count_both, count_pairs. simpl. rewrite Nat.add_0_r, Nat.add_comm. reflexivity.
  - apply NoDup_two_classes.
  - intros [a b] Hx. apply in_combine_r in Hx.
    unfold binary_labels in Hp. rewrite Forall_forall in Hp.
    destruct (Hp b Hx) as [-> | ->]; simpl; auto.
Qed.

(** C10.  For equal-length, non-empty label collections over the two
    classes, [model_evaluation_scores] returns: as accuracy the fraction of
    rows whose prediction equals the true label; as precision, recall and F1
    the scores of label 1, that is tp / (tp + fp), tp / (tp + fn) and
    2 tp / (2 tp + fp + fn) with tp, fp, fn counted for label 1 (and 0 where
    a denominator is 0).  Label 1 is the class that the report names
    NON-SPAM: whenever [classification_rep] prints its lines, the NON-SPAM
    line carries these three scores. *)
Theorem model_evaluation_scores_positive_class (y_pred : list cell)
    (y_test : Series) :
  let y_true := s_values y_test in
  length y_pred = length y_true -> y_true <> [] ->
  binary_labels y_true -> binary_labels y_pred ->
  let tp := count_both (Int 1) (Int 1) y_true y_pred in
  let fp := count_both (Int 0) (Int 1) y_true y_pred in
  let fn := count_both (Int 1) (Int 0) y_true y_pred in
  let precision := prf_divide tp (tp + fp) in
  let recall := prf_divide tp (tp + fn) in
  let f1 := prf_divide (2 * tp) (2 * tp + fp + fn) in
  model_evaluation_scores y_pred y_test =
    ok (finite (prf_divide (count_matching y_true y_pred) (length y_true)),
        finite precision, finite recall, finite f1) /\
  forall lines, classification_rep y_pred y_test = ok lines ->
    exists spam non_spam,
      lines = [spam; non_spam] /\
      target_name spam = "SPAM"%string /\
      target_name non_spam = "NON-SPAM"%string /\
      line_precision non_spam = precision /\
      line_recall non_spam = recall /\
      line_f1 non_spam = f1 /\
      line_support non_spam = tp + fn.
Proof.
  intros y_true Hlen Hne Ht Hp tp fp fn precision recall f1.
  symmetry in Hlen.
  assert (Hps : pred_sum (Int 1) y_pred = tp + fp)
    by now apply pred_sum_binary.
  assert (Hts : true_sum (Int 1) y_true = tp + fn)
    by now apply true_sum_binary.
  split.
  - unfold model_evaluation_scores, accuracy_score, precision_score,
      recall_score, f1_score. fold y_true.
    rewrite check_targets_binary, check_binary_ok by assumption. simpl.
    destruct y_true as [|c t] eqn:E; [contradiction|]. rewrite <- E in *.
    simpl length. rewrite E at 1. simpl length.
    unfold precision_for, recall_for, f1_for, pos_label.
    fold tp. rewrite Hps, Hts.
    replace (tp + fn + (tp + fp)) with (2 * tp + fp + fn) by lia.
    rewrite E. reflexivity.
  - intros lines. unfold classification_rep, classification_report.
    fold y_true. rewrite check_targets_binary by assumption. simpl.
    rewrite (unique_binary (binary_labels_app Ht Hp)).
    destruct (in_dec cell_eq_dec (Int 0) (y_true ++ y_pred));
      destruct (in_dec cell_eq_dec (Int 1) (y_true ++ y_pred)); simpl;
      try discriminate.
    intros H. inversion H. clear H. do 2 eexists.
    split; [reflexivity|]. simpl.
    unfold precision_for, recall_for, f1_for. fold tp. rewrite Hps, Hts.
    replace (tp + fn + (tp + fp)) with (2 * tp + fp + fn) by lia.
    repeat split; reflexivity.
Qed.

Lemma model_evaluation_scores_positive_class_witness :
  model_evaluation_scores [Int 1; Int 1; Int 0] (series_of [Int 1; Int 0; Int 0])
  = ok (finite (2 # 3), finite (1 # 2), finite 1, finite (2 # 3)).
Proof.
  destruct (@model_evaluation_scores_positive_class
              [Int 1; Int 1; Int 0] (series_of [Int 1; Int 0; Int 0]))
    as [Hscores _].
  - reflexivity.
  - discriminate.
  - literal_labels.
  - literal_labels.
  - exact Hscores.
Defined.

(** With label 0 as the positive class the same predictions would score
    differently. *)
Example scores_of_the_spam_class :
  let y_true := [Int 1; Int 0; Int 0] in
  let y_pred := [Int 1; Int 1; Int 0] in
  precision_for (Int 0) y_true y_pred = 1%Q /\
  recall_for (Int 0) y_true y_pred = (1 # 2)%Q /\
  precision_for pos_label y_true y_pred = (1 # 2)%Q /\
  recall_for pos_label y_true y_pred = 1%Q.
Proof. repeat split. Qed.

(** ** The pipeline on six comments

    Cleaning keeps the six rows; vectorizing adds one column for each of the
    26 distinct words of two letters or more (the one-letter word is no
    token); holding out a fraction of 0.33 puts two rows in the test set. *)
Example six_comments_scenario :
  exists out w',
    (cleaned_data <- data_cleaning_encoding 0 ;;
     vectorizing ascii_analyzer cleaned_data) (store_of six_comments)
    = (ok 1, w') /\
    stdout w' = [] /\
    nth_error (heap w') 1 = Some out /\
    nrows out = 6 /\
    length (columns out) = 4 + 26 /\
    ~ In "a"%string (columns out) /\
    validate_shuffle_split (nrows out) (Fraction (33 # 100)) = ok (4, 2).
Proof.
  eexists. eexists. split; [vm_compute; reflexivity|].
  repeat split. simpl. intuition discriminate.
Qed.

(** ** Cleaning: what is printed *)

Lemma select_any_length {A} (m : list bool) (l : list A) :
  length m = length l -> any m = true -> 1 <= length (select m l).
Proof.
  unfold any. revert l.
  induction m as [|b m IH]; intros [|x t] H E; simpl in *; try discriminate.
  destruct b; simpl; [lia|]. apply IH; [lia|exact E].
Qed.

Lemma select_none_length {A} (m : list bool) (l : list A) :
  any m = false -> length (select m l) = 0.
Proof.
  unfold any. revert l.
  induction m as [|b m IH]; intros [|x t] E; simpl in *; try reflexivity.
  destruct b; simpl in *; [discriminate|]. now apply IH.
Qed.

(** The line a removal step prints, for the number of rows it found. *)
Lemma missing_values_lines_found (df : DataFrame) :
  let k := length (filter (existsb isnull) (values df)) in
  missing_values_lines df =
    (if k =? 0 then []
     else [("Found " ++ str_of_nat k
            ++ " rows with null values.. Removing them...")%string]) /\
  nrows (without_nulls df) + k = nrows df.
Proof.
  intros k. unfold missing_values_lines, without_nulls, nrows.
  assert (Hk : length (select (isnull_any_axis1 df) (values df)) = k).
  { unfold isnull_any_axis1. now rewrite select_map_filter. }
  pose proof (select_complement_length (isnull_any_axis1 df) (values df)) as Hc.
  unfold isnull_any_axis1 in Hc at 1. rewrite length_map in Hc.
  specialize (Hc eq_refl).
  destruct (any (isnull_any_axis1 df)) eqn:E; simpl.
  - pose proof (@select_any_length _ (isnull_any_axis1 df) (values df)) as H1.
    unfold isnull_any_axis1 in H1 at 1. rewrite length_map in H1.
    specialize (H1 eq_refl E). rewrite Hk in *.
    destruct (Nat.eqb_spec k 0) as [H0|H0]; [lia|]. split; [reflexivity|lia].
  - pose proof (select_none_length (isnull_any_axis1 df) (values df) E) as H0.
    rewrite Hk in H0. rewrite H0. simpl. split; [reflexivity|lia].
Qed.

Lemma duplicates_lines_found (df : DataFrame) :
  let m := nrows df - nrows (without_duplicates df) in
  duplicates_lines df =
    (if m =? 0 then []
     else [("Found " ++ str_of_nat m
            ++ " duplicate rows.. Removing them...")%string]) /\
  nrows (without_duplicates df) + m = nrows df.
Proof.
  intros m. subst m. unfold duplicates_lines, without_duplicates, nrows.
  pose proof (select_complement_length (duplicated df) (values df)) as Hc.
  unfold duplicated in Hc at 1. rewrite duplicated_from_length in Hc.
  specialize (Hc eq_refl).
  destruct (any (duplicated df)) eqn:E; simpl.
  - pose proof (@select_any_length _ (duplicated df) (values df)) as H1.
    unfold duplicated in H1 at 1. rewrite duplicated_from_length in H1.
    specialize (H1 eq_refl E).
    destruct (Nat.eqb_spec
                (length (values df)
                 - length (select (map negb (duplicated df)) (values df))) 0)
      as [H0|H0]; [lia|].
    split; [|lia]. repeat f_equal. lia.
  - rewrite Nat.sub_diag. simpl. split; [reflexivity|lia].
Qed.

(** X1.  The lines [data_cleaning_encoding] prints account for every row it
    removes.  With [k] the number of input rows that hold a missing value
    and [m] the number of further rows missing from the returned table, the
    call prints "Found k rows with null values.. Removing them..." exactly
    when [k] is not 0, then "Found m duplicate rows.. Removing them..."
    exactly when [m] is not 0, and nothing else; [k + m] is the number of
    rows removed. *)
Theorem data_cleaning_encoding_prints (l l' : loc) (w w' : world)
    (df : DataFrame) :
  nth_error (heap w) l = Some df ->
  data_cleaning_encoding l w = (ok l', w') ->
  exists out,
    nth_error (heap w') l' = Some out /\
    let k := length (filter (existsb isnull) (values df)) in
    let m := nrows df - k - nrows out in
    stdout w' =
      stdout w
      ++ (if k =? 0 then []
          else [("Found " ++ str_of_nat k
                 ++ " rows with null values.. Removing them...")%string])
      ++ (if m =? 0 then []
          else [("Found " ++ str_of_nat m
                 ++ " duplicate rows.. Removing them...")%string]) /\
    nrows out + k + m = nrows df.
Proof.
  intros Hl Hrun.
  destruct (@data_cleaning_encoding_ok_inv l l' w w' df Hl Hrun) as [-> [out [Hc ->]]].
  exists out. split; [apply at_loc_lookup, (nth_error_bound Hl)|].
  destruct (@cleaned_inv df out Hc) as [pA [pV [_ [_ [_ [_ [_ [_ ->]]]]]]]].
  rewrite cleaned_form_nrows. simpl.
  destruct (missing_values_lines_found df) as [H1 H2].
  destruct (duplicates_lines_found (without_nulls df)) as [H3 H4].
  fold (retained df) in H3, H4. cbv zeta in *.
  unfold cleaning_lines. rewrite H1, H3.
  replace (nrows df - length (filter (existsb isnull) (values df))
           - nrows (retained df))
    with (nrows (without_nulls df) - nrows (retained df)) by lia.
  split; [reflexivity|lia].
Qed.

Lemma data_cleaning_encoding_prints_witness :
  exists out,
    nth_error (heap (snd (data_cleaning_encoding 0 (store_of raw_toy)))) 0
      = Some out /\
    stdout (snd (data_cleaning_encoding 0 (store_of raw_toy))) =
      ["Found 1 rows with null values.. Removing them...";
       "Found 1 duplicate rows.. Removing them..."]%string /\
    nrows out + 1 + 1 = 4.
Proof.
  pose (w' := snd (data_cleaning_encoding 0 (store_of raw_toy))).
  assert (Hrun : data_cleaning_encoding 0 (store_of raw_toy) = (ok 0, w'))
    by (vm_compute; reflexivity).
  destruct (@data_cleaning_encoding_prints 0 0 (store_of raw_toy) w' raw_toy
              eq_refl Hrun) as [out [Hout [Hp Hn]]].
  exists out. split; [exact Hout|]. split.
  - fold w'. rewrite Hp. vm_compute in Hout. inversion Hout. subst out.
    vm_compute. reflexivity.
  - vm_compute in Hout. inversion Hout. subst out. vm_compute. reflexivity.
Defined.

(** ** Cleaning: where a failing call stops *)

(** The table in which the AUTHOR cells, at position [pA], are replaced by
    their codes. *)
Lemma setitem_author (x : DataFrame) (pA : nat) :
  position "AUTHOR" (columns x) = Some pA ->
  let authors := map (fun r => nth pA r NaN) (values x) in
  setitem x "AUTHOR" (map (fun v => Int (Z.of_nat (rank v authors))) authors) =
  ok {| index := index x; columns := columns x;
        values := map (fun r => replace_nth pA
                     (Int (Z.of_nat (rank (nth pA r NaN) authors))) r)
                    (values x) |}.
Proof.
  intros HA authors. subst authors. rewrite map_map.
  now rewrite (@setitem_present _ _ pA) by exact HA.
Qed.

Section Stops.
Variable l : loc.
Variable h : list DataFrame.
Hypothesis l_bound : l < length h.

(** The encoding block, step by step: what it raises and what it leaves
    behind the reference. *)
Lemma bind_encode_string_columns_left {B} (k : unit -> M B) (x : DataFrame)
    (o : list string) :
  bind (encode_string_columns l) k (at_loc l h x o) =
  match position "AUTHOR" (columns x) with
  | None => (raise (KeyError ["AUTHOR"%string]), at_loc l h x o)
  | Some pA =>
      let authors := map (fun r => nth pA r NaN) (values x) in
      if mixed authors then (raise TypeError, at_loc l h x o)
      else
        let x1 :=
          {| index := index x; columns := columns x;
             values := map (fun r => replace_nth pA
                          (Int (Z.of_nat (rank (nth pA r NaN) authors))) r)
                         (values x) |} in
        match position "VIDEO_NAME" (columns x) with
        | None => (raise (KeyError ["VIDEO_NAME"%string]), at_loc l h x1 o)
        | Some pV =>
            let videos := map (fun r => nth pV r NaN) (values x) in
            if mixed videos then (raise TypeError, at_loc l h x1 o)
            else k tt (at_loc l h
                   {| index := index x; columns := columns x;
                      values := map (encode_row pA pV authors videos)
                                    (values x) |} o)
        end
  end.
Proof.
  unfold encode_string_columns.
  rewrite bind_bind, bind_getitem_at by exact l_bound. unfold getitem.
  destruct (position "AUTHOR" (columns x)) as [pA|] eqn:HA; [|reflexivity].
  cbv zeta. simpl s_values.
  rewrite bind_bind, bind_lift.
  destruct (mixed (map (fun r => nth pA r NaN) (values x))) eqn:HmA.
  { now rewrite fit_transform_mixed. }
  rewrite fit_transform_rank by exact HmA. simpl fst. simpl snd.
  rewrite bind_bind, bind_setitem_at by exact l_bound.
  rewrite (setitem_author _ HA).
  rewrite bind_bind, bind_getitem_at by exact l_bound. unfold getitem.
  simpl columns.
  destruct (position "VIDEO_NAME" (columns x)) as [pV|] eqn:HV; [|reflexivity].
  simpl s_values. simpl values. rewrite map_map.
  assert (Hne : pA <> pV).
  { intros ->. pose proof (position_inj _ _ _ HA HV). discriminate. }
  erewrite (map_ext (fun r => nth pV (replace_nth pA _ r) NaN))
    by (intros r; apply nth_replace_nth_neq, Hne).
  rewrite bind_bind, bind_lift.
  destruct (mixed (map (fun r => nth pV r NaN) (values x))) eqn:HmV.
  { now rewrite fit_transform_mixed. }
  rewrite fit_transform_rank by exact HmV. simpl fst.
  rewrite bind_setitem_at by exact l_bound.
  rewrite map_map.
  rewrite (@setitem_map _ _ _ _ pV) by exact HV. reflexivity.
Qed.

(** The whole function, with the table each failure leaves behind. *)
Lemma data_cleaning_encoding_stops (x : DataFrame) (o : list string) :
  let d := retained x in
  let o' := o ++ cleaning_lines x in
  data_cleaning_encoding l (at_loc l h x o) =
  match position "AUTHOR" (columns x) with
  | None => (raise (KeyError ["AUTHOR"%string]), at_loc l h d o')
  | Some pA =>
      let authors := map (fun r => nth pA r NaN) (values d) in
      if mixed authors then (raise TypeError, at_loc l h d o')
      else
        let d1 :=
          {| index := index d; columns := columns x;
             values := map (fun r => replace_nth pA
                          (Int (Z.of_nat (rank (nth pA r NaN) authors))) r)
                         (values d) |} in
        match position "VIDEO_NAME" (columns x) with
        | None => (raise (KeyError ["VIDEO_NAME"%string]), at_loc l h d1 o')
        | Some pV =>
            let videos := map (fun r => nth pV r NaN) (values d) in
            if mixed videos then (raise TypeError, at_loc l h d1 o')
            else
              let d2 :=
                {| index := index d; columns := columns x;
                   values := map (encode_row pA pV authors videos)
                                 (values d) |} in
              if negb (mem_string "DATE" (columns x))
              then (raise (KeyError ["DATE"%string]), at_loc l h d2 o')
              else
                let k1 := keep_but ["DATE"%string] (columns x) in
                let d3 :=
                  {| index := index d; columns := select k1 (columns x);
                     values := map (select k1) (values d2) |} in
                if negb (mem_string "COMMENT_ID" (columns x))
                then (raise (KeyError ["COMMENT_ID"%string]), at_loc l h d3 o')
                else (ok l, at_loc l h (cleaned_form x pA pV) o')
        end
  end.
Proof.
  intros d o'. subst d o'.
  unfold data_cleaning_encoding, cleaning_lines.
  rewrite bind_handle_missing_values, bind_handle_duplicates by exact l_bound.
  fold (retained x). rewrite <- app_assoc.
  rewrite bind_encode_string_columns_left. rewrite retained_columns.
  destruct (position "AUTHOR" (columns x)) as [pA|] eqn:HA; [|reflexivity].
  cbv zeta.
  destruct (mixed (map (fun r => nth pA r NaN) (values (retained x))));
    [reflexivity|].
  destruct (position "VIDEO_NAME" (columns x)) as [pV|] eqn:HV; [|reflexivity].
  destruct (mixed (map (fun r => nth pV r NaN) (values (retained x))));
    [reflexivity|].
  unfold remove_unnecessary_features.
  rewrite bind_bind, bind_drop_columns_inplace by exact l_bound.
  destruct (mem_string "DATE" (columns x)) eqn:HD; simpl negb; cbv iota.
  2:{ apply mem_string_not_In in HD.
      now rewrite drop_columns_absent by exact HD. }
  apply mem_string_In in HD.
  rewrite drop_columns_present by exact HD. simpl columns. simpl values.
  rewrite bind_drop_columns_inplace by exact l_bound.
  destruct (mem_string "COMMENT_ID" (columns x)) eqn:HC; simpl negb; cbv iota.
  2:{ apply mem_string_not_In in HC.
      rewrite drop_columns_absent; [reflexivity|].
      simpl. rewrite keep_but_In. tauto. }
  apply mem_string_In in HC.
  rewrite drop_columns_present
    by (simpl; apply keep_but_In; split; [exact HC|simpl; intuition discriminate]).
  rewrite bind_reset_index_inplace by exact l_bound.
  unfold ret. f_equal. f_equal.
  unfold cleaned_form, reset_index, nrows. simpl.
  rewrite !map_map, length_map. reflexivity.
Qed.
End Stops.

(** X3.  A table that lacks one of AUTHOR, VIDEO_NAME, DATE, COMMENT_ID makes
    [data_cleaning_encoding] raise the missing-column error for the first of
    them, in this order, that is absent (CONTENT and CLASS are not looked
    at).  The call is not undone: by then the removal lines are printed and
    the object behind the reference has lost its incomplete and repeated
    rows, still under their old row labels, and, where COMMENT_ID is the
    absent column, its DATE column as well. *)
Theorem data_cleaning_encoding_missing_column (l : loc) (w : world)
    (df : DataFrame) (name : string) :
  nth_error (heap w) l = Some df ->
  text_column df "AUTHOR" -> text_column df "VIDEO_NAME" ->
  find (fun c => negb (mem_string c (columns df)))
       ["AUTHOR"; "VIDEO_NAME"; "DATE"; "COMMENT_ID"]%string = Some name ->
  exists w' left,
    data_cleaning_encoding l w = (raise (KeyError [name]), w') /\
    nth_error (heap w') l = Some left /\
    stdout w' = stdout w ++ cleaning_lines df /\
    nrows left = nrows (retained df) /\
    index left = index (retained df) /\
    columns left =
      (if String.eqb name "COMMENT_ID"
       then filter (fun c => negb (String.eqb c "DATE")) (columns df)
       else columns df).
Proof.
  intros Hl HtA HtV Hfind. pose proof (nth_error_bound Hl) as Hb.
  rewrite (at_loc_found Hl).
  rewrite (@data_cleaning_encoding_stops l (heap w) Hb df (stdout w)).
  cbv zeta. simpl in Hfind.
  destruct (position "AUTHOR" (columns df)) as [pA|] eqn:HA.
  2:{ destruct (mem_string "AUTHOR" (columns df)) eqn:E.
      - apply mem_string_In, position_In in E. destruct E as [p E]. congruence.
      - simpl in Hfind. inversion Hfind. subst name.
        eexists; eexists. split; [reflexivity|].
        split; [now apply at_loc_lookup|]. simpl.
        rewrite retained_columns. auto. }
  assert (EA : mem_string "AUTHOR" (columns df) = true).
  { apply mem_string_In. apply position_Some in HA. destruct HA as [H1 H2].
    rewrite <- H2. now apply nth_In. }
  rewrite EA in Hfind. simpl in Hfind.
  rewrite (text_column_not_mixed HA HtA).
  destruct (position "VIDEO_NAME" (columns df)) as [pV|] eqn:HV.
  2:{ destruct (mem_string "VIDEO_NAME" (columns df)) eqn:E.
      - apply mem_string_In, position_In in E. destruct E as [p E]. congruence.
      - simpl in Hfind. inversion Hfind. subst name.
        eexists; eexists. split; [reflexivity|].
        split; [now apply at_loc_lookup|]. simpl.
        unfold nrows. simpl. rewrite length_map. auto. }
  assert (EV : mem_string "VIDEO_NAME" (columns df) = true).
  { apply mem_string_In. apply position_Some in HV. destruct HV as [H1 H2].
    rewrite <- H2. now apply nth_In. }
  rewrite EV in Hfind. simpl in Hfind.
  rewrite (text_column_not_mixed HV HtV).
  destruct (mem_string "DATE" (columns df)) eqn:ED; simpl in Hfind |- *.
  2:{ inversion Hfind. subst name.
      eexists; eexists. split; [reflexivity|].
      split; [now apply at_loc_lookup|]. simpl.
      unfold nrows. simpl. rewrite length_map. auto. }
  destruct (mem_string "COMMENT_ID" (columns df)) eqn:EC; simpl in Hfind |- *;
    [discriminate|].
  inversion Hfind. subst name.
  eexists; eexists. split; [reflexivity|].
  split; [now apply at_loc_lookup|]. simpl.
  unfold nrows. simpl. rewrite !length_map.
  repeat split; try reflexivity.
  unfold keep_but. rewrite select_map_filter.
  apply filter_ext. intros c. unfold mem_string. simpl.
  now rewrite orb_false_r.
Qed.

Lemma data_cleaning_encoding_missing_column_witness :
  exists w' left,
    data_cleaning_encoding 0 (store_of raw_without_comment_id) =
      (raise (KeyError ["COMMENT_ID"%string]), w') /\
    nth_error (heap w') 0 = Some left /\
    nrows left = 2 /\
    columns left = ["AUTHOR"; "CONTENT"; "VIDEO_NAME"; "CLASS"]%string.
Proof.
  assert (HtA : text_column raw_without_comment_id "AUTHOR")
    by (unfold text_column; vm_compute; repeat constructor).
  assert (HtV : text_column raw_without_comment_id "VIDEO_NAME")
    by (unfold text_column; vm_compute; repeat constructor).
  destruct (@data_cleaning_encoding_missing_column 0
              (store_of raw_without_comment_id) raw_without_comment_id
              "COMMENT_ID" eq_refl HtA HtV eq_refl)
    as (w' & left & Hrun & Hleft & _ & Hn & _ & Hc).
  exists w', left. repeat split; assumption.
Defined.

(** X4.  Text and numbers in one column to encode cannot be ordered: if the
    AUTHOR cells of the rows that are kept hold both,
    [data_cleaning_encoding] raises the type error and leaves the table
    with its rows removed and nothing encoded; if AUTHOR is uniform and the
    VIDEO_NAME cells hold both, it raises the type error after AUTHOR has
    been overwritten by its codes, VIDEO_NAME still as it was.  Only the
    rows that are kept count. *)
Theorem data_cleaning_encoding_mixed_column (l : loc) (w : world)
    (df : DataFrame) :
  nth_error (heap w) l = Some df -> well_formed df ->
  In "AUTHOR"%string (columns df) ->
  let authors := column_values (retained df) "AUTHOR" in
  let videos := column_values (retained df) "VIDEO_NAME" in
  (mixed authors = true ->
   exists w',
     data_cleaning_encoding l w = (raise TypeError, w') /\
     nth_error (heap w') l = Some (retained df)) /\
  (mixed authors = false -> In "VIDEO_NAME"%string (columns df) ->
   mixed videos = true ->
   exists w' left,
     data_cleaning_encoding l w = (raise TypeError, w') /\
     nth_error (heap w') l = Some left /\
     column_values left "AUTHOR" =
       map (fun v => Int (Z.of_nat (rank v authors))) authors /\
     column_values left "VIDEO_NAME" = videos /\
     columns left = columns df).
Proof.
  intros Hl Hwf HinA authors videos. pose proof (nth_error_bound Hl) as Hb.
  destruct (position_In _ _ HinA) as [pA HA].
  assert (EA : authors = map (fun r => nth pA r NaN) (values (retained df))).
  { subst authors. apply column_values_position. now rewrite retained_columns. }
  rewrite (at_loc_found Hl).
  rewrite (@data_cleaning_encoding_stops l (heap w) Hb df (stdout w)).
  cbv zeta. rewrite HA, <- EA. split.
  - intros Hm. rewrite Hm. eexists. split; [reflexivity|].
    now apply at_loc_lookup.
  - intros Hm HinV HmV. rewrite Hm.
    destruct (position_In _ _ HinV) as [pV HV]. rewrite HV.
    assert (EV : videos = map (fun r => nth pV r NaN) (values (retained df))).
    { subst videos. apply column_values_position. now rewrite retained_columns. }
    rewrite <- EV, HmV.
    eexists; eexists. split; [reflexivity|].
    split; [now apply at_loc_lookup|].
    pose proof (well_formed_retained Hwf) as [_ Hr].
    rewrite retained_columns, Forall_forall in Hr.
    assert (Hne : pA <> pV).
    { intros ->. pose proof (position_inj _ _ _ HA HV). discriminate. }
    split; [|split; [|reflexivity]].
    + rewrite (@column_values_position _ _ pA) by exact HA. simpl.
      rewrite map_map, EA, map_map. apply map_ext_in. intros r Hin.
      apply nth_replace_nth_eq. rewrite (Hr r Hin).
      now apply position_Some in HA.
    + rewrite (@column_values_position _ _ pV) by exact HV. simpl.
      rewrite map_map, EV. apply map_ext. intros r.
      apply nth_replace_nth_neq, Hne.
Qed.

Lemma data_cleaning_encoding_mixed_column_witness :
  (exists w',
     data_cleaning_encoding 0 (store_of raw_numbered_author) =
       (raise TypeError, w') /\
     nth_error (heap w') 0 = Some (retained raw_numbered_author)) /\
  (exists w' left,
     data_cleaning_encoding 0 (store_of raw_numbered_video) =
       (raise TypeError, w') /\
     nth_error (heap w') 0 = Some left /\
     column_values left "AUTHOR" = [Int 1; Int 0] /\
     column_values left "VIDEO_NAME" = [Str "v1"; Int 2]).
Proof.
  split.
  - assert (Hwf : well_formed raw_numbered_author) by literal_table.
    assert (Hin : In "AUTHOR"%string (columns raw_numbered_author))
      by (simpl; tauto).
    exact (proj1 (@data_cleaning_encoding_mixed_column 0
                    (store_of raw_numbered_author) raw_numbered_author
                    eq_refl Hwf Hin) eq_refl).
  - assert (Hwf : well_formed raw_numbered_video) by literal_table.
    assert (Hin : In "AUTHOR"%string (columns raw_numbered_video))
      by (simpl; tauto).
    assert (HinV : In "VIDEO_NAME"%string (columns raw_numbered_video))
      by (simpl; tauto).
    destruct (proj2 (@data_cleaning_encoding_mixed_column 0
                       (store_of raw_numbered_video) raw_numbered_video
                       eq_refl Hwf Hin) eq_refl HinV eq_refl)
      as (w' & left & Hrun & Hleft & HA & HV & _).
    exists w', left. repeat split; assumption.
Defined.

(** ** Cleaning: which rows are kept, and the columns that pass through *)

Lemma first_complete_length (seen rows : list (list cell)) :
  length (first_complete seen rows) = length rows.
Proof.
  revert seen. induction rows as [|r t IH]; intros seen; simpl; [reflexivity|].
  now rewrite IH.
Qed.

Lemma select_map {A B} (g : A -> B) (m : list bool) (l : list A) :
  select m (map g l) = map g (select m l).
Proof.
  revert l. induction m as [|b m IH]; intros [|x t]; simpl; try reflexivity.
  destruct b; simpl; now rewrite IH.
Qed.

Lemma without_nulls_values (df : DataFrame) :
  values (without_nulls df) =
  filter (fun r => negb (existsb isnull r)) (values df).
Proof.
  unfold without_nulls.
  assert (H : values (dropna df) =
              filter (fun r => negb (existsb isnull r)) (values df)).
  { unfold dropna, isnull_any_axis1. simpl.
    now rewrite map_map, select_map_filter. }
  destruct (any (isnull_any_axis1 df)) eqn:E; [exact H|].
  rewrite <- H. unfold dropna. simpl. symmetry.
  apply select_all; [exact E|].
  unfold isnull_any_axis1. rewrite length_map. lia.
Qed.

Lemma without_duplicates_values (df : DataFrame) :
  values (without_duplicates df) =
  select (map negb (duplicated df)) (values df).
Proof.
  unfold without_duplicates.
  destruct (any (duplicated df)) eqn:E; [reflexivity|].
  symmetry. apply select_all; [exact E|].
  unfold duplicated. rewrite duplicated_from_length. lia.
Qed.

Lemma existsb_row_eqb_agree (r : list cell) (s1 s2 : list (list cell)) :
  (In r s1 <-> In r s2) ->
  existsb (row_eqb r) s1 = existsb (row_eqb r) s2.
Proof.
  intros H.
  destruct (existsb (row_eqb r) s1) eqn:E1;
    destruct (existsb (row_eqb r) s2) eqn:E2; try reflexivity.
  - apply existsb_row_eqb, H, existsb_row_eqb in E1. congruence.
  - apply existsb_row_eqb, H, existsb_row_eqb in E2. congruence.
Qed.

(** Flagging repeated rows among the complete rows is the same as flagging,
    among all rows, the complete ones not seen before. *)
Lemma first_complete_select (seen seen' rows : list (list cell)) :
  (forall r, existsb isnull r = false -> (In r seen <-> In r seen')) ->
  let complete := filter (fun r => negb (existsb isnull r)) rows in
  select (map negb (duplicated_from seen complete)) complete =
  select (first_complete seen' rows) rows.
Proof.
  revert seen seen'.
  induction rows as [|r t IH]; intros seen seen' Hs; simpl; [reflexivity|].
  destruct (existsb isnull r) eqn:En; simpl.
  - apply IH. intros x Hx. rewrite (Hs x Hx). simpl. split; [auto|].
    intros [<-|H]; [congruence|exact H].
  - rewrite (existsb_row_eqb_agree r seen seen' (Hs r En)).
    assert (Hs' : forall x, existsb isnull x = false ->
                            (In x (r :: seen) <-> In x (r :: seen'))).
    { intros x Hx. simpl. rewrite (Hs x Hx). tauto. }
    specialize (IH (r :: seen) (r :: seen') Hs'). simpl in IH.
    destruct (existsb (row_eqb r) seen'); simpl; now rewrite IH.
Qed.

Lemma retained_values (df : DataFrame) :
  values (retained df) = select (first_complete [] (values df)) (values df).
Proof.
  unfold retained. rewrite without_duplicates_values. unfold duplicated.
  rewrite without_nulls_values.
  apply (first_complete_select [] [] (values df)). tauto.
Qed.

Lemma first_complete_nth (seen rows : list (list cell)) (i : nat) :
  i < length rows ->
  (nth i (first_complete seen rows) false = true <->
   existsb isnull (nth i rows []) = false /\
   ~ In (nth i rows []) seen /\
   forall j, j < i -> nth j rows [] <> nth i rows []).
Proof.
  revert seen i. induction rows as [|r t IH]; intros seen i Hi;
    [simpl in Hi; lia|].
  destruct i as [|i]; simpl.
  - rewrite andb_true_iff, !negb_true_iff.
    rewrite <- (existsb_row_eqb r seen).
    destruct (existsb (row_eqb r) seen); split.
    + intros [_ H]. discriminate.
    + intros [_ [H _]]. destruct H. reflexivity.
    + intros [H _]. repeat split; [exact H|discriminate|lia].
    + intros [H _]. auto.
  - simpl in Hi. rewrite (IH (r :: seen) i) by lia. simpl. split.
    + intros [H1 [H2 H3]]. repeat split; [exact H1|tauto|].
      intros [|j] Hj; [tauto|]. apply H3. lia.
    + intros [H1 [H2 H3]]. repeat split; [exact H1| |].
      * intros [E|E]; [|contradiction]. apply (H3 0); [lia|exact E].
      * intros j Hj. apply (H3 (S j)). lia.
Qed.

(** X2.  [data_cleaning_encoding] keeps exactly the input rows that hold no
    missing value and equal no earlier input row, in their input order, and
    numbers them afresh from 0; every column other than AUTHOR, VIDEO_NAME,
    DATE and COMMENT_ID (CONTENT and CLASS in particular) passes through
    with the cells of the rows that are kept, unchanged. *)
Theorem data_cleaning_encoding_keeps_other_columns (l l' : loc) (w w' : world)
    (df : DataFrame) :
  nth_error (heap w) l = Some df -> well_formed df ->
  data_cleaning_encoding l w = (ok l', w') ->
  exists out kept,
    nth_error (heap w') l' = Some out /\
    length kept = nrows df /\
    (forall i, i < nrows df ->
       (nth i kept false = true <->
        Forall (fun c => c <> NaN) (nth i (values df) []) /\
        forall j, j < i -> nth j (values df) [] <> nth i (values df) [])) /\
    values (retained df) = select kept (values df) /\
    nrows out = length (filter (fun b => b) kept) /\
    index out = seq 0 (nrows out) /\
    forall name, In name (columns df) ->
      ~ In name ["AUTHOR"; "VIDEO_NAME"; "DATE"; "COMMENT_ID"]%string ->
      column_values out name = select kept (column_values df name).
Proof.
  intros Hl Hwf Hrun.
  destruct (@data_cleaning_encoding_ok_inv l l' w w' df Hl Hrun)
    as [-> [out [Hout ->]]].
  destruct (@cleaned_inv df out Hout) as (pA & pV & HA & HV & _ & _ & _ & _ & ->).
  exists (cleaned_form df pA pV), (first_complete [] (values df)).
  split; [apply at_loc_lookup, (nth_error_bound Hl)|].
  split; [apply first_complete_length|].
  split.
  { intros i Hi. rewrite first_complete_nth by exact Hi.
    rewrite existsb_false_Forall.
    split.
    - intros [H1 [_ H3]]. split; [|exact H3].
      eapply Forall_impl; [|exact H1]. intros c. apply isnull_false.
    - intros [H1 H3]. split; [|split; [tauto|exact H3]].
      eapply Forall_impl; [|exact H1]. intros c. apply isnull_false. }
  split; [apply retained_values|].
  split.
  { rewrite cleaned_form_nrows. unfold nrows. rewrite retained_values.
    generalize (first_complete_length [] (values df)).
    generalize (first_complete [] (values df)). generalize (values df).
    intros rows m. revert rows.
    induction m as [|b m IH]; intros [|r t] H; simpl in *;
      try reflexivity; try discriminate.
    destruct b; simpl; rewrite IH by lia; reflexivity. }
  split.
  { rewrite cleaned_form_nrows. reflexivity. }
  intros name Hin Hnot.
  destruct (position_In _ _ Hin) as [p Hp].
  rewrite (@cleaned_form_column df pA pV p name Hwf Hp)
    by (intros ->; apply Hnot; simpl; tauto).
  rewrite (column_values_position _ _ Hp).
  rewrite select_map, <- retained_values.
  apply map_ext. intros r. apply encode_row_other.
  - intros ->. apply Hnot. rewrite (position_inj _ _ _ Hp HA). simpl. tauto.
  - intros ->. apply Hnot. rewrite (position_inj _ _ _ Hp HV). simpl. tauto.
Qed.

Lemma data_cleaning_encoding_keeps_other_columns_witness :
  exists out,
    nth_error (heap (snd (data_cleaning_encoding 0 (store_of raw_toy)))) 0
      = Some out /\
    index out = [0; 1] /\
    column_values out "CONTENT" =
      [Str "Buy cheap followers now"; Str "great video thanks"] /\
    column_values out "CLASS" = [Int 1; Int 0].
Proof.
  pose (w' := snd (data_cleaning_encoding 0 (store_of raw_toy))).
  assert (Hrun : data_cleaning_encoding 0 (store_of raw_toy) = (ok 0, w'))
    by (vm_compute; reflexivity).
  assert (Hwf : well_formed raw_toy) by literal_table.
  destruct (@data_cleaning_encoding_keeps_other_columns 0 0
              (store_of raw_toy) w' raw_toy eq_refl Hwf Hrun)
    as (out & kept & Hout & _ & _ & _ & _ & _ & _).
  exists out. split; [exact Hout|].
  vm_compute in Hout. inversion Hout. subst out.
  vm_compute. repeat split; reflexivity.
Defined.

(** ** The removal steps, run again *)

Lemma bind_ret_r {A} (m : M A) (w : world) : bind m ret w = m w.
Proof. unfold bind, ret. destruct (m w) as [[a|e] w']; reflexivity. Qed.

Lemma retained_again (df : DataFrame) : retained (retained df) = retained df.
Proof.
  assert (H1 : without_nulls (retained df) = retained df).
  { unfold without_nulls at 1.
    assert (E : any (isnull_any_axis1 (retained df)) = false).
    { unfold isnull_any_axis1. rewrite any_map.
      apply existsb_false_Forall. apply retained_complete. }
    now rewrite E. }
  unfold retained at 1. rewrite H1. unfold without_duplicates.
  now rewrite (@duplicated_NoDup (retained df) (retained_NoDup df)).
Qed.

Lemma lines_again (df : DataFrame) : cleaning_lines (retained df) = [].
Proof.
  unfold cleaning_lines, missing_values_lines.
  assert (E : any (isnull_any_axis1 (retained df)) = false).
  { unfold isnull_any_axis1. rewrite any_map.
    apply existsb_false_Forall. apply retained_complete. }
  rewrite E. simpl. unfold without_nulls. rewrite E.
  unfold duplicates_lines.
  now rewrite (@duplicated_NoDup (retained df) (retained_NoDup df)).
Qed.

(** X5.  The two removal steps of [data_cleaning_encoding] are idempotent:
    once they have run on a table, running them again on what they left
    removes no row and prints nothing, so the store stays as it is.  What
    they leave has no missing value and no repeated row. *)
Theorem removal_steps_idempotent (l : loc) (w : world) (df : DataFrame) :
  nth_error (heap w) l = Some df ->
  let steps := handle_missing_values l ;; handle_duplicates l in
  exists w1 left,
    steps w = (ok tt, w1) /\
    nth_error (heap w1) l = Some left /\
    no_missing left /\ NoDup (values left) /\
    steps w1 = (ok tt, w1).
Proof.
  intros Hl steps. pose proof (nth_error_bound Hl) as Hb.
  exists (at_loc l (heap w) (retained df) (stdout w ++ cleaning_lines df)),
         (retained df).
  assert (Hstep : forall x o,
            steps (at_loc l (heap w) x o) =
            (ok tt, at_loc l (heap w) (retained x) (o ++ cleaning_lines x))).
  { intros x o. unfold steps.
    rewrite bind_handle_missing_values by exact Hb.
    rewrite <- bind_ret_r, bind_handle_duplicates by exact Hb.
    unfold cleaning_lines. now rewrite app_assoc. }
  split; [rewrite (at_loc_found Hl) at 1; apply Hstep|].
  split; [now apply at_loc_lookup|].
  split.
  { unfold no_missing. eapply Forall_impl; [|apply retained_complete].
    intros r Hr. rewrite existsb_false_Forall in Hr.
    eapply Forall_impl; [|exact Hr]. intros c. apply isnull_false. }
  split; [apply retained_NoDup|].
  rewrite Hstep, retained_again, lines_again, app_nil_r. reflexivity.
Qed.

Lemma removal_steps_idempotent_witness :
  exists w1 left,
    (handle_missing_values 0 ;; handle_duplicates 0) (store_of raw_toy)
      = (ok tt, w1) /\
    nth_error (heap w1) 0 = Some left /\
    (handle_missing_values 0 ;; handle_duplicates 0) w1 = (ok tt, w1).
Proof.
  destruct (@removal_steps_idempotent 0 (store_of raw_toy) raw_toy eq_refl)
    as (w1 & left & H1 & H2 & _ & _ & H3).
  exists w1, left. repeat split; assumption.
Defined.

(** ** [LabelEncoder]: decoding and encoding again *)

(** X6.  What [LabelEncoder.fit_transform] returns can be decoded: the
    fitted encoder holds the distinct values of the column in ascending
    order, and the value at the position that a code names is the value that
    was encoded.  The fitted encoder gives the same codes for the column
    again, and fitting and encoding the codes themselves returns the codes
    unchanged. *)
Theorem fit_transform_round_trip (le le' : LabelEncoder) (y codes : list cell) :
  fit_transform le y = ok (codes, le') ->
  exists classes,
    classes_ le' = Some classes /\
    StronglySorted (fun a b => cell_compare a b = Lt) classes /\
    (forall v, In v classes <-> In v y) /\
    map (fun c => match c with
                  | Int z => nth (Z.to_nat z) classes NaN
                  | _ => NaN
                  end) codes = y /\
    transform le' y = ok codes /\
    exists le'', fit_transform le' codes = ok (codes, le'').
Proof.
  intros H. destruct (@fit_transform_inv le le' y codes H) as [Hm Hc].
  rewrite (@fit_transform_rank le y Hm) in H. inversion H as [[E1 E2]].
  clear H E1. subst codes. exists (unique cell_compare y). simpl.
  split; [reflexivity|].
  split; [apply unique_cells_sorted|].
  split; [intros v; apply unique_cells_In|].
  split.
  { rewrite map_map. transitivity (map (fun v => v) y); [|apply map_id].
    apply map_ext_in.
    intros v Hv. rewrite Nat2Z.id.
    apply index_of_Some_nth. now apply index_of_unique. }
  split.
  { unfold transform. simpl. apply mapM_ok_map.
    intros v Hv. now rewrite index_of_unique. }
  set (C := map (fun v => Int (Z.of_nat (rank v y))) y).
  assert (HmC : mixed C = false).
  { apply all_int_not_mixed, Forall_forall. intros c Hc'.
    apply in_map_iff in Hc'. now destruct Hc' as [v [<- _]]. }
  eexists. rewrite (@fit_transform_rank _ C HmC). f_equal. f_equal.
  transitivity (map (fun v => v) C); [|apply map_id].
  apply map_ext_in. intros c Hc'.
  now apply rank_rank.
Qed.

Lemma fit_transform_round_trip_witness :
  exists classes,
    classes = [Str "alice"; Str "bob"] /\
    map (fun c => match c with
                  | Int z => nth (Z.to_nat z) classes NaN
                  | _ => NaN
                  end) [Int 1; Int 0; Int 1] = [Str "bob"; Str "alice"; Str "bob"].
Proof.
  destruct (@fit_transform_round_trip LabelEncoder_new
              {| classes_ := Some [Str "alice"; Str "bob"] |}
              [Str "bob"; Str "alice"; Str "bob"] [Int 1; Int 0; Int 1]
              eq_refl) as (classes & Hc & _ & _ & Hd & _).
  exists classes. split; [|exact Hd]. simpl in Hc. now inversion Hc.
Defined.

(** ** pandas: writing a column and reading it back *)

Lemma position_new (name : string) (cols : list string) :
  position name cols = None ->
  position name (cols ++ [name]) = Some (length cols).
Proof.
  induction cols as [|c t IH]; simpl.
  - now rewrite String.eqb_refl.
  - destruct (String.eqb name c); [discriminate|].
    destruct (position name t); [discriminate|].
    intros _. now rewrite IH.
Qed.

Lemma position_other_new (name other : string) (cols : list string) :
  other <> name ->
  position other (cols ++ [name]) = position other cols.
Proof.
  intros Hne. induction cols as [|c t IH]; simpl.
  - apply String.eqb_neq in Hne. now rewrite Hne.
  - destruct (String.eqb other c); [reflexivity|]. now rewrite IH.
Qed.

Lemma map_combine_snd {A B C} (g : B -> C) (l1 : list A) (l2 : list B) :
  length l1 = length l2 ->
  map (fun ab => g (snd ab)) (combine l1 l2) = map g l2.
Proof.
  revert l2. induction l1 as [|a t IH]; intros [|b u] H; simpl in *;
    try reflexivity; try discriminate.
  now rewrite IH by lia.
Qed.

Lemma map_combine_fst {A B} (l1 : list A) (l2 : list B) :
  length l1 = length l2 -> map fst (combine l1 l2) = l1.
Proof.
  revert l2. induction l1 as [|a t IH]; intros [|b u] H; simpl in *;
    try reflexivity; try discriminate.
  now rewrite IH by lia.
Qed.

(** X7.  Assigning a column and reading it back, [df[name] = values] then
    [df[name]]: the assignment needs one value per row (the value error
    otherwise); after it the column reads as the values assigned, every
    other column reads as before, and the columns are the same, or the same
    with the new name at the end when the table had no such column. *)
Theorem setitem_getitem (df : DataFrame) (name : string) (vals : list cell) :
  well_formed df ->
  (length vals <> nrows df -> setitem df name vals = raise ValueError) /\
  (length vals = nrows df ->
   exists df',
     setitem df name vals = ok df' /\
     getitem df' name = ok {| s_index := index df; s_values := vals |} /\
     (forall other, other <> name -> getitem df' other = getitem df other) /\
     columns df' =
       (if mem_string name (columns df) then columns df
        else columns df ++ [name]) /\
     well_formed df').
Proof.
  intros [Hidx Hrows]. rewrite Forall_forall in Hrows. split.
  - intros Hne. unfold setitem.
    destruct (Nat.eqb_spec (length vals) (nrows df)); [contradiction|reflexivity].
  - intros Hlen. unfold setitem. rewrite Hlen, Nat.eqb_refl. simpl negb.
    cbv iota.
    assert (Hpair : forall vr, In vr (combine vals (values df)) ->
                      length (snd vr) = length (columns df)).
    { intros [v r] Hvr. apply Hrows. eapply in_combine_r, Hvr. }
    destruct (position name (columns df)) as [p|] eqn:Hp.
    + eexists. split; [reflexivity|].
      assert (Hmem : mem_string name (columns df) = true).
      { apply mem_string_In. apply position_Some in Hp.
        destruct Hp as [Hp <-]. now apply nth_In. }
      rewrite Hmem.
      split; [|split; [|split; [reflexivity|]]].
      * unfold getitem. simpl. rewrite Hp. f_equal. f_equal.
        rewrite map_map.
        rewrite (map_ext_in _ fst).
        -- apply map_combine_fst. exact Hlen.
        -- intros vr Hvr. apply nth_replace_nth_eq.
           rewrite (Hpair vr Hvr). now apply position_Some in Hp.
      * intros other Hne. unfold getitem. simpl.
        destruct (position other (columns df)) as [q|] eqn:Hq; [|reflexivity].
        f_equal. f_equal. rewrite map_map.
        rewrite (map_ext _ (fun vr => nth q (snd vr) NaN)).
        -- apply (@map_combine_snd _ _ _ (fun r => nth q r NaN)). exact Hlen.
        -- intros vr. apply nth_replace_nth_neq.
           intros ->. apply Hne. apply (position_inj _ _ _ Hq Hp).
      * split; simpl.
        -- rewrite length_map, length_combine, Hlen. unfold nrows in *. lia.
        -- apply Forall_forall. intros r Hr. apply in_map_iff in Hr.
           destruct Hr as [vr [<- Hvr]]. rewrite replace_nth_length.
           now apply Hpair.
    + eexists. split; [reflexivity|].
      assert (Hmem : mem_string name (columns df) = false).
      { apply mem_string_not_In. intros Hin.
        destruct (position_In _ _ Hin) as [q Hq]. congruence. }
      rewrite Hmem.
      split; [|split; [|split; [reflexivity|]]].
      * unfold getitem. simpl. rewrite (position_new _ _ Hp). f_equal. f_equal.
        rewrite map_map.
        rewrite (map_ext_in _ fst).
        -- apply map_combine_fst. exact Hlen.
        -- intros vr Hvr. rewrite app_nth2 by (rewrite (Hpair vr Hvr); lia).
           rewrite (Hpair vr Hvr), Nat.sub_diag. reflexivity.
      * intros other Hne. unfold getitem. simpl.
        rewrite (position_other_new _ Hne).
        destruct (position other (columns df)) as [q|] eqn:Hq; [|reflexivity].
        f_equal. f_equal. rewrite map_map.
        rewrite (map_ext_in _ (fun vr => nth q (snd vr) NaN)).
        -- apply (@map_combine_snd _ _ _ (fun r => nth q r NaN)). exact Hlen.
        -- intros vr Hvr. apply app_nth1. rewrite (Hpair vr Hvr).
           now apply position_Some in Hq.
      * split; simpl.
        -- rewrite length_map, length_combine, Hlen. unfold nrows in *. lia.
        -- apply Forall_forall. intros r Hr. apply in_map_iff in Hr.
           destruct Hr as [vr [<- Hvr]]. rewrite !length_app, (Hpair vr Hvr).
           reflexivity.
Qed.

Lemma setitem_getitem_witness :
  exists df',
    setitem cleaned_toy "AUTHOR" [Int 7; Int 8] = ok df' /\
    getitem df' "AUTHOR" = ok {| s_index := [0; 1]; s_values := [Int 7; Int 8] |} /\
    getitem df' "CLASS" = getitem cleaned_toy "CLASS".
Proof.
  assert (Hwf : well_formed cleaned_toy) by literal_table.
  destruct (proj2 (@setitem_getitem cleaned_toy "AUTHOR" [Int 7; Int 8] Hwf)
              eq_refl) as (df' & Hset & Hget & Hother & _).
  exists df'. split; [exact Hset|]. split; [exact Hget|].
  apply Hother. discriminate.
Defined.

(** ** Vectorizing: failures, totals and row labels *)

Lemma mapM_decode_stops (pre : list string) (c : cell) (rest : list cell)
    (e : exn) :
  decode c = raise e ->
  mapM decode (map Str pre ++ c :: rest) = raise e.
Proof.
  intros H. induction pre as [|d t IH]; simpl.
  - now rewrite H.
  - now rewrite IH.
Qed.

Lemma vocabulary_nil (analyzer : string -> list string) (docs : list string) :
  (forall doc, In doc docs -> analyzer doc = []) ->
  vocabulary analyzer docs = [].
Proof.
  intros H. destruct (vocabulary analyzer docs) as [|t v] eqn:E; [reflexivity|].
  assert (Ht : In t (vocabulary analyzer docs)) by (rewrite E; now left).
  apply vocabulary_In in Ht. destruct Ht as [doc [Hd Ht]].
  rewrite (H doc Hd) in Ht. destruct Ht.
Qed.

(** What a run of [vectorizing] that returns has built. *)
Lemma vectorizing_ok_inv (analyzer : string -> list string)
    (l l' : loc) (w w' : world) (df : DataFrame) :
  nth_error (heap w) l = Some df ->
  vectorizing analyzer l w = (ok l', w') ->
  exists docs,
    In "CONTENT"%string (columns df) /\
    column_values df "CONTENT" = map Str docs /\
    length docs = nrows df /\
    vocabulary analyzer docs <> [] /\
    l' = length (heap w) /\
    w' = {| heap := replace_nth l (reset_index df) (heap w)
                    ++ [ {| index := seq 0 (nrows df);
                            columns := columns df ++ vocabulary analyzer docs;
                            values :=
                              map (fun i =>
                                     nth i (values df) []
                                     ++ count_row analyzer
                                          (vocabulary analyzer docs)
                                          (nth i docs EmptyString))
                                  (seq 0 (nrows df)) |} ];
            stdout := stdout w |}.
Proof.
  intros Hl. pose proof (nth_error_bound Hl) as Hb.
  rewrite (at_loc_found Hl) at 1.
  rewrite (@vectorizing_run analyzer l (heap w) Hb).
  destruct (getitem df "CONTENT") as [content|e] eqn:Hg; [|discriminate].
  destruct (CountVectorizer_fit_transform analyzer (s_values content))
    as [[m names]|e] eqn:Hf; [|discriminate].
  intros H. inversion H. subst l'. clear H. simpl fst. simpl snd.
  destruct (@fit_transform_counts_inv analyzer _ _ _ Hf)
    as (docs & Hraw & Hnames & Hne & Hm).
  rewrite (@getitem_column_values df "CONTENT" content Hg) in Hraw.
  pose proof (@getitem_ok_In df "CONTENT" content Hg) as Hin.
  assert (Hlen : length docs = nrows df).
  { rewrite <- (column_values_length df "CONTENT") by exact Hin.
    now rewrite Hraw, length_map. }
  assert (Hn : nrows df = nrows (DataFrame_new m names)).
  { unfold nrows at 2. simpl. subst m. now rewrite length_map. }
  rewrite (@concat_axis1_reset df (DataFrame_new m names) Hn).
  exists docs. subst names.
  repeat (split; [assumption || reflexivity|]).
  f_equal. f_equal. f_equal. f_equal. simpl.
  apply map_ext_in. intros i Hi. apply in_seq in Hi. f_equal. subst m.
  apply nth_map_default. lia.
Qed.

(** X8.  A call of [vectorizing] that raises leaves the store as it found
    it: the argument keeps its row labels and no table object is created.
    It raises the missing-column error when there is no CONTENT column; the
    value error when no text of the CONTENT column has a token (so for a
    table without rows, and for comments of one-letter words only), and
    when the first cell that is not text is a missing value; the attribute
    error when that cell is a number. *)
Theorem vectorizing_failure (analyzer : string -> list string)
    (l : loc) (w : world) (df : DataFrame) :
  nth_error (heap w) l = Some df ->
  (forall e w', vectorizing analyzer l w = (raise e, w') -> w' = w) /\
  (~ In "CONTENT"%string (columns df) ->
   vectorizing analyzer l w = (raise (KeyError ["CONTENT"%string]), w)) /\
  (In "CONTENT"%string (columns df) ->
   forall docs,
     column_values df "CONTENT" = map Str docs ->
     (forall doc, In doc docs -> analyzer doc = []) ->
     vectorizing analyzer l w = (raise ValueError, w)) /\
  (In "CONTENT"%string (columns df) ->
   forall pre c rest,
     column_values df "CONTENT" = map Str pre ++ c :: rest ->
     (c = NaN -> vectorizing analyzer l w = (raise ValueError, w)) /\
     (forall z, c = Int z ->
                vectorizing analyzer l w = (raise AttributeError, w))).
Proof.
  intros Hl. pose proof (nth_error_bound Hl) as Hb.
  pose proof (@vectorizing_run analyzer l (heap w) Hb df (stdout w)) as Hrun.
  rewrite <- (at_loc_found Hl) in Hrun. rewrite !Hrun. clear Hrun.
  split; [|split; [|split]].
  - intros e w'.
    destruct (getitem df "CONTENT") as [content|e0];
      [|intros H; now inversion H].
    destruct (CountVectorizer_fit_transform analyzer (s_values content))
      as [fitted|e0]; [discriminate|].
    intros H. now inversion H.
  - intros Hnot. unfold getitem.
    destruct (position "CONTENT" (columns df)) as [p|] eqn:Hp; [|reflexivity].
    destruct Hnot. apply position_Some in Hp. destruct Hp as [Hp <-].
    now apply nth_In.
  - intros Hin docs Hdocs Hnone.
    destruct (@getitem_present df "CONTENT" Hin) as [s [Hg Hs]]. rewrite Hg.
    unfold CountVectorizer_fit_transform.
    rewrite Hs, Hdocs, mapM_decode_text. simpl rbind.
    now rewrite (vocabulary_nil analyzer docs Hnone).
  - intros Hin pre c rest Hcol.
    destruct (@getitem_present df "CONTENT" Hin) as [s [Hg Hs]]. rewrite Hg.
    unfold CountVectorizer_fit_transform. rewrite Hs, Hcol. split.
    + intros ->. now rewrite (@mapM_decode_stops pre NaN rest ValueError).
    + intros z ->.
      now rewrite (@mapM_decode_stops pre (Int z) rest AttributeError).
Qed.

Lemma vectorizing_failure_witness :
  vectorizing ascii_analyzer 0 (store_of cleaned_empty) =
  (raise ValueError, store_of cleaned_empty).
Proof.
  destruct (@vectorizing_failure ascii_analyzer 0 (store_of cleaned_empty)
              cleaned_empty eq_refl) as (_ & _ & H & _).
  apply (H (or_intror (or_introl eq_refl)) [] eq_refl).
  intros doc [].
Defined.

Lemma cell_total_counts (f : string -> nat) (vocab : list string) :
  cell_total (map (fun t => Int (Z.of_nat (f t))) vocab) =
  Z.of_nat (list_sum (map f vocab)).
Proof.
  induction vocab as [|t v IH]; simpl; [reflexivity|].
  rewrite IH. lia.
Qed.

Lemma count_occ_one (vocab : list string) (a : string) :
  NoDup vocab -> In a vocab ->
  list_sum (map (fun t => if string_dec a t then 1 else 0) vocab) = 1.
Proof.
  induction 1 as [|x v Hx Hnd IH]; intros Hin; [destruct Hin|]. simpl.
  destruct (string_dec a x) as [->|Hne].
  - assert (H0 : list_sum (map (fun t => if string_dec x t then 1 else 0) v) = 0).
    { clear IH Hin Hnd. induction v as [|y v IH]; simpl; [reflexivity|].
      destruct (string_dec x y) as [->|_]; [destruct Hx; now left|].
      apply IH. intros H. apply Hx. now right. }
    now rewrite H0.
  - destruct Hin as [->|Hin]; [congruence|]. now rewrite IH.
Qed.

(** Over a vocabulary that holds every token once, the counts of a document
    add up to its number of tokens. *)
Lemma count_occ_total (vocab tokens : list string) :
  NoDup vocab -> incl tokens vocab ->
  list_sum (map (count_occ string_dec tokens) vocab) = length tokens.
Proof.
  intros Hnd. induction tokens as [|a t IH]; intros Hincl.
  - clear. induction vocab as [|x v IHv]; simpl; [reflexivity|exact IHv].
  - assert (E : forall v : list string,
              list_sum (map (count_occ string_dec (a :: t)) v) =
              list_sum (map (fun x => if string_dec a x then 1 else 0) v)
              + list_sum (map (count_occ string_dec t) v)).
    { induction v as [|x v IHv]; [reflexivity|].
      rewrite !map_cons.
      change (list_sum (?n :: ?r)) with (n + list_sum r). rewrite IHv.
      cbn [count_occ]. destruct (string_dec a x); lia. }
    rewrite E, IH by (intros x Hx; apply Hincl; now right).
    rewrite count_occ_one by (auto; apply Hincl; now left).
    reflexivity.
Qed.

(** X9.  In the table [vectorizing] returns, the counts added to a row add
    up to the number of tokens of the row's text: every token of a comment
    is counted once, under its own term. *)
Theorem vectorizing_counts_total (analyzer : string -> list string)
    (l l' : loc) (w w' : world) (df : DataFrame) :
  nth_error (heap w) l = Some df ->
  vectorizing analyzer l w = (ok l', w') ->
  exists out docs,
    nth_error (heap w') l' = Some out /\
    column_values df "CONTENT" = map Str docs /\
    forall i, i < nrows df ->
      exists counts,
        nth i (values out) [] = nth i (values df) [] ++ counts /\
        length counts = length (columns out) - length (columns df) /\
        cell_total counts =
          Z.of_nat (length (analyzer (nth i docs EmptyString))).
Proof.
  intros Hl Hrun. pose proof (nth_error_bound Hl) as Hb.
  destruct (@vectorizing_ok_inv analyzer l l' w w' df Hl Hrun)
    as (docs & Hin & Hdocs & Hlen & _ & -> & ->).
  eexists. exists docs. split.
  { simpl. rewrite nth_error_app2 by (rewrite replace_nth_length; lia).
    rewrite replace_nth_length, Nat.sub_diag. reflexivity. }
  split; [exact Hdocs|].
  intros i Hi. simpl values. rewrite nth_map_seq by exact Hi.
  eexists. split; [reflexivity|]. simpl columns. split.
  - unfold count_row. rewrite length_map, length_app. lia.
  - unfold count_row. rewrite cell_total_counts. f_equal.
    apply count_occ_total.
    + apply unique_NoDup;
        [apply string_compare_eq|apply string_compare_antisym
        |apply string_compare_trans].
    + intros t Ht. apply vocabulary_In. exists (nth i docs EmptyString).
      split; [|exact Ht]. apply nth_In. lia.
Qed.

Lemma vectorizing_counts_total_witness :
  exists out counts,
    nth_error (heap (snd (vectorizing ascii_analyzer 0 (store_of cleaned_toy)))) 1
      = Some out /\
    nth 0 (values out) [] = nth 0 (values cleaned_toy) [] ++ counts /\
    cell_total counts = 4%Z.
Proof.
  pose (w' := snd (vectorizing ascii_analyzer 0 (store_of cleaned_toy))).
  assert (Hrun : vectorizing ascii_analyzer 0 (store_of cleaned_toy) = (ok 1, w'))
    by (vm_compute; reflexivity).
  destruct (@vectorizing_counts_total ascii_analyzer 0 1 (store_of cleaned_toy)
              w' cleaned_toy eq_refl Hrun)
    as (out & docs & Hout & Hdocs & Hrows).
  destruct (Hrows 0) as (counts & Hrow & _ & Htotal); [vm_compute; lia|].
  exists out, counts. split; [exact Hout|]. split; [exact Hrow|].
  rewrite Htotal.
  assert (E : docs = ["Buy cheap followers now"; "great video thanks"]%string).
  { vm_compute in Hdocs. symmetry in Hdocs.
    destruct docs as [|d1 [|d2 [|d3 t]]]; try discriminate.
    now inversion Hdocs. }
  subst docs. reflexivity.
Defined.

(** X10.  Joining the counts to the cleaned table introduces no missing
    value: for a well-formed table without missing values, the table
    [vectorizing] returns is well formed (one cell per column in every row,
    one label per row), numbered from 0, and has no missing value. *)
Theorem vectorizing_no_missing (analyzer : string -> list string)
    (l l' : loc) (w w' : world) (df : DataFrame) :
  nth_error (heap w) l = Some df ->
  well_formed df -> no_missing df ->
  vectorizing analyzer l w = (ok l', w') ->
  exists out,
    nth_error (heap w') l' = Some out /\
    well_formed out /\ no_missing out /\
    index out = seq 0 (nrows df).
Proof.
  intros Hl [Hidx Hrows] Hnm Hrun. pose proof (nth_error_bound Hl) as Hb.
  destruct (@vectorizing_ok_inv analyzer l l' w w' df Hl Hrun)
    as (docs & Hin & Hdocs & Hlen & _ & -> & ->).
  eexists. split.
  { simpl. rewrite nth_error_app2 by (rewrite replace_nth_length; lia).
    rewrite replace_nth_length, Nat.sub_diag. reflexivity. }
  rewrite Forall_forall in Hrows. unfold no_missing in Hnm.
  rewrite Forall_forall in Hnm.
  split; [split|split]; simpl.
  - now rewrite length_map, !length_seq.
  - apply Forall_forall. intros r Hr. apply in_map_iff in Hr.
    destruct Hr as [i [<- Hi]]. apply in_seq in Hi.
    rewrite !length_app. unfold count_row. rewrite length_map.
    rewrite (Hrows (nth i (values df) [])); [reflexivity|].
    apply nth_In. unfold nrows in Hi. lia.
  - unfold no_missing. simpl. apply Forall_forall. intros r Hr.
    apply in_map_iff in Hr. destruct Hr as [i [<- Hi]]. apply in_seq in Hi.
    apply Forall_app. split.
    + apply Hnm, nth_In. unfold nrows in Hi. lia.
    + apply Forall_forall. intros c Hc. unfold count_row in Hc.
      apply in_map_iff in Hc. destruct Hc as [t [<- _]]. discriminate.
  - reflexivity.
Qed.

Lemma vectorizing_no_missing_witness :
  exists out,
    nth_error (heap (snd (vectorizing ascii_analyzer 0 (store_of cleaned_toy)))) 1
      = Some out /\
    no_missing out.
Proof.
  pose (w' := snd (vectorizing ascii_analyzer 0 (store_of cleaned_toy))).
  assert (Hrun : vectorizing ascii_analyzer 0 (store_of cleaned_toy) = (ok 1, w'))
    by (vm_compute; reflexivity).
  assert (Hwf : well_formed cleaned_toy) by literal_table.
  assert (Hnm : no_missing cleaned_toy).
  { unfold no_missing. simpl.
    repeat (constructor; [repeat (constructor; [discriminate|]); constructor|]).
    constructor. }
  destruct (@vectorizing_no_missing ascii_analyzer 0 1 (store_of cleaned_toy)
              w' cleaned_toy eq_refl Hwf Hnm Hrun)
    as (out & Hout & _ & Hno & _).
  exists out. split; [exact Hout|exact Hno].
Defined.

(** ** Joining tables whose row labels differ *)





(** ** The default analyzer on ASCII text *)

Lemma lower_char_idem (c : ascii) : lower_char (lower_char c) = lower_char c.
Proof. destruct c as [[] [] [] [] [] [] [] []]; reflexivity. Qed.

Lemma lower_idem (s : string) : lower (lower s) = lower s.
Proof.
  induction s as [|c t IH]; simpl; [reflexivity|].
  now rewrite lower_char_idem, IH.
Qed.

Lemma all_chars_append (f : ascii -> bool) (s1 s2 : string) :
  all_chars f (s1 ++ s2)%string = all_chars f s1 && all_chars f s2.
Proof.
  induction s1 as [|c t IH]; simpl; [reflexivity|].
  now rewrite IH, andb_assoc.
Qed.

Lemma all_chars_lower (s : string) :
  all_chars (fun c => Ascii.eqb (lower_char c) c) (lower s) = true.
Proof.
  induction s as [|c t IH]; simpl; [reflexivity|].
  now rewrite lower_char_idem, Ascii.eqb_refl, IH.
Qed.

(** The words cut from a lower-case text are made of lower-case word
    characters. *)
Lemma split_words_chars (cur s : string) (w : string) :
  let small c := is_word_char c && Ascii.eqb (lower_char c) c in
  all_chars small cur = true ->
  all_chars (fun c => Ascii.eqb (lower_char c) c) s = true ->
  In w (split_words cur s) -> all_chars small w = true.
Proof.
  intros small. revert cur.
  induction s as [|c t IH]; intros cur Hcur Hs; simpl.
  - intros [<-|[]]. exact Hcur.
  - simpl in Hs. apply andb_true_iff in Hs. destruct Hs as [Hc Ht].
    destruct (is_word_char c) eqn:Ew.
    + apply IH; [|exact Ht]. rewrite all_chars_append, Hcur. simpl.
      unfold small. now rewrite Ew, Hc.
    + intros [<-|H]; [exact Hcur|]. now apply (IH EmptyString).
Qed.

(** X12.  The tokens that the default analyzer takes from a comment of
    ASCII characters: each has at least two characters, all of them digits,
    underscores or lower-case letters, so a one-letter word is no token and
    no token is the name of a column of the data set; and the tokens do not
    depend on the case of the letters of the comment. *)
Theorem ascii_analyzer_tokens (doc : string) :
  all_chars (fun c => nat_of_ascii c <? 128) doc = true ->
  (forall t, In t (ascii_analyzer doc) ->
     2 <= String.length t /\
     all_chars (fun c => is_word_char c && Ascii.eqb (lower_char c) c) t
       = true /\
     ~ In t raw_columns) /\
  ascii_analyzer (lower doc) = ascii_analyzer doc.
Proof.
  intros _. split.
  - intros t Ht. unfold ascii_analyzer in Ht. apply filter_In in Ht.
    destruct Ht as [Hw Hlen]. apply Nat.leb_le in Hlen.
    assert (Hsmall : all_chars
              (fun c => is_word_char c && Ascii.eqb (lower_char c) c) t = true).
    { apply (@split_words_chars EmptyString (lower doc) t);
        [reflexivity|apply all_chars_lower|exact Hw]. }
    split; [exact Hlen|]. split; [exact Hsmall|].
    intros Hin. unfold raw_columns in Hin. simpl in Hin.
    destruct Hin as [E|[E|[E|[E|[E|[E|[]]]]]]];
      rewrite <- E in Hsmall; discriminate.
  - unfold ascii_analyzer. now rewrite lower_idem.
Qed.

Lemma ascii_analyzer_tokens_witness :
  ascii_analyzer "Buy a CHEAP watch" = ["buy"; "cheap"; "watch"]%string /\
  ascii_analyzer (lower "Buy a CHEAP watch") = ascii_analyzer "Buy a CHEAP watch".
Proof.
  split; [reflexivity|].
  apply (@ascii_analyzer_tokens "Buy a CHEAP watch"). reflexivity.
Defined.

(** ** Splitting: errors, sizes and pairing *)


Lemma validate_shuffle_split_count (n : nat) (k : Z) :
  validate_shuffle_split n (Count k) =
  if (Z.of_nat n <=? k)%Z || (k <=? 0)%Z then raise ValueError
  else ok (Z.to_nat (Z.of_nat n - k), Z.to_nat k).
Proof.
  unfold validate_shuffle_split.
  destruct ((Z.of_nat n <=? k)%Z || (k <=? 0)%Z) eqn:E; [reflexivity|].
  apply orb_false_iff in E. destruct E as [E0 E1].
  apply Z.leb_gt in E0, E1.
  destruct (Z.ltb_spec (Z.of_nat n) (Z.of_nat n - k + k)) as [Hlt|Hge]; [lia|].
  destruct (Z.eqb_spec (Z.of_nat n - k) 0) as [Hz|Hnz]; [lia|reflexivity].
Qed.

Lemma drop_columns_unfold (df : DataFrame) (labels : list string) :
  drop_columns df labels =
  match filter (fun c => negb (mem_string c (columns df))) labels with
  | [] => ok {| index := index df;
                columns := select (keep_but labels (columns df)) (columns df);
                values := map (select (keep_but labels (columns df)))
                              (values df) |}
  | missing => raise (KeyError missing)
  end.
Proof. reflexivity. Qed.

Section SplittingRuns.
Variable RandomState : Type.
Variable RandomState_seed : Z -> RandomState.
Variable RandomState_permutation : RandomState -> nat -> list nat * RandomState.

(** The whole function: the two columns, then the sizes, then the rows by
    the seeded permutation. *)
Lemma train_test_splitting_unfold (data : DataFrame) (test_size : size)
    (g : RandomState) :
  let keep := keep_but ["CLASS"; "CONTENT"]%string (columns data) in
  let x := {| index := index data;
              columns := select keep (columns data);
              values := map (select keep) (values data) |} in
  let y := {| s_index := index data;
              s_values := column_values data "CLASS" |} in
  train_test_splitting RandomState_seed RandomState_permutation
    data test_size g =
  match filter (fun c => negb (mem_string c (columns data)))
               ["CLASS"; "CONTENT"]%string with
  | [] =>
      match validate_shuffle_split (nrows data) test_size with
      | inr e => (inr e, g)
      | inl (n_train, n_test) =>
          let permutation :=
            fst (RandomState_permutation (RandomState_seed 42) (nrows data)) in
          let train := firstn n_train (skipn n_test permutation) in
          let test := firstn n_test permutation in
          (ok (iloc x train, iloc x test,
               iloc_series y train, iloc_series y test), g)
      end
  | missing => (raise (KeyError missing), g)
  end.
Proof.
  intros keep x y. unfold train_test_splitting.
  rewrite drop_columns_unfold.
  destruct (filter (fun c => negb (mem_string c (columns data)))
                   ["CLASS"; "CONTENT"]%string) as [|m ms] eqn:Hmiss;
    [|reflexivity].
  assert (HC : In "CLASS"%string (columns data)).
  { apply mem_string_In.
    destruct (mem_string "CLASS" (columns data)) eqn:E; [reflexivity|].
    simpl in Hmiss. rewrite E in Hmiss. discriminate. }
  destruct (position_In _ _ HC) as [p Hp].
  unfold getitem. rewrite Hp. fold keep. fold x.
  rewrite train_test_split_seeded.
  assert (Hn : nrows x = nrows data)
    by (unfold x, nrows; simpl; apply length_map).
  rewrite !Hn. simpl s_values. rewrite length_map. fold (nrows data).
  rewrite Nat.eqb_refl. simpl negb. cbv iota.
  unfold y. rewrite (column_values_position _ _ Hp). reflexivity.
Qed.
End SplittingRuns.

Lemma missing_columns_nil (cols labels : list string) :
  filter (fun c => negb (mem_string c cols)) labels = [] <-> incl labels cols.
Proof.
  induction labels as [|a t IH]; simpl.
  - split; [intros _ x []|reflexivity].
  - destruct (mem_string a cols) eqn:E; simpl.
    + apply mem_string_In in E. rewrite IH. split.
      * intros H x [<-|Hx]; auto.
      * intros H x Hx. apply H. now right.
    + apply mem_string_not_In in E. split; [discriminate|].
      intros H. destruct E. apply H. now left.
Qed.

Lemma Qceiling_pos (q : Q) : (0 < q)%Q -> (1 <= Qceiling q)%Z.
Proof.
  intros H. pose proof (Qle_ceiling q) as Hc.
  assert (H0 : (0 < inject_Z (Qceiling q))%Q) by (eapply Qlt_le_trans; eauto).
  change 0%Q with (inject_Z 0) in H0. rewrite <- Zlt_Qlt in H0. lia.
Qed.


Lemma firstn_incl {A} (n : nat) (l : list A) (x : A) :
  In x (firstn n l) -> In x l.
Proof.
  intros H. rewrite <- (firstn_skipn n l). apply in_or_app. now left.
Qed.

Lemma skipn_incl {A} (n : nat) (l : list A) (x : A) :
  In x (skipn n l) -> In x l.
Proof.
  intros H. rewrite <- (firstn_skipn n l). apply in_or_app. now right.
Qed.

Lemma iloc_nrows (df : DataFrame) (positions : list nat) :
  nrows (iloc df positions) = length positions.
Proof. unfold nrows, iloc. simpl. apply length_map. Qed.

Lemma iloc_series_length (s : Series) (positions : list nat) :
  length (s_values (iloc_series s positions)) = length positions.
Proof. unfold iloc_series. simpl. apply length_map. Qed.

Section SplittingMore.
Variable RandomState : Type.
Variable RandomState_seed : Z -> RandomState.
Variable RandomState_permutation : RandomState -> nat -> list nat * RandomState.

Hypothesis permutation_spec :
  forall g n, Permutation (fst (RandomState_permutation g n)) (seq 0 n).


(** X14.  [train_test_splitting] with a row count [k] in place of a
    fraction: for a table of [N] rows that has both columns, it returns
    exactly when [0 < k < N], with [k] test rows and [N - k] training rows
    and as many labels as rows on each side; any other count raises the
    value error. *)
Theorem train_test_splitting_row_count (data : DataFrame) (k : Z)
    (g : RandomState) :
  In "CLASS"%string (columns data) -> In "CONTENT"%string (columns data) ->
  let N := Z.of_nat (nrows data) in
  let run := train_test_splitting RandomState_seed RandomState_permutation
               data (Count k) g in
  ((0 < k < N)%Z ->
   exists x_train x_test y_train y_test,
     run = (ok (x_train, x_test, y_train, y_test), g) /\
     Z.of_nat (nrows x_test) = k /\
     Z.of_nat (nrows x_train) = (N - k)%Z /\
     length (s_values y_test) = nrows x_test /\
     length (s_values y_train) = nrows x_train) /\
  ((k <= 0)%Z \/ (N <= k)%Z -> run = (raise ValueError, g)).
Proof.
  intros HC HT N run. subst run.
  rewrite train_test_splitting_unfold.
  rewrite (proj2 (missing_columns_nil (columns data) ["CLASS"; "CONTENT"]%string))
    by (intros c [<-|[<-|[]]]; assumption).
  rewrite validate_shuffle_split_count. fold N. split.
  - intros [Hk0 HkN].
    destruct (Z.leb_spec N k) as [H|_]; [lia|].
    destruct (Z.leb_spec k 0) as [H|_]; [lia|]. simpl orb. cbv iota.
    eexists; eexists; eexists; eexists. split; [reflexivity|].
    pose proof (Permutation_length
                  (permutation_spec (RandomState_seed 42) (nrows data))) as Hlen.
    rewrite length_seq in Hlen.
    rewrite !iloc_nrows, !iloc_series_length.
    rewrite !length_firstn, length_skipn, Hlen. unfold N in *.
    repeat split; lia.
  - intros [H|H].
    + apply Z.leb_le in H. now rewrite H, orb_true_r.
    + apply Z.leb_le in H. now rewrite H.
Qed.

(** X15.  Features and labels stay paired through [train_test_splitting]:
    the training and the test features have the columns of the input other
    than CLASS and CONTENT, in the input's order, and every row on either
    side is one input row, under its input row label, without those two
    cells, next to the CLASS cell of that same input row. *)
Theorem train_test_splitting_pairs (data : DataFrame) (test_size : size)
    (g : RandomState) (x_train x_test : DataFrame) (y_train y_test : Series) :
  fst (train_test_splitting RandomState_seed RandomState_permutation
         data test_size g) = ok (x_train, x_test, y_train, y_test) ->
  let keep := keep_but ["CLASS"; "CONTENT"]%string (columns data) in
  let paired (x : DataFrame) (y : Series) :=
    columns x = select keep (columns data) /\
    length (s_values y) = nrows x /\
    forall i, i < nrows x ->
      exists p, p < nrows data /\
        nth i (index x) 0 = nth p (index data) 0 /\
        nth i (s_index y) 0 = nth p (index data) 0 /\
        nth i (values x) [] = select keep (nth p (values data) []) /\
        nth i (s_values y) NaN = nth p (column_values data "CLASS") NaN in
  paired x_train y_train /\ paired x_test y_test.
Proof.
  rewrite train_test_splitting_unfold.
  destruct (filter (fun c => negb (mem_string c (columns data)))
                   ["CLASS"; "CONTENT"]%string) as [|m ms] eqn:Hmiss;
    [|discriminate].
  assert (HC : In "CLASS"%string (columns data)).
  { apply (proj1 (missing_columns_nil _ _) Hmiss). now left. }
  destruct (validate_shuffle_split (nrows data) test_size)
    as [[n_train n_test]|e]; [|discriminate].
  simpl fst. intros H keep paired. inversion H. clear H.
  set (permutation :=
         fst (RandomState_permutation (RandomState_seed 42) (nrows data))).
  assert (Hperm : forall p, In p permutation -> p < nrows data).
  { intros p Hp.
    apply (Permutation_in _ (permutation_spec (RandomState_seed 42) (nrows data)))
      in Hp.
    apply in_seq in Hp. lia. }
  assert (Hside : forall positions,
            (forall p, In p positions -> p < nrows data) ->
            paired
              (iloc {| index := index data;
                       columns := select keep (columns data);
                       values := map (select keep) (values data) |} positions)
              (iloc_series {| s_index := index data;
                              s_values := column_values data "CLASS" |}
                           positions)).
  { intros positions Hpos. unfold paired. simpl.
    split; [reflexivity|]. rewrite iloc_nrows, length_map.
    split; [reflexivity|].
    intros i Hi. exists (nth i positions 0).
    assert (Hp : nth i positions 0 < nrows data) by (apply Hpos, nth_In, Hi).
    split; [exact Hp|].
    rewrite !(@nth_map_default _ _ _ positions i 0) by exact Hi.
    repeat split.
    apply nth_map_default. exact Hp. }
  split; apply Hside; intros p Hp; apply Hperm.
  - eapply skipn_incl, firstn_incl, Hp.
  - eapply firstn_incl, Hp.
Qed.
End SplittingMore.


Lemma train_test_splitting_row_count_witness :
  exists x_train x_test y_train y_test,
    train_test_splitting toy_seed toy_permutation vectorized_ten (Count 4) 0 =
      (ok (x_train, x_test, y_train, y_test), 0) /\
    Z.of_nat (nrows x_test) = 4%Z /\ Z.of_nat (nrows x_train) = 6%Z.
Proof.
  assert (HC : In "CLASS"%string (columns vectorized_ten)) by (simpl; tauto).
  assert (HT : In "CONTENT"%string (columns vectorized_ten)) by (simpl; tauto).
  destruct (proj1 (@train_test_splitting_row_count nat toy_seed toy_permutation
                     toy_permutation_spec vectorized_ten 4 0 HC HT))
    as (x_train & x_test & y_train & y_test & Hrun & Ht & Hn & _).
  { unfold nrows. simpl. lia. }
  exists x_train, x_test, y_train, y_test. repeat split; assumption.
Defined.

Lemma train_test_splitting_pairs_witness :
  exists x_train x_test y_train y_test,
    fst (train_test_splitting toy_seed toy_permutation vectorized_ten
           default_test_size 0) = ok (x_train, x_test, y_train, y_test) /\
    columns x_train = ["AUTHOR"; "VIDEO_NAME"; "buy"]%string /\
    length (s_values y_train) = nrows x_train.
Proof.
  pose (r := fst (train_test_splitting toy_seed toy_permutation vectorized_ten
                    default_test_size 0)).
  destruct r as [[[[x_train x_test] y_train] y_test]|e] eqn:Hr;
    [|vm_compute in Hr; discriminate].
  exists x_train, x_test, y_train, y_test. split; [exact Hr|].
  destruct (@train_test_splitting_pairs nat toy_seed toy_permutation
              toy_permutation_spec vectorized_ten default_test_size 0
              x_train x_test y_train y_test Hr) as [(Hc & Hl & _) _].
  split; [exact Hc|exact Hl].
Defined.

(** ** The pipeline: from the raw table to the fitted model *)

Lemma select_app {A} (m1 m2 : list bool) (l1 l2 : list A) :
  length m1 = length l1 ->
  select (m1 ++ m2) (l1 ++ l2) = select m1 l1 ++ select m2 l2.
Proof.
  revert l1. induction m1 as [|b m IH]; intros [|x t] H; simpl in *;
    try reflexivity; try discriminate.
  destruct b; simpl; rewrite IH by lia; reflexivity.
Qed.

(** The cells that a mask over the column names keeps all satisfy what the
    cells under the kept names satisfy. *)
Lemma select_Forall {A} (P : A -> Prop) (f : string -> bool) (d : A)
    (cols : list string) (r : list A) :
  length r = length cols ->
  (forall p, p < length cols -> f (nth p cols EmptyString) = true ->
             P (nth p r d)) ->
  Forall P (select (map f cols) r).
Proof.
  revert r. induction cols as [|c t IH]; intros [|x r] Hlen H; simpl in *;
    try constructor; try discriminate.
  destruct (f c) eqn:E.
  - constructor.
    + apply (H 0); [lia|exact E].
    + apply IH; [lia|]. intros p Hp Hf. apply (H (S p)); [lia|exact Hf].
  - apply IH; [lia|]. intros p Hp Hf. apply (H (S p)); [lia|exact Hf].
Qed.

Lemma position_app (name : string) (l1 l2 : list string) (p : nat) :
  position name l1 = Some p -> position name (l1 ++ l2) = Some p.
Proof.
  revert p. induction l1 as [|c t IH]; intros p; simpl; [discriminate|].
  destruct (String.eqb name c); [auto|].
  destruct (position name t) as [q|]; simpl; [|discriminate].
  intros H. inversion H. now rewrite (IH q eq_refl).
Qed.

Lemma position_nth (name : string) (cols : list string) (p : nat) :
  NoDup cols -> p < length cols -> nth p cols EmptyString = name ->
  position name cols = Some p.
Proof.
  intros Hnd Hp Hn.
  destruct (@position_In name cols) as [q Hq].
  { rewrite <- Hn. now apply nth_In. }
  now rewrite (position_unique Hnd Hq Hp Hn).
Qed.

(** A run of [vectorizing] on a table whose CONTENT column is text with at
    least one token. *)
Lemma vectorizing_ok (analyzer : string -> list string) (l : loc) (w : world)
    (df : DataFrame) (docs : list string) :
  nth_error (heap w) l = Some df ->
  In "CONTENT"%string (columns df) ->
  column_values df "CONTENT" = map Str docs ->
  vocabulary analyzer docs <> [] ->
  vectorizing analyzer l w =
  (ok (length (heap w)),
   {| heap := replace_nth l (reset_index df) (heap w)
              ++ [ {| index := seq 0 (nrows df);
                      columns := columns df ++ vocabulary analyzer docs;
                      values :=
                        map (fun i =>
                               nth i (values df) []
                               ++ count_row analyzer (vocabulary analyzer docs)
                                    (nth i docs EmptyString))
                            (seq 0 (nrows df)) |} ];
      stdout := stdout w |}).
Proof.
  intros Hl Hin Hdocs Hne. pose proof (nth_error_bound Hl) as Hb.
  rewrite (at_loc_found Hl) at 1.
  rewrite (@vectorizing_run analyzer l (heap w) Hb).
  destruct (@getitem_present df "CONTENT" Hin) as [s [Hg Hs]]. rewrite Hg.
  unfold CountVectorizer_fit_transform.
  rewrite Hs, Hdocs, mapM_decode_text. simpl rbind.
  destruct (vocabulary analyzer docs) as [|t0 v] eqn:Ev; [contradiction|].
  rewrite <- Ev. simpl fst. simpl snd.
  assert (Hlen : length docs = nrows df).
  { rewrite <- (column_values_length df "CONTENT") by exact Hin.
    now rewrite Hdocs, length_map. }
  assert (Hn : nrows df =
               nrows (DataFrame_new
                        (map (count_row analyzer (vocabulary analyzer docs)) docs)
                        (vocabulary analyzer docs))).
  { unfold nrows at 2. simpl. now rewrite length_map. }
  rewrite (@concat_axis1_reset df _ Hn).
  f_equal. f_equal. f_equal. f_equal. f_equal. simpl.
  apply map_ext_in. intros i Hi. apply in_seq in Hi. f_equal.
  apply nth_map_default. lia.
Qed.

Section FitFacts.
Variable forest : Type.
Variable grow : hyperparameters -> list (list Z) -> list cell -> forest.

(** [fit] on integer features and integer labels, with the hyperparameters
    of the notebook's [main]. *)
Lemma model_training_random_forest_ok (x_train : DataFrame) (y_train : Series) :
  nrows x_train <> 0 -> nrows x_train = length (s_values y_train) ->
  columns x_train <> [] ->
  Forall (Forall (fun c => is_int c = true)) (values x_train) ->
  Forall (fun c => is_int c = true) (s_values y_train) ->
  exists model,
    model_training_random_forest grow x_train y_train 160 (Some 20%Z) MF_sqrt
      = ok model /\
    rf_n_features_in_ model = length (columns x_train) /\
    rf_classes_ model = unique cell_compare (s_values y_train).
Proof.
  intros Hn Hlen Hcols Hx Hy.
  unfold model_training_random_forest, RandomForestClassifier_fit.
  simpl negb. cbv iota.
  destruct (mapM_rows_numeric_ok Hx) as [rows ->]. simpl.
  destruct (int_cells_complete Hy) as [-> ->].
  destruct (Nat.eqb_spec (nrows x_train) 0) as [E0|_]; [contradiction|].
  destruct (Nat.eqb_spec (length (columns x_train)) 0) as [E0|_].
  { destruct (columns x_train); [contradiction|discriminate]. }
  rewrite Hlen, Nat.eqb_refl. simpl. eexists. repeat split.
Qed.
End FitFacts.

Lemma default_split_sizes (n : nat) :
  2 <= n ->
  exists n_train n_test,
    validate_shuffle_split n default_test_size = ok (n_train, n_test) /\
    n_train + n_test = n /\ 0 < n_train /\ 0 < n_test /\
    Z.of_nat n_test = Qceiling ((3 # 10) * inject_Z (Z.of_nat n)).
Proof.
  intros Hn. unfold default_test_size.
  destruct (@validate_shuffle_split_ok n (3 # 10)) as (a & b & H).
  - reflexivity.
  - unfold Qle, Qmult, inject_Z. cbn [Qnum Qden]. lia.
  - exists a, b. split; [exact H|].
    destruct (validate_shuffle_split_fraction _ _ H) as (_ & _ & Hc & Hs & Hp).
    repeat split; try assumption.
    assert (Hc1 : (1 <= Qceiling ((3 # 10) * inject_Z (Z.of_nat n)))%Z).
    { apply Qceiling_pos. unfold Qlt, Qmult, inject_Z. cbn [Qnum Qden]. lia. }
    lia.
Qed.

Lemma retained_cell_complete (df : DataFrame) (r : list cell) (p : nat) :
  well_formed df -> In r (values (retained df)) -> p < length (columns df) ->
  nth p r NaN <> NaN.
Proof.
  intros Hwf Hr Hp.
  pose proof (well_formed_retained Hwf) as [_ Hlen].
  rewrite retained_columns, Forall_forall in Hlen.
  pose proof (retained_complete df) as Hc. rewrite Forall_forall in Hc.
  specialize (Hc r Hr). rewrite existsb_false_Forall, Forall_forall in Hc.
  apply isnull_false, Hc, nth_In. rewrite (Hlen r Hr). exact Hp.
Qed.

(** A column that cleaning neither encodes nor removes holds, in the cleaned
    table, the cells of the rows that are kept. *)
Lemma cleaned_form_passes (df : DataFrame) (pA pV : nat) (name : string) :
  well_formed df ->
  position "AUTHOR" (columns df) = Some pA ->
  position "VIDEO_NAME" (columns df) = Some pV ->
  In name (columns df) ->
  ~ In name ["AUTHOR"; "VIDEO_NAME"; "DATE"; "COMMENT_ID"]%string ->
  column_values (cleaned_form df pA pV) name =
  column_values (retained df) name.
Proof.
  intros Hwf HA HV Hin Hnot.
  destruct (position_In _ _ Hin) as [p Hp].
  rewrite (@cleaned_form_column df pA pV p name Hwf Hp)
    by (intros ->; apply Hnot; simpl; tauto).
  rewrite (@column_values_position (retained df) name p)
    by (now rewrite retained_columns).
  apply map_ext. intros r. apply encode_row_other.
  - intros ->. apply Hnot. rewrite (position_inj _ _ _ Hp HA). simpl. tauto.
  - intros ->. apply Hnot. rewrite (position_inj _ _ _ Hp HV). simpl. tauto.
Qed.

Lemma well_formed_cleaned_form (df : DataFrame) (pA pV : nat) :
  well_formed df -> well_formed (cleaned_form df pA pV).
Proof.
  intros Hwf. split.
  - unfold cleaned_form, nrows. simpl. now rewrite length_seq, length_map.
  - rewrite cleaned_form_values, cleaned_form_columns by exact Hwf.
    apply Forall_forall. intros r' Hr'. apply in_map_iff in Hr'.
    destruct Hr' as [r [<- Hr]].
    apply select_same_length. rewrite encode_row_length.
    pose proof (well_formed_retained Hwf) as [_ Hlen].
    rewrite retained_columns, Forall_forall in Hlen. now apply Hlen.
Qed.

(** The columns of a table are still read from the table with further
    columns joined to its right. *)
Lemma column_values_joined (out : DataFrame) (names : list string)
    (more : nat -> list cell) (name : string) :
  well_formed out -> In name (columns out) ->
  column_values
    {| index := seq 0 (nrows out);
       columns := columns out ++ names;
       values := map (fun i => nth i (values out) [] ++ more i)
                     (seq 0 (nrows out)) |} name =
  column_values out name.
Proof.
  intros [_ Hrows] Hin. destruct (position_In _ _ Hin) as [p Hp].
  rewrite (@column_values_position _ name p) by (simpl; now apply position_app).
  rewrite (column_values_position _ _ Hp). simpl. rewrite map_map.
  symmetry. rewrite <- (map_nth_seq (values out) []) at 1. rewrite map_map.
  symmetry. apply map_ext_in. intros i Hi. apply in_seq in Hi.
  apply app_nth1. rewrite Forall_forall in Hrows.
  rewrite (Hrows (nth i (values out) [])) by (apply nth_In; unfold nrows in Hi; lia).
  now apply position_Some in Hp.
Qed.

Lemma raw_columns_NoDup : NoDup raw_columns.
Proof.
  unfold raw_columns.
  repeat (constructor; [simpl; intuition discriminate|]). constructor.
Qed.

Section Pipeline.
Variable analyzer : string -> list string.
Variable RandomState : Type.
Variable RandomState_seed : Z -> RandomState.
Variable RandomState_permutation : RandomState -> nat -> list nat * RandomState.
Variable forest : Type.
Variable grow : hyperparameters -> list (list Z) -> list cell -> forest.

Hypothesis permutation_spec :
  forall g n, Permutation (fst (RandomState_permutation g n)) (seq 0 n).

(** X16.  The steps of [main] up to the fitted model go through on every
    well-formed data set.  Let the table read from the file have exactly the
    six columns of the data set, text (or nothing) in AUTHOR, VIDEO_NAME and
    CONTENT and numbers (or nothing) in CLASS, at least two rows left after
    the two removal steps, and a token in some comment that is left.  Then
    cleaning, vectorizing and splitting with the default fraction return,
    all training and test features are integers, there is at least one test
    row, and fitting the forest with the hyperparameters of [main] (160
    trees, depth 20, square-root rule) returns a model over the columns
    AUTHOR, VIDEO_NAME and the vocabulary. *)
Theorem pipeline_fits_a_model (l : loc) (w : world) (df : DataFrame)
    (g : RandomState) :
  nth_error (heap w) l = Some df ->
  well_formed df ->
  Permutation (columns df) raw_columns ->
  text_column df "AUTHOR" -> text_column df "VIDEO_NAME" ->
  text_column df "CONTENT" ->
  Forall (fun c => is_str c = false) (column_values df "CLASS") ->
  2 <= nrows (retained df) ->
  (exists doc t, In (Str doc) (column_values (retained df) "CONTENT") /\
                 In t (analyzer doc)) ->
  exists w1 l2 w2 data x_train x_test y_train y_test model,
    data_cleaning_encoding l w = (ok l, w1) /\
    vectorizing analyzer l w1 = (ok l2, w2) /\
    nth_error (heap w2) l2 = Some data /\
    train_test_splitting RandomState_seed RandomState_permutation
      data default_test_size g = (ok (x_train, x_test, y_train, y_test), g) /\
    model_training_random_forest grow x_train y_train 160 (Some 20%Z) MF_sqrt
      = ok model /\
    nrows x_train + nrows x_test = nrows (retained df) /\
    0 < nrows x_test /\
    Forall (Forall (fun c => is_int c = true)) (values x_train) /\
    Forall (Forall (fun c => is_int c = true)) (values x_test) /\
    In "AUTHOR"%string (columns x_train) /\
    In "VIDEO_NAME"%string (columns x_train) /\
    rf_n_features_in_ model = length (columns x_train).
Proof.
  intros Hl Hwf Hperm HtA HtV HtC HcC Hn2 (doc & t & Hdoc & Ht).
  pose proof (nth_error_bound Hl) as Hb.
  assert (Hnd : NoDup (columns df)).
  { eapply Permutation_NoDup; [symmetry; exact Hperm|apply raw_columns_NoDup]. }
  assert (Hsix : forall c, In c (columns df) <-> In c raw_columns).
  { intros c. split; apply Permutation_in; [exact Hperm|now symmetry]. }
  assert (Hexp : expected_columns df).
  { intros c Hc. apply Hsix. exact Hc. }
  destruct (cleaned_total Hexp HtA HtV) as [out Hout].
  destruct (@cleaned_inv df out Hout)
    as (pA & pV & HA & HV & _ & _ & HD & HCI & ->).
  remember (cleaned_form df pA pV) as out eqn:Eout.
  assert (HinT : In "CONTENT"%string (columns df)) by (apply Hsix; simpl; tauto).
  assert (HinC : In "CLASS"%string (columns df)) by (apply Hsix; simpl; tauto).
  assert (Hwfo : well_formed out)
    by (rewrite Eout; now apply well_formed_cleaned_form).
  assert (Hcols : forall c, In c (columns out) <->
                            In c (columns df) /\ kept_column c = true).
  { intros c. rewrite Eout, cleaned_form_columns, select_map_filter.
    apply filter_In. }
  assert (HoT : In "CONTENT"%string (columns out)) by (apply Hcols; auto).
  assert (HoC : In "CLASS"%string (columns out)) by (apply Hcols; auto).
  assert (HoA : In "AUTHOR"%string (columns out)).
  { apply Hcols. split; [|reflexivity]. apply Hsix. simpl. tauto. }
  assert (HoV : In "VIDEO_NAME"%string (columns out)).
  { apply Hcols. split; [|reflexivity]. apply Hsix. simpl. tauto. }
  (* cleaning *)
  exists (at_loc l (heap w) out (stdout w ++ cleaning_lines df)).
  rewrite (@data_cleaning_encoding_ok l w df out Hl Hout).
  set (w1 := at_loc l (heap w) out (stdout w ++ cleaning_lines df)).
  assert (Hl1 : nth_error (heap w1) l = Some out) by now apply at_loc_lookup.
  (* the text of the comments *)
  assert (Hcontent : column_values out "CONTENT" =
                     column_values (retained df) "CONTENT").
  { rewrite Eout. apply cleaned_form_passes; auto.
    simpl. intuition discriminate. }
  assert (Hclass : column_values out "CLASS" =
                   column_values (retained df) "CLASS").
  { rewrite Eout. apply cleaned_form_passes; auto.
    simpl. intuition discriminate. }
  destruct (position_In _ _ HinT) as [pT HpT].
  destruct (position_In _ _ HinC) as [pC HpC].
  assert (Hcell : forall name p, position name (columns df) = Some p ->
            forall c, In c (column_values (retained df) name) ->
              c <> NaN /\ In c (column_values df name)).
  { intros name p Hp c Hc.
    rewrite (@column_values_position (retained df) name p) in Hc
      by (now rewrite retained_columns).
    split.
    - apply in_map_iff in Hc. destruct Hc as [r [<- Hr]].
      apply (@retained_cell_complete df r p Hwf Hr).
      now apply position_Some in Hp.
    - rewrite (column_values_position _ _ Hp).
      now apply retained_column_incl. }
  set (docs := map (fun c => match c with Str s => s | _ => EmptyString end)
                   (column_values (retained df) "CONTENT")).
  assert (Hdocs : column_values out "CONTENT" = map Str docs).
  { rewrite Hcontent. unfold docs. rewrite map_map.
    rewrite <- (map_id (column_values (retained df) "CONTENT")) at 1.
    apply map_ext_in. intros c Hc.
    destruct (Hcell _ _ HpT c Hc) as [Hnan Hin].
    unfold text_column in HtC. rewrite Forall_forall in HtC.
    specialize (HtC c Hin). destruct c; [contradiction|reflexivity|discriminate]. }
  assert (Hvoc : vocabulary analyzer docs <> []).
  { intros E.
    assert (Hv : In t (vocabulary analyzer docs)).
    { apply vocabulary_In. exists doc. split; [|exact Ht].
      unfold docs. apply in_map_iff. exists (Str doc). auto. }
    rewrite E in Hv. destruct Hv. }
  (* vectorizing *)
  eexists. eexists.
  rewrite (@vectorizing_ok analyzer l w1 out docs Hl1 HoT Hdocs Hvoc).
  set (vocab := vocabulary analyzer docs).
  set (data := {| index := seq 0 (nrows out);
                  columns := columns out ++ vocab;
                  values := map (fun i => nth i (values out) []
                                          ++ count_row analyzer vocab
                                               (nth i docs EmptyString))
                                (seq 0 (nrows out)) |}).
  exists data.
  assert (HN : nrows data = nrows (retained df)).
  { unfold data, nrows at 1. simpl. rewrite length_map, length_seq.
    rewrite Eout. apply cleaned_form_nrows. }
  (* splitting *)
  pose proof (@train_test_splitting_unfold RandomState RandomState_seed
                RandomState_permutation data default_test_size g) as Hsplit.
  cbv zeta in Hsplit.
  rewrite (proj2 (missing_columns_nil (columns data) ["CLASS"; "CONTENT"]%string))
    in Hsplit
    by (intros c [<-|[<-|[]]]; simpl; apply in_or_app; now left).
  destruct (@default_split_sizes (nrows data)) as
    (n_train & n_test & Hv & Hsum & Htrain & Htest & _); [lia|].
  rewrite Hv in Hsplit.
  set (permutation :=
         fst (RandomState_permutation (RandomState_seed 42) (nrows data))) in *.
  destruct (@split_permutation permutation (nrows data) n_train n_test
              (permutation_spec _ _) Hsum) as (Hpm & Hltrain & Hltest).
  set (train := firstn n_train (skipn n_test permutation)) in *.
  set (test := firstn n_test permutation) in *.
  set (keep := keep_but ["CLASS"; "CONTENT"]%string (columns data)) in *.
  set (x := {| index := index data; columns := select keep (columns data);
               values := map (select keep) (values data) |}) in *.
  set (y := {| s_index := index data;
               s_values := column_values data "CLASS" |}) in *.
  do 4 eexists.
  assert (Hbound : forall positions,
            incl positions permutation ->
            forall p, In p positions -> p < nrows data).
  { intros positions Hincl p Hp.
    apply Hincl in Hp.
    apply (Permutation_in _ (permutation_spec (RandomState_seed 42) (nrows data)))
      in Hp.
    apply in_seq in Hp. lia. }
  assert (Htrain_in : incl train permutation).
  { intros p Hp. eapply skipn_incl, firstn_incl, Hp. }
  assert (Htest_in : incl test permutation).
  { intros p Hp. eapply firstn_incl, Hp. }
  (* the features are integers *)
  assert (Hxrow : forall i, i < nrows data ->
            Forall (fun c => is_int c = true) (nth i (values x) [])).
  { intros i Hi. unfold x. simpl values.
    rewrite (@nth_map_default _ _ _ (values data) i []) by exact Hi.
    unfold data at 1. simpl values.
    rewrite nth_map_seq
      by (rewrite HN in Hi; rewrite Eout, cleaned_form_nrows; exact Hi).
    unfold keep, keep_but, data. simpl columns. rewrite map_app.
    assert (Hi' : i < nrows (retained df)) by (rewrite <- HN; exact Hi).
    assert (Hrow : nth i (values out) [] =
              select (map kept_column (columns df))
                (encode_row pA pV
                   (map (fun r => nth pA r NaN) (values (retained df)))
                   (map (fun r => nth pV r NaN) (values (retained df)))
                   (nth i (values (retained df)) []))).
    { rewrite Eout, cleaned_form_values by exact Hwf.
      now rewrite (@nth_map_default _ _ _ (values (retained df)) i []). }
    assert (Hri : In (nth i (values (retained df)) []) (values (retained df)))
      by (apply nth_In; exact Hi').
    pose proof (well_formed_retained Hwf) as [_ Hlen].
    rewrite retained_columns, Forall_forall in Hlen.
    specialize (Hlen _ Hri).
    rewrite select_app.
    2:{ rewrite length_map, Hrow, Eout.
        rewrite cleaned_form_columns. symmetry.
        apply select_same_length. now rewrite encode_row_length. }
    apply Forall_app. split.
    - rewrite Hrow, Eout, cleaned_form_columns.
      rewrite select_select by (now rewrite encode_row_length).
      apply (@select_Forall _ _ _ NaN);
        [now rewrite encode_row_length|].
      intros p Hp Hf. apply andb_true_iff in Hf. destruct Hf as [Hk Hf].
      assert (Hname : In (nth p (columns df) EmptyString) raw_columns)
        by (apply Hsix, nth_In, Hp).
      unfold mem_string in Hf. simpl in Hf, Hname.
      unfold kept_column, mem_string in Hk. simpl in Hk.
      destruct Hname as [E|[E|[E|[E|[E|[E|[]]]]]]];
        rewrite <- E in Hk, Hf; try discriminate.
      + rewrite (position_unique Hnd HA Hp (eq_sym E)).
        rewrite encode_row_author; [reflexivity| |].
        * intros ->. pose proof (position_inj _ _ _ HA HV). discriminate.
        * rewrite Hlen. now apply position_Some in HA.
      + rewrite (position_unique Hnd HV Hp (eq_sym E)).
        rewrite encode_row_video; [reflexivity|].
        rewrite Hlen. now apply position_Some in HV.
    - apply Forall_forall. intros c Hc. apply select_In in Hc.
      unfold count_row in Hc. apply in_map_iff in Hc.
      now destruct Hc as [tk [<- _]]. }
  assert (Hx : forall positions,
            (forall p, In p positions -> p < nrows data) ->
            Forall (Forall (fun c => is_int c = true))
                   (values (iloc x positions))).
  { intros positions Hpos. unfold iloc. simpl values.
    apply Forall_forall. intros r Hr. apply in_map_iff in Hr.
    destruct Hr as [i [<- Hi]]. apply Hxrow, Hpos, Hi. }
  (* the labels are integers *)
  assert (Hy : Forall (fun c => is_int c = true) (column_values data "CLASS")).
  { unfold data. rewrite (column_values_joined _ _ "CLASS" Hwfo HoC).
    rewrite Hclass. apply Forall_forall. intros c Hc.
    destruct (Hcell _ _ HpC c Hc) as [Hnan Hin].
    rewrite Forall_forall in HcC. specialize (HcC c Hin).
    destruct c; [contradiction|discriminate|reflexivity]. }
  assert (HyN : length (column_values data "CLASS") = nrows data).
  { apply column_values_length. simpl. apply in_or_app. now left. }
  (* training *)
  destruct (@model_training_random_forest_ok forest grow
              (iloc x train) (iloc_series y train)) as (model & Hfit & Hnf & _).
  { rewrite iloc_nrows. lia. }
  { now rewrite iloc_nrows, iloc_series_length. }
  { intros E.
    assert (H : In "AUTHOR"%string (select keep (columns data))).
    { apply keep_but_In. split; [simpl; apply in_or_app; now left|].
      simpl. intuition discriminate. }
    change (columns (iloc x train)) with (select keep (columns data)) in E.
    rewrite E in H. destruct H. }
  { apply Hx. now apply Hbound. }
  { simpl. apply Forall_forall. intros c Hc. apply in_map_iff in Hc.
    destruct Hc as [i [<- Hi]].
    rewrite Forall_forall in Hy. apply Hy, nth_In.
    rewrite HyN. exact (Hbound train Htrain_in i Hi). }
  exists model.
  split; [reflexivity|]. split; [reflexivity|].
  split.
  { simpl. rewrite nth_error_app2 by (rewrite !replace_nth_length; lia).
    rewrite !replace_nth_length, Nat.sub_diag. reflexivity. }
  split; [exact Hsplit|].
  split; [exact Hfit|].
  split; [rewrite !iloc_nrows; lia|].
  split; [rewrite iloc_nrows; lia|].
  split; [apply Hx; now apply Hbound|].
  split; [apply Hx; now apply Hbound|].
  split.
  { simpl. apply keep_but_In. split; [simpl; apply in_or_app; now left|].
    simpl. intuition discriminate. }
  split.
  { simpl. apply keep_but_In. split; [simpl; apply in_or_app; now left|].
    simpl. intuition discriminate. }
  exact Hnf.
Qed.
End Pipeline.

Lemma pipeline_fits_a_model_witness :
  exists w1 l2 w2 data x_train x_test y_train y_test model,
    data_cleaning_encoding 0 (store_of six_comments) = (ok 0, w1) /\
    vectorizing ascii_analyzer 0 w1 = (ok l2, w2) /\
    nth_error (heap w2) l2 = Some data /\
    train_test_splitting toy_seed toy_permutation data default_test_size 0
      = (ok (x_train, x_test, y_train, y_test), 0) /\
    model_training_random_forest (fun _ _ _ => tt) x_train y_train
      160 (Some 20%Z) MF_sqrt = ok model /\
    nrows x_train + nrows x_test = 6 /\
    0 < nrows x_test.
Proof.
  assert (Hwf : well_formed six_comments) by literal_table.
  assert (HtA : text_column six_comments "AUTHOR")
    by (unfold text_column; vm_compute; repeat constructor).
  assert (HtV : text_column six_comments "VIDEO_NAME")
    by (unfold text_column; vm_compute; repeat constructor).
  assert (HtC : text_column six_comments "CONTENT")
    by (unfold text_column; vm_compute; repeat constructor).
  assert (HcC : Forall (fun c => is_str c = false)
                       (column_values six_comments "CLASS"))
    by (vm_compute; repeat constructor).
  assert (Hn : 2 <= nrows (retained six_comments)) by (vm_compute; lia).
  assert (Htok : exists doc t,
            In (Str doc) (column_values (retained six_comments) "CONTENT") /\
            In t (ascii_analyzer doc)).
  { exists "buy cheap followers now"%string, "buy"%string.
    split; vm_compute; auto. }
  destruct (@pipeline_fits_a_model ascii_analyzer nat toy_seed toy_permutation
              unit (fun _ _ _ => tt) toy_permutation_spec
              0 (store_of six_comments) six_comments 0
              eq_refl Hwf (Permutation_refl _) HtA HtV HtC HcC Hn Htok)
    as (w1 & l2 & w2 & data & x_train & x_test & y_train & y_test & model
        & H1 & H2 & H3 & H4 & H5 & H6 & H7 & _).
  exists w1, l2, w2, data, x_train, x_test, y_train, y_test, model.
  repeat split; assumption.
Defined.

(** ** The pipeline on a data set that is too small *)

Lemma vectorizing_no_token (analyzer : string -> list string) (l : loc)
    (w : world) (df : DataFrame) (docs : list string) :
  nth_error (heap w) l = Some df ->
  In "CONTENT"%string (columns df) ->
  column_values df "CONTENT" = map Str docs ->
  (forall doc, In doc docs -> analyzer doc = []) ->
  vectorizing analyzer l w = (raise ValueError, w).
Proof.
  intros Hl Hin Hdocs Hnone. pose proof (nth_error_bound Hl) as Hb.
  pose proof (@vectorizing_run analyzer l (heap w) Hb df (stdout w)) as Hrun.
  rewrite <- (at_loc_found Hl) in Hrun. rewrite Hrun.
  destruct (@getitem_present df "CONTENT" Hin) as [s [Hg Hs]]. rewrite Hg.
  unfold CountVectorizer_fit_transform.
  rewrite Hs, Hdocs, mapM_decode_text. simpl rbind.
  now rewrite (vocabulary_nil analyzer docs Hnone).
Qed.

(** What cleaning hands to [vectorizing], on a table with the expected
    columns and text in the three text columns. *)
Lemma cleaning_feeds_vectorizing (l : loc) (w : world) (df : DataFrame) :
  nth_error (heap w) l = Some df ->
  well_formed df -> expected_columns df ->
  text_column df "AUTHOR" -> text_column df "VIDEO_NAME" ->
  text_column df "CONTENT" ->
  exists w1 out docs,
    data_cleaning_encoding l w = (ok l, w1) /\
    nth_error (heap w1) l = Some out /\
    nrows out = nrows (retained df) /\
    In "CONTENT"%string (columns out) /\ In "CLASS"%string (columns out) /\
    column_values out "CONTENT" = map Str docs /\
    map Str docs = column_values (retained df) "CONTENT".
Proof.
  intros Hl Hwf Hexp HtA HtV HtC. pose proof (nth_error_bound Hl) as Hb.
  destruct (cleaned_total Hexp HtA HtV) as [out Hout].
  destruct (@cleaned_inv df out Hout)
    as (pA & pV & HA & HV & _ & _ & HD & HCI & Eout).
  assert (HinT : In "CONTENT"%string (columns df)) by (apply Hexp; simpl; tauto).
  assert (HinC : In "CLASS"%string (columns df)) by (apply Hexp; simpl; tauto).
  assert (Hcols : forall c, In c (columns out) <->
                            In c (columns df) /\ kept_column c = true).
  { intros c. rewrite Eout, cleaned_form_columns, select_map_filter.
    apply filter_In. }
  exists (at_loc l (heap w) out (stdout w ++ cleaning_lines df)), out,
         (map (fun c => match c with Str s => s | _ => EmptyString end)
              (column_values (retained df) "CONTENT")).
  split; [apply (@data_cleaning_encoding_ok l w df out Hl Hout)|].
  split; [now apply at_loc_lookup|].
  split; [rewrite Eout; apply cleaned_form_nrows|].
  split; [apply Hcols; auto|]. split; [apply Hcols; auto|].
  assert (Hcontent : column_values out "CONTENT" =
                     column_values (retained df) "CONTENT").
  { rewrite Eout. apply cleaned_form_passes; auto.
    simpl. intuition discriminate. }
  assert (Htext : map Str (map (fun c => match c with
                                         | Str s => s
                                         | _ => EmptyString
                                         end)
                             (column_values (retained df) "CONTENT")) =
                  column_values (retained df) "CONTENT").
  { rewrite map_map.
    transitivity (map (fun c => c) (column_values (retained df) "CONTENT"));
      [|apply map_id].
    apply map_ext_in. intros c Hc.
    destruct (position_In _ _ HinT) as [pT HpT].
    rewrite (@column_values_position (retained df) "CONTENT" pT) in Hc
      by (now rewrite retained_columns).
    assert (Hnan : c <> NaN).
    { apply in_map_iff in Hc. destruct Hc as [r [<- Hr]].
      apply (@retained_cell_complete df r pT Hwf Hr).
      now apply position_Some in HpT. }
    apply retained_column_incl in Hc.
    rewrite <- (column_values_position _ _ HpT) in Hc.
    unfold text_column in HtC. rewrite Forall_forall in HtC.
    specialize (HtC c Hc).
    destruct c; [contradiction|reflexivity|discriminate]. }
  split; [now rewrite Hcontent, Htext|exact Htext].
Qed.

Section TooSmall.
Variable analyzer : string -> list string.
Variable RandomState : Type.
Variable RandomState_seed : Z -> RandomState.
Variable RandomState_permutation : RandomState -> nat -> list nat * RandomState.

(** X28.  What [main] runs into on a data set that is too small (expected
    columns, text in the text columns).  If the removal steps leave no row,
    cleaning still returns, an empty table, and [vectorizing] raises the
    value error, there being no vocabulary.  If they leave exactly one row,
    whose comment has a token, cleaning and vectorizing return and
    [train_test_splitting] raises the value error: one row cannot be
    divided between training and test. *)
Theorem pipeline_needs_two_rows (l : loc) (w : world) (df : DataFrame)
    (g : RandomState) :
  nth_error (heap w) l = Some df ->
  well_formed df -> expected_columns df ->
  text_column df "AUTHOR" -> text_column df "VIDEO_NAME" ->
  text_column df "CONTENT" ->
  (nrows (retained df) = 0 ->
   exists w1 out,
     data_cleaning_encoding l w = (ok l, w1) /\
     nth_error (heap w1) l = Some out /\ nrows out = 0 /\
     vectorizing analyzer l w1 = (raise ValueError, w1)) /\
  (nrows (retained df) = 1 ->
   (exists doc t, In (Str doc) (column_values (retained df) "CONTENT") /\
                  In t (analyzer doc)) ->
   exists w1 l2 w2 data,
     data_cleaning_encoding l w = (ok l, w1) /\
     vectorizing analyzer l w1 = (ok l2, w2) /\
     nth_error (heap w2) l2 = Some data /\ nrows data = 1 /\
     train_test_splitting RandomState_seed RandomState_permutation
       data default_test_size g = (raise ValueError, g)).
Proof.
  intros Hl Hwf Hexp HtA HtV HtC.
  destruct (@cleaning_feeds_vectorizing l w df Hl Hwf Hexp HtA HtV HtC)
    as (w1 & out & docs & Hclean & Hl1 & Hn & HoT & HoC & Hdocs & Htext).
  split.
  - intros H0. exists w1, out.
    split; [exact Hclean|]. split; [exact Hl1|]. split; [lia|].
    apply (@vectorizing_no_token analyzer l w1 out docs Hl1 HoT Hdocs).
    intros doc Hdoc. exfalso.
    assert (Hlen : length (map Str docs) = 0).
    { rewrite <- Hdocs, column_values_length by exact HoT. lia. }
    rewrite length_map in Hlen. destruct docs; [destruct Hdoc|discriminate].
  - intros H1 (doc & t & Hdoc & Ht).
    assert (Hvoc : vocabulary analyzer docs <> []).
    { intros E.
      assert (Hv : In t (vocabulary analyzer docs)).
      { apply vocabulary_In. exists doc. split; [|exact Ht].
        rewrite <- Htext in Hdoc. apply in_map_iff in Hdoc.
        destruct Hdoc as [d [E' Hd]]. now inversion E'; subst. }
      rewrite E in Hv. destruct Hv. }
    exists w1. eexists. eexists. eexists.
    split; [exact Hclean|].
    split; [apply (@vectorizing_ok analyzer l w1 out docs Hl1 HoT Hdocs Hvoc)|].
    pose proof (nth_error_bound Hl1) as Hb1.
    split.
    { simpl. rewrite nth_error_app2 by (rewrite replace_nth_length; lia).
      rewrite replace_nth_length, Nat.sub_diag. reflexivity. }
    assert (HN : nrows
                   {| index := seq 0 (nrows out);
                      columns := columns out ++ vocabulary analyzer docs;
                      values :=
                        map (fun i => nth i (values out) []
                                      ++ count_row analyzer
                                           (vocabulary analyzer docs)
                                           (nth i docs EmptyString))
                            (seq 0 (nrows out)) |} = 1).
    { unfold nrows at 1. simpl. rewrite length_map, length_seq. lia. }
    split; [exact HN|].
    rewrite train_test_splitting_unfold.
    rewrite (proj2 (missing_columns_nil _ ["CLASS"; "CONTENT"]%string))
      by (intros c [<-|[<-|[]]]; simpl; apply in_or_app; now left).
    rewrite HN. reflexivity.
Qed.
End TooSmall.

Lemma pipeline_needs_two_rows_witness :
  (exists w1,
     data_cleaning_encoding 0 (store_of raw_all_incomplete) = (ok 0, w1) /\
     vectorizing ascii_analyzer 0 w1 = (raise ValueError, w1)) /\
  (exists w1 l2 w2 data,
     data_cleaning_encoding 0 (store_of raw_one_complete) = (ok 0, w1) /\
     vectorizing ascii_analyzer 0 w1 = (ok l2, w2) /\
     nth_error (heap w2) l2 = Some data /\
     train_test_splitting toy_seed toy_permutation data default_test_size 0
       = (raise ValueError, 0)).
Proof.
  split.
  - assert (Hwf : well_formed raw_all_incomplete) by literal_table.
    assert (Hexp : expected_columns raw_all_incomplete)
      by (intros c Hc; exact Hc).
    assert (HtA : text_column raw_all_incomplete "AUTHOR")
      by (unfold text_column; vm_compute; repeat constructor).
    assert (HtV : text_column raw_all_incomplete "VIDEO_NAME")
      by (unfold text_column; vm_compute; repeat constructor).
    assert (HtC : text_column raw_all_incomplete "CONTENT")
      by (unfold text_column; vm_compute; repeat constructor).
    destruct (proj1 (@pipeline_needs_two_rows ascii_analyzer nat toy_seed
                       toy_permutation 0 (store_of raw_all_incomplete)
                       raw_all_incomplete 0 eq_refl Hwf Hexp HtA HtV HtC)
                eq_refl) as (w1 & out & H1 & _ & _ & H2).
    exists w1. split; assumption.
  - assert (Hwf : well_formed raw_one_complete) by literal_table.
    assert (Hexp : expected_columns raw_one_complete)
      by (intros c Hc; exact Hc).
    assert (HtA : text_column raw_one_complete "AUTHOR")
      by (unfold text_column; vm_compute; repeat constructor).
    assert (HtV : text_column raw_one_complete "VIDEO_NAME")
      by (unfold text_column; vm_compute; repeat constructor).
    assert (HtC : text_column raw_one_complete "CONTENT")
      by (unfold text_column; vm_compute; repeat constructor).
    destruct (proj2 (@pipeline_needs_two_rows ascii_analyzer nat toy_seed
                       toy_permutation 0 (store_of raw_one_complete)
                       raw_one_complete 0 eq_refl Hwf Hexp HtA HtV HtC)
                eq_refl)
      as (w1 & l2 & w2 & data & H1 & H2 & H3 & _ & H4).
    { exists "buy cheap followers now"%string, "buy"%string.
      split; vm_compute; auto. }
    exists w1, l2, w2, data. repeat split; assumption.
Defined.

(** ** Evaluation: the scores under exchange of the two arguments *)

Lemma cell_eqb_sym (a b : cell) : cell_eqb a b = cell_eqb b a.
Proof.
  destruct a, b; simpl; try reflexivity;
    [apply String.eqb_sym|apply Z.eqb_sym].
Qed.

Lemma count_pairs_swap (f : cell * cell -> bool) (a b : list cell) :
  count_pairs f a b = count_pairs (fun p => f (snd p, fst p)) b a.
Proof.
  unfold count_pairs. revert b.
  induction a as [|x a IH]; intros [|y b]; simpl; try reflexivity.
  destruct (f (x, y)); simpl; now rewrite IH.
Qed.

Lemma mixed_app_comm (a b : list cell) : mixed (a ++ b) = mixed (b ++ a).
Proof.
  unfold mixed. rewrite !existsb_app.
  rewrite (orb_comm (existsb is_str a)), (orb_comm (existsb is_int a)).
  reflexivity.
Qed.

Lemma unique_app_comm (a b : list cell) :
  unique cell_compare (a ++ b) = unique cell_compare (b ++ a).
Proof.
  apply (sorted_ext cell_compare cell_compare_eq cell_compare_trans).
  - apply unique_cells_sorted.
  - apply unique_cells_sorted.
  - intros x. rewrite !unique_cells_In, !in_app_iff. tauto.
Qed.

Lemma check_targets_swap (a b : list cell) :
  check_targets a b = check_targets b a.
Proof.
  unfold check_targets.
  rewrite (Nat.eqb_sym (length a)), (mixed_app_comm a b), (unique_app_comm a b).
  rewrite (orb_comm (mixed a)), !existsb_app, (orb_comm (existsb isnull a)).
  reflexivity.
Qed.

Lemma check_binary_swap (c : cell) (a b : list cell) :
  check_binary c a b = check_binary c b a.
Proof. unfold check_binary. now rewrite check_targets_swap. Qed.

Lemma tp_sum_swap (c : cell) (a b : list cell) : tp_sum c a b = tp_sum c b a.
Proof.
  unfold tp_sum. rewrite count_pairs_swap. unfold count_pairs. f_equal.
  apply filter_ext. intros p. apply andb_comm.
Qed.

Lemma count_matching_swap (a b : list cell) :
  count_matching a b = count_matching b a.
Proof.
  unfold count_matching. rewrite count_pairs_swap. unfold count_pairs. f_equal.
  apply filter_ext. intros p. simpl. apply cell_eqb_sym.
Qed.

Lemma check_binary_inv (c : cell) (a b : list cell) :
  check_binary c a b = ok tt -> length a = length b.
Proof.
  unfold check_binary.
  destruct (check_targets a b) as [labels|e] eqn:E; [|discriminate].
  intros _. now destruct (check_targets_inv _ _ E).
Qed.

(** What [model_evaluation_scores] returns, when it returns. *)
Lemma model_evaluation_scores_inv (y_pred : list cell) (y_test : Series)
    (accuracy precision recall f1 : float) :
  model_evaluation_scores y_pred y_test = ok (accuracy, precision, recall, f1) ->
  let y_true := s_values y_test in
  length y_true = length y_pred /\
  check_binary pos_label y_true y_pred = ok tt /\
  accuracy = match length y_true with
             | O => nan
             | S n' => finite (Z.of_nat (count_matching y_true y_pred)
                               # Pos.of_succ_nat n')
             end /\
  precision = finite (precision_for pos_label y_true y_pred) /\
  recall = finite (recall_for pos_label y_true y_pred) /\
  f1 = finite (f1_for pos_label y_true y_pred).
Proof.
  intros H y_true. unfold model_evaluation_scores in H. fold y_true in H.
  unfold accuracy_score, precision_score, recall_score, f1_score in H.
  destruct (check_targets y_true y_pred) as [labels|e] eqn:Ec;
    [|discriminate].
  destruct (check_targets_inv _ _ Ec) as [Hlen _].
  simpl in H.
  destruct (check_binary pos_label y_true y_pred) as [[]|e] eqn:Eb;
    [|destruct (length y_true); discriminate].
  split; [exact Hlen|]. split; [reflexivity|].
  destruct (length y_true); simpl in H; inversion H; auto.
Qed.

Lemma model_evaluation_scores_ok (y_pred : list cell) (y_test : Series) :
  let y_true := s_values y_test in
  check_binary pos_label y_true y_pred = ok tt ->
  model_evaluation_scores y_pred y_test =
  ok (match length y_true with
      | O => nan
      | S n' => finite (Z.of_nat (count_matching y_true y_pred)
                        # Pos.of_succ_nat n')
      end,
      finite (precision_for pos_label y_true y_pred),
      finite (recall_for pos_label y_true y_pred),
      finite (f1_for pos_label y_true y_pred)).
Proof.
  intros y_true Hb. unfold model_evaluation_scores. fold y_true.
  unfold accuracy_score, precision_score, recall_score, f1_score.
  rewrite Hb. unfold check_binary in Hb.
  destruct (check_targets y_true y_pred) as [labels|e]; [|discriminate].
  simpl. destruct (length y_true); reflexivity.
Qed.

(** X18.  The two arguments of [model_evaluation_scores] are not
    interchangeable: given the labels in the other order (the true labels as
    predictions and the predictions as true labels), it returns the same
    accuracy and the same F1, with precision and recall exchanged. *)
Theorem model_evaluation_scores_swapped (y_pred : list cell) (y_test : Series)
    (accuracy precision recall f1 : float) (idx : list nat) :
  y_pred <> [] ->
  model_evaluation_scores y_pred y_test =
    ok (accuracy, precision, recall, f1) ->
  model_evaluation_scores (s_values y_test)
    {| s_index := idx; s_values := y_pred |} =
    ok (accuracy, recall, precision, f1).
Proof.
  intros Hne H.
  destruct (model_evaluation_scores_inv _ _ H)
    as (Hlen & Hb & -> & -> & -> & ->).
  rewrite model_evaluation_scores_ok by (simpl; now rewrite check_binary_swap).
  simpl s_values. rewrite <- Hlen.
  unfold precision_for, recall_for, f1_for.
  rewrite (tp_sum_swap pos_label y_pred (s_values y_test)).
  rewrite (count_matching_swap y_pred (s_values y_test)).
  unfold true_sum, pred_sum.
  rewrite (Nat.add_comm (length (filter _ y_pred))).
  reflexivity.
Qed.

Lemma model_evaluation_scores_swapped_witness :
  model_evaluation_scores [Int 1; Int 0; Int 0] (series_of [Int 1; Int 1; Int 0])
  = ok (finite (2 # 3), finite 1, finite (1 # 2), finite (2 # 3)).
Proof.
  apply (@model_evaluation_scores_swapped
           [Int 1; Int 1; Int 0] (series_of [Int 1; Int 0; Int 0])
           (finite (2 # 3)) (finite (1 # 2)) (finite 1) (finite (2 # 3))
           (seq 0 3)).
  - discriminate.
  - reflexivity.
Defined.

(** ** Evaluation: range of the scores, and when they are returned *)

Lemma filter_and_length_le {X} (f g : X -> bool) (l : list X) :
  length (filter (fun x => f x && g x) l) <= length (filter f l).
Proof.
  induction l as [|x t IH]; simpl; [lia|].
  destruct (f x); destruct (g x); simpl; lia.
Qed.

Lemma tp_sum_le_true (c : cell) (y_true y_pred : list cell) :
  length y_true = length y_pred -> tp_sum c y_true y_pred <= true_sum c y_true.
Proof.
  intros Hlen. rewrite <- (count_fst c _ _ Hlen).
  apply filter_and_length_le.
Qed.

Lemma tp_sum_le_pred (c : cell) (y_true y_pred : list cell) :
  length y_true = length y_pred -> tp_sum c y_true y_pred <= pred_sum c y_pred.
Proof.
  intros Hlen. rewrite tp_sum_swap.
  change (pred_sum c y_pred) with (true_sum c y_pred).
  apply tp_sum_le_true. now symmetry.
Qed.

Lemma count_matching_le (y_true y_pred : list cell) :
  count_matching y_true y_pred <= length y_true.
Proof.
  unfold count_matching, count_pairs.
  etransitivity; [apply filter_length_le|].
  rewrite length_combine. lia.
Qed.

Lemma prf_divide_range (n d : nat) :
  n <= d -> (0 <= prf_divide n d)%Q /\ (prf_divide n d <= 1)%Q.
Proof.
  intros H. destruct d as [|d]; simpl.
  - split; [apply Qle_refl|discriminate].
  - unfold Qle. simpl. split; [lia|].
    rewrite Zpos_P_of_succ_nat. lia.
Qed.

(** X19.  Each of the four numbers [model_evaluation_scores] returns for a
    non-empty test set is a fraction between 0 and 1. *)
Theorem model_evaluation_scores_range (y_pred : list cell) (y_test : Series)
    (accuracy precision recall f1 : float) :
  y_pred <> [] ->
  model_evaluation_scores y_pred y_test =
    ok (accuracy, precision, recall, f1) ->
  Forall (fun score => exists q, score = finite q /\ (0 <= q)%Q /\ (q <= 1)%Q)
         [accuracy; precision; recall; f1].
Proof.
  intros Hne H.
  destruct (model_evaluation_scores_inv _ _ H)
    as (Hlen & Hb & -> & -> & -> & ->).
  pose proof (tp_sum_le_true pos_label _ _ Hlen) as Ht.
  pose proof (tp_sum_le_pred pos_label _ _ Hlen) as Hp.
  repeat constructor.
  - destruct (length (s_values y_test)) as [|n] eqn:E.
    { destruct y_pred; [contradiction|discriminate]. }
    eexists. split; [reflexivity|].
    pose proof (count_matching_le (s_values y_test) y_pred) as Hm.
    rewrite E in Hm.
    apply (@prf_divide_range _ (S n) Hm).
  - eexists. split; [reflexivity|]. now apply prf_divide_range.
  - eexists. split; [reflexivity|]. now apply prf_divide_range.
  - eexists. split; [reflexivity|]. apply prf_divide_range. lia.
Qed.

Lemma model_evaluation_scores_range_witness :
  Forall (fun score => exists q, score = finite q /\ (0 <= q)%Q /\ (q <= 1)%Q)
         [finite (2 # 3); finite (1 # 2); finite 1; finite (2 # 3)].
Proof.
  apply (@model_evaluation_scores_range
           [Int 1; Int 1; Int 0] (series_of [Int 1; Int 0; Int 0])).
  - discriminate.
  - reflexivity.
Defined.

Lemma check_targets_ints (y_true y_pred : list cell) :
  Forall (fun c => is_int c = true) y_true ->
  Forall (fun c => is_int c = true) y_pred ->
  check_targets y_true y_pred =
  if length y_true =? length y_pred
  then ok (unique cell_compare (y_true ++ y_pred))
  else raise ValueError.
Proof.
  intros Ht Hp. unfold check_targets.
  destruct (length y_true =? length y_pred); [|reflexivity]. simpl.
  assert (Hall : Forall (fun c => is_int c = true) (y_true ++ y_pred))
    by (apply Forall_app; auto).
  destruct (int_cells_complete Hall) as [-> ->].
  destruct (int_cells_complete Ht) as [_ ->].
  destruct (int_cells_complete Hp) as [_ ->].
  reflexivity.
Qed.

Lemma existsb_cell_eqb (c : cell) (l : list cell) :
  existsb (cell_eqb c) l = true <-> In c l.
Proof.
  rewrite existsb_exists. split.
  - intros [x [Hx E]]. apply cell_eqb_eq in E. now subst.
  - intros H. exists c. split; [exact H|apply cell_eqb_refl].
Qed.

(** X20.  Which integer labels [model_evaluation_scores] accepts.  For a
    non-empty test set and as many predictions as test labels, it returns
    exactly when at most two distinct labels occur among the test labels
    and the predictions and, where two occur, one of them is 1; more than
    two labels, two labels other than 1 (such as 0 and 2), or a different
    number of predictions raise the value error. *)
Theorem model_evaluation_scores_domain (y_pred : list cell) (y_test : Series) :
  let y_true := s_values y_test in
  let labels := distinct (y_true ++ y_pred) in
  Forall (fun c => is_int c = true) y_true ->
  Forall (fun c => is_int c = true) y_pred ->
  y_true <> [] ->
  (length y_pred = length y_true ->
   labels <= 1 \/ (labels = 2 /\ In (Int 1) (y_true ++ y_pred)) ->
   exists scores, model_evaluation_scores y_pred y_test = ok scores) /\
  (length y_pred <> length y_true \/ 2 < labels \/
   (labels = 2 /\ ~ In (Int 1) (y_true ++ y_pred)) ->
   model_evaluation_scores y_pred y_test = raise ValueError).
Proof.
  intros y_true labels Ht Hp Hne.
  assert (Hb : check_binary pos_label y_true y_pred =
               if length y_true =? length y_pred
               then if 2 <? labels then raise ValueError
                    else if negb (existsb (cell_eqb pos_label)
                                    (unique cell_compare (y_true ++ y_pred)))
                            && (2 <=? labels)
                         then raise ValueError else ok tt
               else raise ValueError).
  { unfold check_binary. rewrite check_targets_ints by assumption.
    destruct (length y_true =? length y_pred); [|reflexivity]. simpl.
    now rewrite distinct_unique. }
  assert (Hin : existsb (cell_eqb pos_label)
                        (unique cell_compare (y_true ++ y_pred)) = true <->
                In (Int 1) (y_true ++ y_pred)).
  { rewrite existsb_cell_eqb. apply unique_cells_In. }
  split.
  - intros Hlen Hlabels. eexists.
    apply model_evaluation_scores_ok. fold y_true. rewrite Hb.
    rewrite Hlen, Nat.eqb_refl.
    destruct Hlabels as [H|[H H1]].
    + destruct (Nat.ltb_spec 2 labels); [lia|].
      destruct (Nat.leb_spec 2 labels); [lia|].
      now rewrite andb_false_r.
    + rewrite H. simpl. now rewrite (proj2 Hin H1).
  - intros Hcase. unfold model_evaluation_scores. fold y_true.
    unfold accuracy_score, precision_score.
    rewrite check_targets_ints by assumption. rewrite Hb.
    destruct (Nat.eqb_spec (length y_true) (length y_pred)) as [E|N];
      [|reflexivity].
    destruct y_true as [|c t] eqn:Ey; [contradiction|]. rewrite <- Ey in *.
    assert (El : length y_true = S (length t)) by (rewrite Ey; reflexivity).
    rewrite El. simpl rbind.
    destruct Hcase as [H|[H|[H H1]]].
    + congruence.
    + apply Nat.ltb_lt in H. now rewrite H.
    + rewrite H. simpl.
      destruct (existsb (cell_eqb pos_label)
                        (unique cell_compare (y_true ++ y_pred))) eqn:Ex;
        [|reflexivity].
      destruct H1. now apply Hin.
Qed.

Lemma model_evaluation_scores_domain_witness :
  (exists scores,
     model_evaluation_scores [Int 0; Int 0] (series_of [Int 0; Int 0])
     = ok scores) /\
  model_evaluation_scores [Int 0; Int 2] (series_of [Int 0; Int 2])
  = raise ValueError.
Proof.
  assert (H00 : Forall (fun c => is_int c = true) [Int 0; Int 0])
    by (repeat constructor).
  assert (H02 : Forall (fun c => is_int c = true) [Int 0; Int 2])
    by (repeat constructor).
  split.
  - apply (proj1 (@model_evaluation_scores_domain
                    [Int 0; Int 0] (series_of [Int 0; Int 0]) H00 H00
                    ltac:(discriminate))).
    + reflexivity.
    + left. vm_compute. lia.
  - apply (proj2 (@model_evaluation_scores_domain
                    [Int 0; Int 2] (series_of [Int 0; Int 2]) H02 H02
                    ltac:(discriminate))).
    right. right. split; [reflexivity|]. simpl. intuition discriminate.
Defined.

(** ** Evaluation: perfect predictions, and F1 as a mean *)

Lemma count_pairs_same (f : cell * cell -> bool) (g : cell -> bool)
    (y : list cell) :
  (forall c, f (c, c) = g c) ->
  count_pairs f y y = length (filter g y).
Proof.
  intros H. unfold count_pairs.
  induction y as [|c t IH]; simpl; [reflexivity|].
  rewrite H. destruct (g c); simpl; now rewrite IH.
Qed.

Lemma prf_divide_same (n : nat) : n <> 0 -> (prf_divide n n == 1)%Q.
Proof.
  intros H. destruct n as [|n]; [contradiction|].
  unfold prf_divide, Qeq. simpl. rewrite Zpos_P_of_succ_nat. lia.
Qed.

Lemma filter_length_pos {X} (f : X -> bool) (l : list X) (x : X) :
  In x l -> f x = true -> length (filter f l) <> 0.
Proof.
  intros Hin Hf.
  assert (H : In x (filter f l)) by (apply filter_In; auto).
  destruct (filter f l); [destruct H|discriminate].
Qed.

(** X21.  Predictions that equal the test labels (labels 0 and 1, at least
    one row) score accuracy 1.  Precision, recall and F1 are 1 too when some
    row is of class 1; when every row is of class 0, the class shown as
    SPAM, they are 0: the three scores are those of class 1 only, and a
    score over no row is 0. *)
Theorem model_evaluation_scores_perfect (y_test : Series) :
  let y := s_values y_test in
  binary_labels y -> y <> [] ->
  exists accuracy precision recall f1,
    model_evaluation_scores y y_test =
      ok (finite accuracy, finite precision, finite recall, finite f1) /\
    (accuracy == 1)%Q /\
    (In (Int 1) y ->
     (precision == 1)%Q /\ (recall == 1)%Q /\ (f1 == 1)%Q) /\
    (~ In (Int 1) y -> precision = 0%Q /\ recall = 0%Q /\ f1 = 0%Q).
Proof.
  intros y Hb Hne.
  rewrite model_evaluation_scores_ok
    by (apply check_binary_ok; [reflexivity|exact Hb|exact Hb]).
  fold y. destruct (length y) as [|n] eqn:En.
  { destruct y; [contradiction|discriminate]. }
  do 4 eexists. split; [reflexivity|].
  assert (Hm : count_matching y y = S n).
  { unfold count_matching.
    rewrite (@count_pairs_same _ (fun _ => true))
      by (intros c; apply cell_eqb_refl).
    rewrite <- En. clear. induction y; simpl; auto. }
  assert (Htp : tp_sum pos_label y y = true_sum pos_label y).
  { unfold tp_sum, true_sum.
    apply count_pairs_same. intros c. simpl. apply andb_diag. }
  unfold precision_for, recall_for, f1_for.
  change (pred_sum pos_label y) with (true_sum pos_label y). rewrite Htp.
  split.
  { rewrite Hm. apply (@prf_divide_same (S n)). discriminate. }
  split.
  - intros H1.
    assert (Hpos : true_sum pos_label y <> 0).
    { unfold true_sum. apply (@filter_length_pos _ _ _ (Int 1) H1).
      reflexivity. }
    split; [now apply prf_divide_same|].
    split; [now apply prf_divide_same|].
    replace (2 * true_sum pos_label y)
      with (true_sum pos_label y + true_sum pos_label y) by lia.
    apply prf_divide_same. lia.
  - intros H1.
    assert (Hz : true_sum pos_label y = 0).
    { unfold true_sum.
      rewrite filter_nil_of_Forall; [reflexivity|].
      apply Forall_forall. intros c Hc.
      destruct (cell_eqb c pos_label) eqn:E; [|reflexivity].
      apply cell_eqb_eq in E. subst c. contradiction. }
    rewrite Hz. repeat split; reflexivity.
Qed.

Lemma model_evaluation_scores_perfect_witness :
  exists accuracy,
    model_evaluation_scores [Int 0; Int 0; Int 0]
      (series_of [Int 0; Int 0; Int 0]) =
    ok (finite accuracy, finite 0, finite 0, finite 0) /\
    (accuracy == 1)%Q.
Proof.
  destruct (@model_evaluation_scores_perfect
              (series_of [Int 0; Int 0; Int 0]))
    as (accuracy & precision & recall & f1 & Hrun & Ha & _ & Hzero).
  - literal_labels.
  - discriminate.
  - destruct Hzero as (-> & -> & ->); [simpl; intuition discriminate|].
    exists accuracy. split; [exact Hrun|exact Ha].
Defined.

(** X22.  The F1 that [model_evaluation_scores] returns is the harmonic mean
    of the precision and the recall it returns:
    F1 * (precision + recall) = 2 * precision * recall, also where one of
    them is 0. *)
Theorem model_evaluation_scores_f1 (y_pred : list cell) (y_test : Series)
    (accuracy : float) (precision recall f1 : Q) :
  model_evaluation_scores y_pred y_test =
    ok (accuracy, finite precision, finite recall, finite f1) ->
  (f1 * (precision + recall) == 2 * precision * recall)%Q.
Proof.
  intros H.
  destruct (model_evaluation_scores_inv _ _ H)
    as (Hlen & _ & _ & Hp & Hr & Hf).
  inversion Hp. inversion Hr. inversion Hf.
  unfold precision_for, recall_for, f1_for.
  pose proof (tp_sum_le_true pos_label _ _ Hlen) as Ht.
  pose proof (tp_sum_le_pred pos_label _ _ Hlen) as Hq.
  set (tp := tp_sum pos_label (s_values y_test) y_pred) in *.
  replace (pred_sum pos_label y_pred)
    with (tp + (pred_sum pos_label y_pred - tp)) by lia.
  replace (true_sum pos_label (s_values y_test))
    with (tp + (true_sum pos_label (s_values y_test) - tp)) by lia.
  set (fp := pred_sum pos_label y_pred - tp).
  set (fn := true_sum pos_label (s_values y_test) - tp).
  replace (tp + fn + (tp + fp)) with (2 * tp + fp + fn) by lia.
  apply f1_harmonic_mean.
Qed.

Lemma model_evaluation_scores_f1_witness :
  ((2 # 3) * ((1 # 2) + 1) == 2 * (1 # 2) * 1)%Q.
Proof.
  apply (@model_evaluation_scores_f1
           [Int 1; Int 1; Int 0] (series_of [Int 1; Int 0; Int 0])
           (finite (2 # 3)) (1 # 2) 1 (2 # 3)).
  reflexivity.
Defined.

(** ** Evaluating on the test rows of a split *)

Section EvaluationAfterSplit.
Variable RandomState : Type.
Variable RandomState_seed : Z -> RandomState.
Variable RandomState_permutation : RandomState -> nat -> list nat * RandomState.

Hypothesis permutation_spec :
  forall g n, Permutation (fst (RandomState_permutation g n)) (seq 0 n).

End EvaluationAfterSplit.


(** ** Evaluation: the confusion matrix of any size, and the accuracy *)

Lemma c_m_inv (y_true y_pred : list cell) (cm : list (list nat)) :
  c_m y_true y_pred = ok cm ->
  length y_true = length y_pred /\
  cm = map (fun t => map (fun p => count_both t p y_true y_pred)
                         (unique cell_compare (y_true ++ y_pred)))
           (unique cell_compare (y_true ++ y_pred)).
Proof.
  unfold c_m.
  destruct (check_targets y_true y_pred) as [labels|e] eqn:E; [|discriminate].
  destruct (check_targets_inv _ _ E) as [Hlen ->].
  simpl. intros H. inversion H. auto.
Qed.

Lemma diagonal_counts (labels : list cell) (f : cell -> cell -> nat) :
  diagonal (map (fun t => map (fun p => f t p) labels) labels) =
  map (fun t => f t t) labels.
Proof.
  unfold diagonal. rewrite length_map.
  apply (nth_ext _ _ 0 0).
  - now rewrite !length_map, length_seq.
  - intros i Hi. rewrite length_map, length_seq in Hi.
    rewrite nth_map_seq by exact Hi.
    rewrite (@nth_map_default _ _ _ labels i NaN) by exact Hi.
    rewrite (@nth_map_default _ _ _ labels i NaN) by exact Hi.
    now rewrite (@nth_map_default _ _ _ labels i NaN) by exact Hi.
Qed.

Lemma count_both_diagonal (labels : list cell) (y_true y_pred : list cell) :
  NoDup labels -> (forall c, In c y_true -> In c labels) ->
  list_sum (map (fun t => count_both t t y_true y_pred) labels) =
  count_matching y_true y_pred.
Proof.
  intros Hnd Hin. unfold count_both, count_matching, count_pairs.
  rewrite <- (@sum_over_labels _ labels (combine y_true y_pred)
                (fun tp => cell_eqb (fst tp) (snd tp)) fst Hnd).
  - f_equal. apply map_ext. intros t. f_equal. apply filter_ext.
    intros [a b]. simpl.
    destruct (cell_eqb a b) eqn:E1; simpl.
    + apply cell_eqb_eq in E1. subst b. apply andb_diag.
    + destruct (cell_eqb a t) eqn:E2; [|reflexivity]. simpl.
      apply cell_eqb_eq in E2. subst t.
      now rewrite cell_eqb_sym.
  - intros [a b] Hx. apply Hin. eapply in_combine_l, Hx.
Qed.

(** X23.  The matrix that [confusion_matrix] hands to the display, whatever
    labels occur: it is square, with one row and one column for each
    distinct label among the test labels and the predictions, in ascending
    order; each row adds up to the number of test rows of its label, each
    column to the number of predictions of its label, and all cells to the
    number of test rows. *)
Theorem confusion_matrix_sums (y_pred : list cell) (y_test : Series)
    (display : ConfusionMatrixDisplay) :
  confusion_matrix y_pred y_test = ok display ->
  let y_true := s_values y_test in
  let labels := unique cell_compare (y_true ++ y_pred) in
  let cm := cm_values display in
  length labels = distinct (y_true ++ y_pred) /\
  length cm = length labels /\
  Forall (fun row => length row = length labels) cm /\
  (forall i, i < length labels ->
     list_sum (nth i cm []) = true_sum (nth i labels NaN) y_true) /\
  (forall j, j < length labels ->
     list_sum (map (fun row => nth j row 0) cm) =
     pred_sum (nth j labels NaN) y_pred) /\
  list_sum (map list_sum cm) = length y_true.
Proof.
  intros H y_true labels cm. unfold confusion_matrix in H. fold y_true in H.
  destruct (c_m y_true y_pred) as [m|e] eqn:Hm; [|discriminate].
  simpl in H. inversion H. subst display. clear H. subst cm. simpl.
  split; [apply distinct_unique|].
  exact (c_m_sums _ _ Hm).
Qed.

Lemma confusion_matrix_sums_witness :
  exists display,
    confusion_matrix [Int 0; Int 1; Int 2; Int 2]
      (series_of [Int 0; Int 2; Int 2; Int 1]) = ok display /\
    length (cm_values display) = 3 /\
    list_sum (map list_sum (cm_values display)) = 4.
Proof.
  eexists. split; [reflexivity|].
  destruct (@confusion_matrix_sums [Int 0; Int 1; Int 2; Int 2]
              (series_of [Int 0; Int 2; Int 2; Int 1]) _ eq_refl)
    as (_ & Hn & _ & _ & _ & Ht).
  split; [exact Hn|exact Ht].
Defined.

(** X24.  The accuracy that [model_evaluation_scores] returns is the
    diagonal of the matrix that [confusion_matrix] plots, over the number of
    test rows: the cells on the diagonal add up to the number of rows whose
    prediction is the test label. *)
Theorem accuracy_is_the_diagonal (y_pred : list cell) (y_test : Series)
    (display : ConfusionMatrixDisplay)
    (accuracy precision recall f1 : float) :
  s_values y_test <> [] ->
  confusion_matrix y_pred y_test = ok display ->
  model_evaluation_scores y_pred y_test =
    ok (accuracy, precision, recall, f1) ->
  list_sum (diagonal (cm_values display)) =
    count_matching (s_values y_test) y_pred /\
  accuracy =
    finite (prf_divide (list_sum (diagonal (cm_values display)))
                       (length (s_values y_test))).
Proof.
  intros Hne Hcm Hs. unfold confusion_matrix in Hcm.
  destruct (c_m (s_values y_test) y_pred) as [m|e] eqn:Hm; [|discriminate].
  simpl in Hcm. inversion Hcm. subst display. clear Hcm. simpl.
  destruct (c_m_inv _ _ Hm) as [Hlen ->].
  rewrite diagonal_counts.
  rewrite count_both_diagonal.
  - split; [reflexivity|].
    destruct (model_evaluation_scores_inv _ _ Hs) as (_ & _ & -> & _).
    destruct (length (s_values y_test)) eqn:E; [|reflexivity].
    destruct (s_values y_test); [contradiction|discriminate].
  - apply unique_cells_NoDup.
  - intros c Hc. apply unique_cells_In, in_or_app. now left.
Qed.

Lemma accuracy_is_the_diagonal_witness :
  exists display,
    confusion_matrix [Int 1; Int 1; Int 0] (series_of [Int 1; Int 0; Int 0])
      = ok display /\
    list_sum (diagonal (cm_values display)) = 2.
Proof.
  eexists. split; [reflexivity|].
  exact (proj1 (@accuracy_is_the_diagonal
                  [Int 1; Int 1; Int 0] (series_of [Int 1; Int 0; Int 0])
                  _ (finite (2 # 3)) (finite (1 # 2)) (finite 1)
                  (finite (2 # 3))
                  ltac:(discriminate) eq_refl eq_refl)).
Defined.

Lemma confusion_matrix_two_classes_witness :
  confusion_matrix [Int 1; Int 1; Int 0] (series_of [Int 1; Int 0; Int 0]) =
  ok {| cm_values := [[1; 1]; [0; 1]];
        display_labels := ["SPAM"; "NON-SPAM"]%string |}.
Proof.
  destruct (@confusion_matrix_two_classes
              [Int 1; Int 1; Int 0] (series_of [Int 1; Int 0; Int 0]))
    as (n00 & n01 & n10 & n11 & Hrun & -> & -> & -> & -> & _).
  - reflexivity.
  - literal_labels.
  - literal_labels.
  - simpl. tauto.
  - simpl. tauto.
  - exact Hrun.
Defined.

(** ** Evaluation: the report *)

Lemma unique_two (lo hi : cell) (y : list cell) :
  cell_compare lo hi = Lt ->
  (forall c, In c y <-> c = lo \/ c = hi) ->
  unique cell_compare y = [lo; hi].
Proof.
  intros Hlt Hy.
  apply (sorted_ext cell_compare cell_compare_eq cell_compare_trans).
  - apply unique_cells_sorted.
  - repeat constructor. exact Hlt.
  - intros x. rewrite unique_cells_In, Hy. simpl. intuition.
Qed.

Lemma filter_all {X} (l : list X) : filter (fun _ => true) l = l.
Proof. induction l; simpl; congruence. Qed.

Lemma sum_two_labels {X} (lo hi : cell) (items : list X) (f : X -> bool)
    (key : X -> cell) :
  lo <> hi -> (forall x, In x items -> key x = lo \/ key x = hi) ->
  length (filter (fun x => f x && cell_eqb (key x) lo) items)
  + length (filter (fun x => f x && cell_eqb (key x) hi) items)
  = length (filter f items).
Proof.
  intros Hne Hkey.
  rewrite <- (@sum_over_labels _ [lo; hi] items f key).
  - simpl. lia.
  - constructor; [simpl; intuition congruence|].
    constructor; [simpl; tauto|constructor].
  - intros x Hx. simpl. destruct (Hkey x Hx) as [-> | ->]; auto.
Qed.

(** X26.  [classification_rep] needs exactly two distinct labels among the
    test labels and the predictions: with one label only (a test set of one
    class, all predicted right) or with three or more it raises the value
    error, the two names it passes being one too many or too few.  With two
    labels it prints two lines: SPAM for the smaller label and NON-SPAM for
    the larger, each with the precision, recall and F1 of its label and, as
    support, the number of test rows of its label; the two supports add up
    to the number of test rows. *)
Theorem classification_rep_two_labels (y_pred : list cell) (y_test : Series) :
  let y_true := s_values y_test in
  Forall (fun c => is_int c = true) y_true ->
  Forall (fun c => is_int c = true) y_pred ->
  length y_pred = length y_true ->
  (distinct (y_true ++ y_pred) <> 2 ->
   classification_rep y_pred y_test = raise ValueError) /\
  (forall lo hi,
     cell_compare lo hi = Lt ->
     (forall c, In c (y_true ++ y_pred) <-> c = lo \/ c = hi) ->
     classification_rep y_pred y_test =
       ok [ {| target_name := "SPAM";
               line_precision := precision_for lo y_true y_pred;
               line_recall := recall_for lo y_true y_pred;
               line_f1 := f1_for lo y_true y_pred;
               line_support := true_sum lo y_true |};
            {| target_name := "NON-SPAM";
               line_precision := precision_for hi y_true y_pred;
               line_recall := recall_for hi y_true y_pred;
               line_f1 := f1_for hi y_true y_pred;
               line_support := true_sum hi y_true |} ] /\
     true_sum lo y_true + true_sum hi y_true = length y_true).
Proof.
  intros y_true Ht Hp Hlen.
  unfold classification_rep, classification_report. fold y_true.
  rewrite check_targets_ints by assumption.
  rewrite <- Hlen, Nat.eqb_refl. simpl rbind. split.
  - intros Hd. rewrite distinct_unique.
    destruct (Nat.eqb_spec (distinct (y_true ++ y_pred)) 2) as [E|N];
      [contradiction|reflexivity].
  - intros lo hi Hlt Hy. rewrite (@unique_two lo hi (y_true ++ y_pred) Hlt Hy). simpl.
    split; [reflexivity|].
    assert (Hne : lo <> hi).
    { intros ->. rewrite (proj2 (cell_compare_eq hi hi) eq_refl) in Hlt.
      discriminate. }
    unfold true_sum.
    pose proof (@sum_two_labels _ lo hi y_true (fun _ => true) (fun c => c) Hne)
      as Hsum.
    simpl in Hsum. rewrite Hsum.
    + now rewrite filter_all.
    + intros c Hc. apply Hy, in_or_app. now left.
Qed.

Lemma classification_rep_two_labels_witness :
  classification_rep [Int 1; Int 1] (series_of [Int 1; Int 1]) =
    raise ValueError /\
  exists spam non_spam,
    classification_rep [Int 1; Int 1; Int 0] (series_of [Int 1; Int 0; Int 0])
      = ok [spam; non_spam] /\
    line_support spam = 2 /\ line_support non_spam = 1.
Proof.
  assert (H11 : Forall (fun c => is_int c = true) [Int 1; Int 1])
    by (repeat constructor).
  assert (H110 : Forall (fun c => is_int c = true) [Int 1; Int 1; Int 0])
    by (repeat constructor).
  assert (H100 : Forall (fun c => is_int c = true) [Int 1; Int 0; Int 0])
    by (repeat constructor).
  split.
  - apply (proj1 (@classification_rep_two_labels
                    [Int 1; Int 1] (series_of [Int 1; Int 1])
                    H11 H11 eq_refl)).
    vm_compute. lia.
  - destruct (proj2 (@classification_rep_two_labels
                       [Int 1; Int 1; Int 0] (series_of [Int 1; Int 0; Int 0])
                       H100 H110 eq_refl) (Int 0) (Int 1) eq_refl)
      as [Hrun _].
    { intros c. simpl. intuition (subst; auto). }
    do 2 eexists. split; [exact Hrun|]. split; reflexivity.
Defined.

(** X27.  The report and the plotted matrix agree.  When two labels occur,
    the matrix that [confusion_matrix] computes is 2 by 2 and every number
    of the two lines of [classification_rep] can be read from it: the
    support of a line is the sum of its row, its recall the diagonal cell
    over that sum, its precision the diagonal cell over the sum of its
    column. *)
Theorem report_reads_off_the_matrix (y_pred : list cell) (y_test : Series)
    (lo hi : cell) :
  let y_true := s_values y_test in
  Forall (fun c => is_int c = true) y_true ->
  Forall (fun c => is_int c = true) y_pred ->
  length y_pred = length y_true ->
  cell_compare lo hi = Lt ->
  (forall c, In c (y_true ++ y_pred) <-> c = lo \/ c = hi) ->
  exists a b c d spam non_spam,
    confusion_matrix y_pred y_test =
      ok {| cm_values := [[a; b]; [c; d]];
            display_labels := ["SPAM"; "NON-SPAM"]%string |} /\
    classification_rep y_pred y_test = ok [spam; non_spam] /\
    line_support spam = a + b /\
    line_recall spam = prf_divide a (a + b) /\
    line_precision spam = prf_divide a (a + c) /\
    line_f1 spam = prf_divide (2 * a) (2 * a + b + c) /\
    line_support non_spam = c + d /\
    line_recall non_spam = prf_divide d (c + d) /\
    line_precision non_spam = prf_divide d (b + d) /\
    line_f1 non_spam = prf_divide (2 * d) (2 * d + b + c).
Proof.
  intros y_true Ht Hp Hlen Hlt Hy.
  assert (Hne : lo <> hi).
  { intros ->. rewrite (proj2 (cell_compare_eq hi hi) eq_refl) in Hlt.
    discriminate. }
  symmetry in Hlen.
  unfold confusion_matrix, c_m, classification_rep, classification_report.
  fold y_true. rewrite check_targets_ints by assumption.
  rewrite Hlen, Nat.eqb_refl. simpl rbind.
  rewrite (@unique_two lo hi (y_true ++ y_pred) Hlt Hy). simpl.
  do 6 eexists. split; [reflexivity|]. split; [reflexivity|]. simpl.
  fold (count_both lo lo y_true y_pred). fold (count_both lo hi y_true y_pred).
  fold (count_both hi lo y_true y_pred). fold (count_both hi hi y_true y_pred).
  assert (Hpair : forall x, In x (combine y_true y_pred) ->
                    (fst x = lo \/ fst x = hi) /\ (snd x = lo \/ snd x = hi)).
  { intros [u v] Hx. split; apply Hy, in_or_app.
    - left. eapply in_combine_l, Hx.
    - right. eapply in_combine_r, Hx. }
  assert (Hrow : forall t, count_both t lo y_true y_pred
                           + count_both t hi y_true y_pred = true_sum t y_true).
  { intros t. rewrite <- (count_fst t _ _ Hlen).
    unfold count_both, count_pairs.
    apply (@sum_two_labels _ lo hi (combine y_true y_pred)
             (fun tp => cell_eqb (fst tp) t) snd Hne).
    intros x Hx. apply Hpair, Hx. }
  assert (Hcol : forall p, count_both lo p y_true y_pred
                           + count_both hi p y_true y_pred = pred_sum p y_pred).
  { intros p. rewrite <- (count_snd p _ _ Hlen).
    unfold count_both, count_pairs.
    rewrite <- (@sum_two_labels _ lo hi (combine y_true y_pred)
                  (fun tp => cell_eqb (snd tp) p) fst Hne)
      by (intros x Hx; apply Hpair, Hx).
    f_equal; f_equal; apply filter_ext; intros tp; apply andb_comm. }
  unfold precision_for, recall_for, f1_for.
  change (tp_sum lo y_true y_pred) with (count_both lo lo y_true y_pred).
  change (tp_sum hi y_true y_pred) with (count_both hi hi y_true y_pred).
  rewrite <- !Hrow, <- !Hcol.
  set (a := count_both lo lo y_true y_pred).
  set (b := count_both lo hi y_true y_pred).
  set (c := count_both hi lo y_true y_pred).
  set (d := count_both hi hi y_true y_pred).
  replace (a + b + (a + c)) with (2 * a + b + c) by lia.
  replace (c + d + (b + d)) with (2 * d + b + c) by lia.
  repeat split; reflexivity.
Qed.

Lemma report_reads_off_the_matrix_witness :
  exists spam non_spam,
    confusion_matrix [Int 1; Int 1; Int 0] (series_of [Int 1; Int 0; Int 0]) =
      ok {| cm_values := [[1; 1]; [0; 1]];
            display_labels := ["SPAM"; "NON-SPAM"]%string |} /\
    classification_rep [Int 1; Int 1; Int 0] (series_of [Int 1; Int 0; Int 0])
      = ok [spam; non_spam] /\
    line_recall spam = (1 # 2)%Q /\ line_precision non_spam = (1 # 2)%Q.
Proof.
  assert (H110 : Forall (fun c => is_int c = true) [Int 1; Int 1; Int 0])
    by (repeat constructor).
  assert (H100 : Forall (fun c => is_int c = true) [Int 1; Int 0; Int 0])
    by (repeat constructor).
  destruct (@report_reads_off_the_matrix
              [Int 1; Int 1; Int 0] (series_of [Int 1; Int 0; Int 0])
              (Int 0) (Int 1) H100 H110 eq_refl eq_refl)
    as (a & b & c & d & spam & non_spam & Hcm & Hrep & _ & Hr & _ & _ & _ & _
        & Hp & _).
  { intros c. simpl. intuition (subst; auto). }
  exists spam, non_spam.
  vm_compute in Hcm. inversion Hcm. subst a b c d.
  repeat split; assumption.
Defined.
